(** * MAPMF retriever and normaliser: a shallow embedding

    The development follows the two Python programs of the repository:

    - [mapmf_cleaner.py]: [parse_list_column], [list_to_pipe_separated],
      [clean_text], [extract_primary_incident_type], [count_gender],
      [parse_subjects_column] and the pipeline [clean_mapmf_data];
    - [mapmf_scraper.py]: the accumulation loop of [scrape_all_alerts].

    Python objects are a type [value]; code that can raise runs in the error
    monad [result].  A data frame is its row labels and an ordered association
    list of columns.  Library routines the programs call (ast.literal_eval,
    html.unescape, json.dumps, pandas.to_datetime, numpy's argsort) are the
    fields of the class [Library]; its laws pin them down on the inputs the
    development evaluates, and [RefLib] is an executable instance.

    Outside the model: floats other than NaN, tuples, sets, bytes, time
    zones, and text beyond ASCII (a character above 127 is carried along
    unchanged). *)

From Stdlib Require Import ZArith List String Ascii Bool Lia ZifyBool.
From Stdlib Require Import Permutation Sorted DecimalString.
From Stdlib Require Import Orders Mergesort.
Import ListNotations.

Set Warnings "-register-all".
Local Open Scope string_scope.
Local Open Scope Z_scope.

(** ** Python values and exceptions *)

Module Py.

Inductive exn : Type :=
| ValueError | SyntaxError | TypeError | KeyError.

Inductive result (A : Type) : Type :=
| Ok (a : A)
| Raise (e : exn).
Arguments Ok {A} a.
Arguments Raise {A} e.

Definition bind {A B} (m : result A) (k : A -> result B) : result B :=
  match m with
  | Ok a => k a
  | Raise e => Raise e
  end.

Fixpoint mapM {A B} (f : A -> result B) (l : list A) : result (list B) :=
  match l with
  | [] => Ok []
  | x :: xs =>
      bind (f x) (fun y => bind (mapM f xs) (fun ys => Ok (y :: ys)))
  end.

Fixpoint foldM {A S} (f : S -> A -> result S) (l : list A) (s : S) : result S :=
  match l with
  | [] => Ok s
  | x :: xs => bind (f s x) (foldM f xs)
  end.

(** [VTime t] is a pandas Timestamp, [t] nanoseconds since 1970-01-01;
    [VNaN] is the float NaN pandas uses for a blank cell. *)
Inductive value : Type :=
| VNone
| VNaN
| VNaT
| VBool (b : bool)
| VInt (z : Z)
| VStr (s : string)
| VTime (t : Z)
| VList (l : list value)
| VDict (d : list (string * value)).

Definition is_list (v : value) : bool :=
  match v with VList _ => true | _ => false end.

Definition is_dict (v : value) : bool :=
  match v with VDict _ => true | _ => false end.

Definition is_str (v : value) : bool :=
  match v with VStr _ => true | _ => false end.

(** Structural equality, by nested recursion through lists and dicts. *)
Fixpoint value_eqb (x y : value) {struct x} : bool :=
  match x, y with
  | VNone, VNone | VNaN, VNaN | VNaT, VNaT => true
  | VBool a, VBool b => Bool.eqb a b
  | VInt a, VInt b => Z.eqb a b
  | VStr a, VStr b => String.eqb a b
  | VTime a, VTime b => Z.eqb a b
  | VList l, VList m =>
      (fix go (l m : list value) {struct l} : bool :=
         match l, m with
         | [], [] => true
         | a :: l', b :: m' => value_eqb a b && go l' m'
         | _, _ => false
         end) l m
  | VDict d, VDict e =>
      (fix go (d e : list (string * value)) {struct d} : bool :=
         match d, e with
         | [], [] => true
         | (k, a) :: d', (k', b) :: e' =>
             String.eqb k k' && value_eqb a b && go d' e'
         | _, _ => false
         end) d e
  | _, _ => false
  end.

End Py.
Export Py.

Declare Scope result_scope.
Delimit Scope result_scope with result.
Notation "x <- m ;; k" := (bind m (fun x => k))
  (at level 61, m at next level, right associativity) : result_scope.
Local Open Scope result_scope.

(** ** Text *)

Module Text.

Definition lower_ascii (c : ascii) : ascii :=
  let n := nat_of_ascii c in
  if (Nat.leb 65 n && Nat.leb n 90)%bool then ascii_of_nat (n + 32) else c.

(** [str.lower()] on ASCII text. *)
Fixpoint lower (s : string) : string :=
  match s with
  | EmptyString => EmptyString
  | String c s' => String (lower_ascii c) (lower s')
  end.

(** [needle in hay] for two strings. *)
Fixpoint contains (needle hay : string) : bool :=
  if String.prefix needle hay then true
  else match hay with
       | EmptyString => false
       | String _ hay' => contains needle hay'
       end.

(** The ASCII characters Python's [\s] and [str.strip] treat as white
    space: tab, line feed, vertical tab, form feed, carriage
    return, the four separators 28..31 and the space. *)
Definition is_space (c : ascii) : bool :=
  let n := nat_of_ascii c in
  ((Nat.leb 9 n && Nat.leb n 13) || (Nat.leb 28 n && Nat.leb n 32))%bool.

(** [re.sub(r'\s+', ' ', s)]: [pending] records that a run of white space
    is being read and its single space has been emitted. *)
Fixpoint collapse_spaces (pending : bool) (s : string) : string :=
  match s with
  | EmptyString => EmptyString
  | String c s' =>
      if is_space c
      then if pending then collapse_spaces true s'
           else String " " (collapse_spaces true s')
      else String c (collapse_spaces false s')
  end.

Fixpoint lstrip (s : string) : string :=
  match s with
  | String c s' => if is_space c then lstrip s' else s
  | EmptyString => EmptyString
  end.

Fixpoint rstrip (s : string) : string :=
  match s with
  | EmptyString => EmptyString
  | String c s' =>
      match rstrip s' with
      | EmptyString => if is_space c then EmptyString else String c EmptyString
      | r => String c r
      end
  end.

Definition strip (s : string) : string := rstrip (lstrip s).

(** [sep.join(parts)]. *)
Fixpoint join (sep : string) (parts : list string) : string :=
  match parts with
  | [] => ""
  | [p] => p
  | p :: ps => p ++ sep ++ join sep ps
  end.

Definition string_of_Z (z : Z) : string := NilZero.string_of_int (Z.to_int z).

End Text.
Export Text.

Example lower_Woman : lower "Woman" = "woman".
Proof. reflexivity. Qed.

Example contains_man_woman : contains "man" "woman" = true.
Proof. reflexivity. Qed.

Example strip_collapse :
  strip (collapse_spaces false "  a  b ") = "a b".
Proof. reflexivity. Qed.

Example string_of_Z_42 : string_of_Z 42 = "42" /\ string_of_Z (-7) = "-7".
Proof. split; reflexivity. Qed.

(** ** Calendar arithmetic for pandas Timestamps *)

Module Calendar.

Definition ns_per_second : Z := 1000000000.
Definition ns_per_day : Z := 86400 * ns_per_second.

Definition days_of_ns (t : Z) : Z := t / ns_per_day.

(** Day of the proleptic Gregorian calendar for a day count from
    1970-01-01, as (year, month, day). *)
Definition civil_from_days (z : Z) : Z * Z * Z :=
  let z := z + 719468 in
  let era := z / 146097 in
  let doe := z - era * 146097 in
  let yoe := (doe - doe / 1460 + doe / 36524 - doe / 146096) / 365 in
  let doy := doe - (365 * yoe + yoe / 4 - yoe / 100) in
  let mp := (5 * doy + 2) / 153 in
  let d := doy - (153 * mp + 2) / 5 + 1 in
  let m := if mp <? 10 then mp + 3 else mp - 9 in
  let y := yoe + era * 400 in
  ((if m <=? 2 then y + 1 else y), m, d).

Definition days_from_civil (y m d : Z) : Z :=
  let y := if m <=? 2 then y - 1 else y in
  let era := y / 400 in
  let yoe := y - era * 400 in
  let doy := (153 * (if 2 <? m then m - 3 else m + 9) + 2) / 5 + d - 1 in
  let doe := yoe * 365 + yoe / 4 - yoe / 100 + doy in
  era * 146097 + doe - 719468.

Definition is_leap (y : Z) : bool :=
  ((y mod 4 =? 0) && negb (y mod 100 =? 0) || (y mod 400 =? 0))%bool.

Definition days_in_month (y m : Z) : Z :=
  if m =? 2 then (if is_leap y then 29 else 28)
  else if ((m =? 4) || (m =? 6) || (m =? 9) || (m =? 11))%bool then 30
  else 31.

(** A date of the Gregorian calendar, and the date of the day after. *)
Definition valid_date (ymd : Z * Z * Z) : bool :=
  let '(y, m, d) := ymd in
  ((1 <=? m) && (m <=? 12) && (1 <=? d) && (d <=? days_in_month y m))%bool.

Definition next_date (ymd : Z * Z * Z) : Z * Z * Z :=
  let '(y, m, d) := ymd in
  if d <? days_in_month y m then (y, m, d + 1)
  else if m <? 12 then (y, m + 1, 1)
  else (y + 1, 1, 1).

(** [Series.dt.month]. *)
Definition month_of (t : Z) : Z :=
  snd (fst (civil_from_days (days_of_ns t))).

Definition day_names : list string :=
  ["Monday"; "Tuesday"; "Wednesday"; "Thursday"; "Friday"; "Saturday";
   "Sunday"].

(** 1970-01-01 was a Thursday; 0 is Monday. *)
Definition weekday (t : Z) : Z := (days_of_ns t + 3) mod 7.

(** [Series.dt.day_name()]. *)
Definition day_name (t : Z) : string :=
  nth (Z.to_nat (weekday t)) day_names "".

Definition pad (width : nat) (z : Z) : string :=
  let s := string_of_Z z in
  (fix zeros (n : nat) : string :=
     match n with O => "" | S n' => String "0" (zeros n') end)
    (width - String.length s)%nat ++ s.

(** [str(Timestamp)]: date, time, and the fraction of a second with six or
    nine digits when it is not zero. *)
Definition timestamp_str (t : Z) : string :=
  let '(y, m, d) := civil_from_days (days_of_ns t) in
  let ns := t mod ns_per_day in
  let secs := ns / ns_per_second in
  let frac := ns mod ns_per_second in
  pad 4 y ++ "-" ++ pad 2 m ++ "-" ++ pad 2 d ++ " " ++
  pad 2 (secs / 3600) ++ ":" ++ pad 2 (secs / 60 mod 60) ++ ":" ++
  pad 2 (secs mod 60) ++
  (if frac =? 0 then ""
   else if frac mod 1000 =? 0 then "." ++ pad 6 (frac / 1000)
   else "." ++ pad 9 frac).

End Calendar.
Export Calendar.

Example civil_2024_06_01 :
  civil_from_days (days_from_civil 2024 6 1) = (2024, 6, 1)
  /\ day_name (days_from_civil 2024 6 1 * ns_per_day) = "Saturday"
  /\ timestamp_str (days_from_civil 2024 6 1 * ns_per_day)
     = "2024-06-01 00:00:00".
Proof. repeat split; reflexivity. Qed.

(** ** Printing and truth values of Python objects *)

Module Printing.

Definition dquote : ascii := ascii_of_nat 34.
Definition squote : ascii := ascii_of_nat 39.
Definition backslash : ascii := ascii_of_nat 92.

Fixpoint has_char (c : ascii) (s : string) : bool :=
  match s with
  | EmptyString => false
  | String x s' => (Ascii.eqb c x || has_char c s')%bool
  end.

Definition hex_digit (n : nat) : string := String.substring n 1 "0123456789abcdef".

Definition escape_char (q c : ascii) : string :=
  let n := nat_of_ascii c in
  if Ascii.eqb c backslash then String backslash (String backslash "")
  else if Ascii.eqb c q then String backslash (String q "")
  else if Nat.eqb n 10 then String backslash "n"
  else if Nat.eqb n 13 then String backslash "r"
  else if Nat.eqb n 9 then String backslash "t"
  else if (Nat.ltb n 32 || Nat.eqb n 127)%bool
       then String backslash
              ("x" ++ hex_digit (Nat.div n 16) ++ hex_digit (Nat.modulo n 16))
  else String c "".

Fixpoint escape (q : ascii) (s : string) : string :=
  match s with
  | EmptyString => EmptyString
  | String c s' => escape_char q c ++ escape q s'
  end.

(** [repr] of a str: single quotes, unless the text has a single quote and
    no double quote. *)
Definition repr_str (s : string) : string :=
  let q := if (has_char squote s && negb (has_char dquote s))%bool
           then dquote else squote in
  String q (escape q s ++ String q "").

Fixpoint py_repr (v : value) : string :=
  match v with
  | VNone => "None"
  | VNaN => "nan"
  | VNaT => "NaT"
  | VBool true => "True"
  | VBool false => "False"
  | VInt z => string_of_Z z
  | VStr s => repr_str s
  | VTime t => "Timestamp(" ++ repr_str (timestamp_str t) ++ ")"
  | VList l =>
      "[" ++
      (fix go (l : list value) : string :=
         match l with
         | [] => ""
         | x :: l' =>
             match l' with
             | [] => py_repr x
             | _ :: _ => py_repr x ++ ", " ++ go l'
             end
         end) l ++ "]"
  | VDict d =>
      "{" ++
      (fix go (d : list (string * value)) : string :=
         match d with
         | [] => ""
         | (k, x) :: d' =>
             match d' with
             | [] => repr_str k ++ ": " ++ py_repr x
             | _ :: _ => repr_str k ++ ": " ++ py_repr x ++ ", " ++ go d'
             end
         end) d ++ "}"
  end.

(** [str(v)]. *)
Definition py_str (v : value) : string :=
  match v with
  | VStr s => s
  | VTime t => timestamp_str t
  | _ => py_repr v
  end.

(** [bool(v)], the test an [if] or an [and] makes. *)
Definition truthy (v : value) : bool :=
  match v with
  | VNone => false
  | VBool b => b
  | VInt z => negb (z =? 0)
  | VStr s => negb (String.eqb s "")
  | VList l => match l with [] => false | _ => true end
  | VDict d => match d with [] => false | _ => true end
  | VNaN | VNaT | VTime _ => true
  end.

(** [len(v)]; an object without a length raises TypeError. *)
Definition py_len (v : value) : result value :=
  match v with
  | VStr s => Ok (VInt (Z.of_nat (String.length s)))
  | VList l => Ok (VInt (Z.of_nat (List.length l)))
  | VDict d => Ok (VInt (Z.of_nat (List.length d)))
  | _ => Raise TypeError
  end.

(** [pd.isna] of a scalar. *)
Definition isna_scalar (v : value) : bool :=
  match v with
  | VNone | VNaN | VNaT => true
  | _ => false
  end.

(** [d.get(k)] and [k in d] on a dict with text keys. *)
Fixpoint dict_get (k : string) (d : list (string * value)) : option value :=
  match d with
  | [] => None
  | (k', v) :: d' => if String.eqb k k' then Some v else dict_get k d'
  end.

(** [d[k] = v]: a key already present keeps its place and takes the new
    value. *)
Fixpoint dict_set (k : string) (v : value) (d : list (string * value))
  : list (string * value) :=
  match d with
  | [] => [(k, v)]
  | (k', v') :: d' =>
      if String.eqb k k' then (k', v) :: d' else (k', v') :: dict_set k v d'
  end.

End Printing.
Export Printing.

Example py_str_list :
  py_str (VList [VStr "a"; VInt 3; VList []; VNone]) = "['a', 3, [], None]".
Proof. reflexivity. Qed.

(** ** A fragment of Python's literal syntax

    [parse_literal] reads the part of the expression syntax the examples
    need and answers what [ast.literal_eval] does on it: integers, quoted
    text without escapes, [None], [True], [False], lists, dicts with text
    keys, names, and operands joined by [|].  On any other text it answers
    [None]: the text is outside the fragment and nothing is said about it. *)

Module Literal.

Inductive token : Type :=
| TLBrack | TRBrack | TLBrace | TRBrace | TComma | TColon | TPipe
| TStr (s : string)
| TInt (z : Z)
| TName (n : string).

Definition in_range (lo hi : nat) (c : ascii) : bool :=
  let n := nat_of_ascii c in (Nat.leb lo n && Nat.leb n hi)%bool.

Definition is_digit (c : ascii) : bool := in_range 48 57 c.

Definition is_ident_start (c : ascii) : bool :=
  (in_range 65 90 c || in_range 97 122 c || Ascii.eqb c "_")%bool.

Definition is_ident_char (c : ascii) : bool :=
  (is_ident_start c || is_digit c)%bool.

Definition is_quote (c : ascii) : bool :=
  (Ascii.eqb c squote || Ascii.eqb c dquote)%bool.

(** A character that stands for itself inside a literal quoted by [q]. *)
Definition str_char (q c : ascii) : bool :=
  (in_range 32 126 c && negb (Ascii.eqb c q) && negb (Ascii.eqb c backslash))%bool.

Fixpoint span (p : ascii -> bool) (s : string) : string * string :=
  match s with
  | EmptyString => ("", "")
  | String c s' =>
      if p c then let '(a, b) := span p s' in (String c a, b) else ("", s)
  end.

Fixpoint Z_of_digits (acc : Z) (s : string) : Z :=
  match s with
  | EmptyString => acc
  | String c s' => Z_of_digits (10 * acc + Z.of_nat (nat_of_ascii c - 48)) s'
  end.

(** Decimal integers of at most 18 digits with no leading zero. *)
Definition number_ok (ds : string) : bool :=
  (Nat.leb (String.length ds) 18
   && (String.eqb ds "0" || negb (String.prefix "0" ds)))%bool.

Definition keywords : list string :=
  ["and"; "as"; "assert"; "async"; "await"; "break"; "class"; "continue";
   "def"; "del"; "elif"; "else"; "except"; "finally"; "for"; "from";
   "global"; "if"; "import"; "in"; "is"; "lambda"; "nonlocal"; "not"; "or";
   "pass"; "raise"; "return"; "try"; "while"; "with"; "yield"].

Definition starts_with (p : ascii -> bool) (s : string) : bool :=
  match s with
  | String c _ => p c
  | EmptyString => false
  end.

Definition push (t : token) (r : option (list token)) : option (list token) :=
  match r with
  | Some ts => Some (t :: ts)
  | None => None
  end.

Fixpoint tokenize (fuel : nat) (s : string) : option (list token) :=
  match fuel with
  | O => None
  | S fuel =>
      match s with
      | EmptyString => Some []
      | String c s' =>
          if Ascii.eqb c " " then tokenize fuel s'
          else if Ascii.eqb c "[" then push TLBrack (tokenize fuel s')
          else if Ascii.eqb c "]" then push TRBrack (tokenize fuel s')
          else if Ascii.eqb c "{" then push TLBrace (tokenize fuel s')
          else if Ascii.eqb c "}" then push TRBrace (tokenize fuel s')
          else if Ascii.eqb c "," then push TComma (tokenize fuel s')
          else if Ascii.eqb c ":" then push TColon (tokenize fuel s')
          else if Ascii.eqb c "|" then push TPipe (tokenize fuel s')
          else if is_quote c then
            let '(body, rest) := span (str_char c) s' in
            match rest with
            | String c' rest' =>
                if Ascii.eqb c' c then push (TStr body) (tokenize fuel rest')
                else None
            | EmptyString => None
            end
          else if is_digit c then
            let '(ds, rest) := span is_digit s in
            if (number_ok ds
                && negb (starts_with
                           (fun x => (is_ident_start x || Ascii.eqb x ".")%bool)
                           rest))%bool
            then push (TInt (Z_of_digits 0 ds)) (tokenize fuel rest)
            else None
          else if is_ident_start c then
            let '(name, rest) := span is_ident_char s in
            if (starts_with is_quote rest
                || existsb (String.eqb name) keywords)%bool
            then None
            else push (TName name) (tokenize fuel rest)
          else None
      end
  end.

Inductive ast : Type :=
| AConst (v : value)
| AName (n : string)
| AList (l : list ast)
| ADict (d : list (string * ast))
| AOr (a b : ast).

Definition name_ast (n : string) : ast :=
  if String.eqb n "None" then AConst VNone
  else if String.eqb n "True" then AConst (VBool true)
  else if String.eqb n "False" then AConst (VBool false)
  else AName n.

Fixpoint parse_expr (fuel : nat) (ts : list token) : option (ast * list token) :=
  match fuel with
  | O => None
  | S fuel =>
      match parse_atom fuel ts with
      | Some (a, TPipe :: rest) =>
          match parse_expr fuel rest with
          | Some (b, rest') => Some (AOr a b, rest')
          | None => None
          end
      | r => r
      end
  end
with parse_atom (fuel : nat) (ts : list token) : option (ast * list token) :=
  match fuel with
  | O => None
  | S fuel =>
      match ts with
      | TStr s :: r => Some (AConst (VStr s), r)
      | TInt z :: r => Some (AConst (VInt z), r)
      | TName n :: r => Some (name_ast n, r)
      | TLBrack :: TRBrack :: r => Some (AList [], r)
      | TLBrack :: r =>
          match parse_items fuel r with
          | Some (l, r') => Some (AList l, r')
          | None => None
          end
      | TLBrace :: TRBrace :: r => Some (ADict [], r)
      | TLBrace :: r =>
          match parse_pairs fuel r with
          | Some (d, r') => Some (ADict d, r')
          | None => None
          end
      | _ => None
      end
  end
with parse_items (fuel : nat) (ts : list token)
  : option (list ast * list token) :=
  match fuel with
  | O => None
  | S fuel =>
      match parse_expr fuel ts with
      | Some (a, TRBrack :: r) => Some ([a], r)
      | Some (a, TComma :: TRBrack :: r) => Some ([a], r)
      | Some (a, TComma :: r) =>
          match parse_items fuel r with
          | Some (l, r') => Some (a :: l, r')
          | None => None
          end
      | _ => None
      end
  end
with parse_pairs (fuel : nat) (ts : list token)
  : option (list (string * ast) * list token) :=
  match fuel with
  | O => None
  | S fuel =>
      match ts with
      | TStr k :: TColon :: r =>
          match parse_expr fuel r with
          | Some (a, TRBrace :: r') => Some ([(k, a)], r')
          | Some (a, TComma :: TRBrace :: r') => Some ([(k, a)], r')
          | Some (a, TComma :: r') =>
              match parse_pairs fuel r' with
              | Some (d, r'') => Some ((k, a) :: d, r'')
              | None => None
              end
          | _ => None
          end
      | _ => None
      end
  end.

(** [ast.literal_eval]'s conversion of the parsed expression: a name or an
    operator is a malformed node. *)
Fixpoint convert (a : ast) : result value :=
  match a with
  | AConst v => Ok v
  | AName _ => Raise ValueError
  | AOr _ _ => Raise ValueError
  | AList l =>
      bind ((fix go (l : list ast) : result (list value) :=
               match l with
               | [] => Ok []
               | x :: l' =>
                   bind (convert x) (fun y =>
                   bind (go l') (fun ys => Ok (y :: ys)))
               end) l)
           (fun vs => Ok (VList vs))
  | ADict d =>
      bind ((fix go (d : list (string * ast)) (acc : list (string * value))
               : result (list (string * value)) :=
               match d with
               | [] => Ok acc
               | (k, x) :: d' =>
                   bind (convert x) (fun y => go d' (dict_set k y acc))
               end) d [])
           (fun kvs => Ok (VDict kvs))
  end.

Fixpoint adjacent_names (ts : list token) : bool :=
  match ts with
  | TName _ :: ((TName _ :: _) as r) => true
  | _ :: r => adjacent_names r
  | [] => false
  end.

(** Deepest nesting of brackets, kept below the limits of every parser. *)
Fixpoint depth_ok (budget : nat) (ts : list token) : bool :=
  match ts with
  | [] => true
  | (TLBrack | TLBrace) :: r =>
      match budget with
      | O => false
      | S b => depth_ok b r
      end
  | (TRBrack | TRBrace) :: r => depth_ok (S budget) r
  | _ :: r => depth_ok budget r
  end.

(** Two names side by side are a syntax error wherever they stand.  A text
    that begins with a space is left out: older versions of the library
    reject its indentation, newer ones strip it. *)
Definition parse_literal (s : string) : option (result value) :=
  if starts_with (Ascii.eqb " ") s then None
  else
    match tokenize (S (String.length s)) s with
    | None => None
    | Some ts =>
        if depth_ok 20 ts then
          if adjacent_names ts then Some (Raise SyntaxError)
          else
            match parse_expr (4 * List.length ts + 4) ts with
            | Some (a, []) => Some (convert a)
            | _ => None
            end
        else None
    end.

End Literal.
Export Literal.

Example literal_genders :
  parse_literal "['Man', 'Woman', 'Man']"
  = Some (Ok (VList [VStr "Man"; VStr "Woman"; VStr "Man"])).
Proof. reflexivity. Qed.

Example literal_pipe : parse_literal "A | B" = Some (Raise ValueError).
Proof. reflexivity. Qed.

Example literal_words :
  parse_literal "Physical assault | Legal incident" = Some (Raise SyntaxError).
Proof. reflexivity. Qed.

Example literal_int : parse_literal "42" = Some (Ok (VInt 42)).
Proof. reflexivity. Qed.

Example literal_subjects :
  parse_literal "[{'gender': 'Man', 'kind': 'journalist', 'n': 1,}, {}]"
  = Some (Ok (VList [VDict [("gender", VStr "Man");
                            ("kind", VStr "journalist");
                            ("n", VInt 1)]; VDict []])).
Proof. reflexivity. Qed.

Example literal_outside :
  parse_literal "1.5" = None /\ parse_literal "(1, 2)" = None
  /\ parse_literal "b'x'" = None /\ parse_literal "not x" = None
  /\ parse_literal " [1]" = None /\ parse_literal "007" = None.
Proof. repeat split; reflexivity. Qed.

(** ** Dates written year-month-day *)

Module IsoDate.

Definition digit_val (c : ascii) : Z := Z.of_nat (nat_of_ascii c - 48).

(** The instant, in nanoseconds, of a date written [YYYY-MM-DD] that lies
    inside the range of a pandas Timestamp. *)
Definition parse_iso_date (s : string) : option Z :=
  match list_ascii_of_string s with
  | [y1; y2; y3; y4; h1; m1; m2; h2; d1; d2] =>
      let y := 1000 * digit_val y1 + 100 * digit_val y2
               + 10 * digit_val y3 + digit_val y4 in
      let m := 10 * digit_val m1 + digit_val m2 in
      let d := 10 * digit_val d1 + digit_val d2 in
      if (forallb is_digit [y1; y2; y3; y4; m1; m2; d1; d2]
          && Ascii.eqb h1 "-" && Ascii.eqb h2 "-"
          && (1678 <=? y) && (y <=? 2261)
          && (1 <=? m) && (m <=? 12)
          && (1 <=? d) && (d <=? days_in_month y m))%bool
      then Some (days_from_civil y m d * ns_per_day)
      else None
  | _ => None
  end.

(** A cell [pd.to_datetime] reads as missing. *)
Definition is_missing (v : value) : bool :=
  match v with
  | VNone | VNaN | VNaT => true
  | VStr s => String.eqb s ""
  | _ => false
  end.

(** A cell that already holds a datetime64 value. *)
Definition is_datetime (v : value) : bool :=
  match v with
  | VTime _ | VNaT => true
  | _ => false
  end.

(** What a missing cell or a year-month-day text becomes. *)
Definition iso_cell (v : value) : option value :=
  if is_missing v then Some VNaT
  else match v with
       | VStr s =>
           match parse_iso_date s with
           | Some t => Some (VTime t)
           | None => None
           end
       | _ => None
       end.

End IsoDate.
Export IsoDate.

(** ** Texts of a date column *)

Module DateText.

Definition is_letter (c : ascii) : bool :=
  let n := nat_of_ascii c in
  ((Nat.leb 65 n && Nat.leb n 90) || (Nat.leb 97 n && Nat.leb n 122))%bool.

Definition has_digit (s : string) : bool :=
  existsb is_digit (list_ascii_of_string s).

(** The words [pd.to_datetime] and the dateutil parser behind it know:
    the two relative dates, the names of the months and of the weekdays,
    the marks of the time of day and of its units, the words the parser
    skips, the names of the universal time zone and the spellings of a
    missing value. *)
Definition date_words : list string :=
  ["now"; "today";
   "jan"; "january"; "feb"; "february"; "mar"; "march"; "apr"; "april";
   "may"; "jun"; "june"; "jul"; "july"; "aug"; "august";
   "sep"; "sept"; "september"; "oct"; "october"; "nov"; "november";
   "dec"; "december";
   "mon"; "monday"; "tue"; "tues"; "tuesday"; "wed"; "wednesday";
   "thu"; "thur"; "thurs"; "thursday"; "fri"; "friday";
   "sat"; "saturday"; "sun"; "sunday";
   "am"; "pm"; "a"; "p";
   "h"; "hour"; "hours"; "m"; "minute"; "minutes";
   "s"; "second"; "seconds";
   "at"; "on"; "and"; "ad"; "t"; "of"; "st"; "nd"; "rd"; "th";
   "utc"; "gmt"; "z"; "q";
   "nat"; "nan"; "na"; "null"; "none"; "inf"; "infinity"].

(** A word in which no parser of [pd.to_datetime] reads a date: ASCII
    letters only, and none of the words above. *)
Definition undatable (s : string) : bool :=
  (negb (String.eqb s "")
   && forallb is_letter (list_ascii_of_string s)
   && negb (existsb (String.eqb (lower s)) date_words))%bool.

(** A cell [pd.to_datetime] cannot read as a date: a missing one or an
    undatable word. *)
Definition unparseable (v : value) : bool :=
  (is_missing v || match v with VStr s => undatable s | _ => false end)%bool.

(** Ten characters in the shape [dddd-dd-dd]. *)
Definition iso_shaped (s : string) : bool :=
  match list_ascii_of_string s with
  | [y1; y2; y3; y4; h1; m1; m2; h2; d1; d2] =>
      (forallb is_digit [y1; y2; y3; y4; m1; m2; d1; d2]
       && Ascii.eqb h1 "-" && Ascii.eqb h2 "-")%bool
  | _ => false
  end.

(** A text in which [pd.to_datetime] reads no time zone.  A zone follows a
    time of day, which takes digits and then a sign or a letter: there is
    none in a text without a digit, in one of the shape [dddd-dd-dd], or in
    one made of digits, slashes and full stops. *)
Definition zoneless (s : string) : bool :=
  (negb (has_digit s) || iso_shaped s
   || forallb (fun c => is_digit c || Ascii.eqb c "/" || Ascii.eqb c ".")
              (list_ascii_of_string s))%bool.

(** A cell of a [date] column read from a CSV file that holds no time
    zone: blank, or a zoneless text. *)
Definition date_text (v : value) : bool :=
  match v with
  | VNaN => true
  | VStr s => zoneless s
  | _ => false
  end.

End DateText.
Export DateText.

Example date_texts :
  undatable "garbage" = true /\ undatable "January" = false
  /\ undatable "2024-01-01" = false
  /\ zoneless "garbage" = true /\ zoneless "13/45/2024" = true
  /\ zoneless "2024-01-01" = true
  /\ zoneless "2024-01-01T10:00:00+01:00" = false.
Proof. repeat split. Qed.

Example iso_2024_06_01 :
  parse_iso_date "2024-06-01" = Some (19875 * ns_per_day)
  /\ parse_iso_date "2023-02-29" = None
  /\ parse_iso_date "01/02/2024" = None.
Proof. repeat split; reflexivity. Qed.

(** ** The library routines the programs call

    The laws say what the development uses of each routine:
    [ast.literal_eval] agrees with [parse_literal] on the fragment;
    the array [pd.isna] builds from a list has the truth value of its one
    cell, and none when it has two or more and some cell is not a list;
    [html.unescape] returns a text without ampersand as it is;
    [pd.to_datetime] with [errors='coerce'] keeps the length, returns
    Timestamps and NaT only, reads a blank cell as NaT, and does not fail on
    a column of blank cells and year-month-day texts; [argsort] returns the
    positions of the keys in ascending order of the keys. *)

Class Library : Type := {
  (** [ast.literal_eval] of a text. *)
  literal_eval_str : string -> result value;
  (** [bool(pd.isna(l))] of a list [l]: the truth value of an array. *)
  isna_list : list value -> result bool;
  (** [html.unescape]. *)
  unescape : string -> string;
  (** [json.dumps]. *)
  json_dumps : value -> result string;
  (** [pd.to_datetime(column, errors='coerce')]. *)
  to_datetime_coerce : list value -> result (list value);
  (** numpy's [argsort] of integer keys. *)
  argsort : list Z -> list nat;

  literal_eval_fragment :
    forall s r, parse_literal s = Some r -> literal_eval_str s = r;
  isna_list_single :
    forall v, is_list v = false -> isna_list [v] = Ok (isna_scalar v);
  isna_list_many :
    forall v w l,
      existsb (fun x => negb (is_list x)) (v :: w :: l) = true ->
      isna_list (v :: w :: l) = Raise ValueError;
  unescape_plain :
    forall s, has_char "&" s = false -> unescape s = s;
  to_datetime_length :
    forall l l', to_datetime_coerce l = Ok l' -> List.length l' = List.length l;
  to_datetime_kind :
    forall l l', to_datetime_coerce l = Ok l' -> forallb is_datetime l' = true;
  to_datetime_missing :
    forall l l' i v,
      to_datetime_coerce l = Ok l' -> nth_error l i = Some v ->
      is_missing v = true -> nth_error l' i = Some VNaT;
  to_datetime_iso :
    forall l l',
      mapM (fun v => match iso_cell v with
                     | Some w => Ok w
                     | None => Raise ValueError
                     end) l = Ok l' ->
      to_datetime_coerce l = Ok l';
  argsort_perm :
    forall keys, Permutation (argsort keys) (seq 0 (List.length keys));
  argsort_sorted :
    forall keys,
      StronglySorted (fun i j => nth i keys 0 <= nth j keys 0) (argsort keys)
}.

(** What [pd.to_datetime] with [errors='coerce'] promises beyond the
    laws above: a value it cannot convert becomes NaT and is no error, so
    that the call returns on every column of blank cells and texts in which
    it reads no time zone (it raises when it reads zones that differ), and
    a word that is no date gives NaT. *)
Class DateContract (L : Library) : Prop := {
  to_datetime_returns :
    forall raw,
      forallb date_text raw = true ->
      exists parsed, to_datetime_coerce raw = Ok parsed;
  to_datetime_undatable :
    forall raw parsed i s,
      to_datetime_coerce raw = Ok parsed ->
      nth_error raw i = Some (VStr s) -> undatable s = true ->
      nth_error parsed i = Some VNaT
}.

(** ** Data frames *)

Module Frame.

Definition column : Type := list value.

(** Row labels and the columns in their order. *)
Record DataFrame : Type := {
  index : list nat;
  columns : list (string * column)
}.

(** [len(df)]. *)
Definition nrows (df : DataFrame) : nat := List.length (index df).

Fixpoint lookup (c : string) (cols : list (string * column)) : option column :=
  match cols with
  | [] => None
  | (c', vs) :: r => if String.eqb c c' then Some vs else lookup c r
  end.

(** [c in df.columns]. *)
Definition has_col (c : string) (df : DataFrame) : bool :=
  match lookup c (columns df) with Some _ => true | None => false end.

(** [df[c]]. *)
Definition get_col (c : string) (df : DataFrame) : result column :=
  match lookup c (columns df) with
  | Some vs => Ok vs
  | None => Raise KeyError
  end.

Fixpoint assign (c : string) (vs : column) (cols : list (string * column))
  : list (string * column) :=
  match cols with
  | [] => [(c, vs)]
  | (c', vs') :: r =>
      if String.eqb c c' then (c', vs) :: r else (c', vs') :: assign c vs r
  end.

(** [df[c] = vs]: an existing column is replaced in place, a new one goes
    last. *)
Definition set_col (c : string) (vs : column) (df : DataFrame) : DataFrame :=
  {| index := index df; columns := assign c vs (columns df) |}.

(** [df[names]] for names that are all columns of [df]. *)
Definition select_columns (names : list string) (df : DataFrame) : DataFrame :=
  {| index := index df;
     columns := flat_map (fun n => match lookup n (columns df) with
                                   | Some vs => [(n, vs)]
                                   | None => []
                                   end) names |}.

(** Rows picked by position, in the order given. *)
Definition take_rows (idx : list nat) (df : DataFrame) : DataFrame :=
  {| index := map (fun i => nth i (index df) O) idx;
     columns := map (fun '(c, vs) => (c, map (fun i => nth i vs VNaN) idx))
                    (columns df) |}.

(** The row at a position: its label and its cells by column. *)
Definition row (df : DataFrame) (i : nat) : nat * list (string * value) :=
  (nth i (index df) O, map (fun '(c, vs) => (c, nth i vs VNaN)) (columns df)).

Definition rows (df : DataFrame) : list (nat * list (string * value)) :=
  map (row df) (seq 0 (nrows df)).

(** Every column is as long as the index, as in a frame read from a file. *)
Definition well_formed (df : DataFrame) : Prop :=
  Forall (fun cv => List.length (snd cv) = nrows df) (columns df).

(** Positions of the rows whose key did not occur in an earlier row:
    [~df.duplicated(subset=[c], keep='first')]. *)
Definition first_occurrences (keys : list value) : list nat :=
  filter (fun i => negb (existsb (value_eqb (nth i keys VNaN)) (firstn i keys)))
         (seq 0 (List.length keys)).

(** [df.drop_duplicates(subset=[c], keep='first')]. *)
Definition drop_duplicates (c : string) (df : DataFrame) : result DataFrame :=
  keys <- get_col c df ;;
  Ok (take_rows (first_occurrences keys) df).

Definition time_key (v : value) : Z :=
  match v with VTime t => t | _ => 0 end.

(** Positions of the null cells of a column and of the others, ascending. *)
Definition null_positions (keys : list value) : list nat :=
  filter (fun i => isna_scalar (nth i keys VNaN)) (seq 0 (List.length keys)).

Definition dated_positions (keys : list value) : list nat :=
  filter (fun i => negb (isna_scalar (nth i keys VNaN)))
         (seq 0 (List.length keys)).

Section Sorting.
Context {L : Library}.

(** pandas' [nargsort] with [ascending=False] and [na_position='last']:
    the nulls are set aside, the other keys are reversed, sorted ascending
    and reversed again, and the nulls follow in their own order. *)
Definition sort_indexer (keys : list value) : list nat :=
  let non_nan_idx := dated_positions keys in
  let nan_idx := null_positions keys in
  let non_nans := map (fun i => time_key (nth i keys VNaN)) non_nan_idx in
  let non_nans := rev non_nans in
  let non_nan_idx := rev non_nan_idx in
  let indexer := map (fun j => nth j non_nan_idx O) (argsort non_nans) in
  (rev indexer ++ nan_idx)%list.

(** [df.sort_values(c, ascending=False)] on a datetime64 column, whose cells
    are Timestamps and NaT. *)
Definition sort_values_desc (c : string) (df : DataFrame) : result DataFrame :=
  keys <- get_col c df ;;
  Ok (take_rows (sort_indexer keys) df).

End Sorting.

End Frame.
Export Frame.

(** ** mapmf_cleaner.py *)

Module Cleaner.

Section Functions.
Context {L : Library}.

(** [if pd.isna(value):] *)
Definition isna_truth (v : value) : result bool :=
  match v with
  | VList l => isna_list l
  | _ => Ok (isna_scalar v)
  end.

(** [ast.literal_eval(value)]: an object that is neither text nor a syntax
    tree is a malformed node. *)
Definition literal_eval (v : value) : result value :=
  match v with
  | VStr s => literal_eval_str s
  | _ => Raise ValueError
  end.

Definition parse_list_column (val : value) : result value :=
  na <- isna_truth val ;;
  if na then Ok (VList [])
  else if is_list val then Ok val
  else match literal_eval val with
       | Raise ValueError | Raise SyntaxError => Ok (VList [])
       | r => r
       end.

Definition list_to_pipe_separated (val : value) : value :=
  match val with
  | VList l => VStr (join " | " (map py_str l))
  | _ => val
  end.

Definition clean_text (text : value) : result value :=
  na <- isna_truth text ;;
  if na then Ok (VStr "")
  else
    let text := unescape (py_str text) in
    let text := collapse_spaces false text in
    let text := strip text in
    Ok (VStr text).

Definition extract_primary_incident_type (types_list : value) : value :=
  match types_list with
  | VList (x :: _) => x
  | _ => VNone
  end.

Definition extract_genders_from_subjects (subjects : value) : value :=
  match subjects with
  | VList l =>
      VList (flat_map (fun subject =>
                         match subject with
                         | VDict d => match dict_get "gender" d with
                                      | Some g => [g]
                                      | None => []
                                      end
                         | _ => []
                         end) l)
  | _ => VList []
  end.

Definition count_gender (gender_list : value) (target_gender : string) : value :=
  match gender_list with
  | VList l =>
      VInt (Z.of_nat (List.length
        (filter (fun g => (truthy g
                           && contains (lower target_gender) (lower (py_str g)))%bool)
                l)))
  | _ => VInt 0
  end.

Definition parse_subjects_column (val : value) : result value :=
  na <- isna_truth val ;;
  if na then Ok (VList [])
  else if is_list val then Ok val
  else match literal_eval val with
       | Raise ValueError | Raise SyntaxError => Ok (VList [])
       | r => r
       end.

(** The two lambdas of the region columns, by the index they read. *)
Definition region_level (k : nat) (x : value) : value :=
  match x with
  | VList l => if Nat.ltb k (List.length l) then nth k l VNone else VNone
  | _ => VNone
  end.

Definition gender_other_count (x : value) : value :=
  match x with
  | VList l =>
      VInt (Z.of_nat (List.length
        (filter (fun g =>
                   match g with
                   | VStr s =>
                       negb (existsb (String.eqb (lower s))
                                     ["man"; "woman"; "not applicable"; ""])
                   | _ => false
                   end) l)))
  | _ => VInt 0
  end.

Definition subjects_count (x : value) : value :=
  match x with
  | VList l => VInt (Z.of_nat (List.length l))
  | _ => VInt 0
  end.

Definition journalist_types (subjects : value) : value :=
  match subjects with
  | VList l =>
      VList (flat_map (fun s =>
                         match s with
                         | VDict d =>
                             match dict_get "kind" d with
                             | Some (VStr k) =>
                                 if String.eqb k "journalist"
                                 then [match dict_get "type" d with
                                       | Some t => t
                                       | None => VStr ""
                                       end]
                                 else []
                             | _ => []
                             end
                         | _ => []
                         end) l)
  | _ => VList []
  end.

(** [Series.dt.month] and [Series.dt.day_name()] of one cell. *)
Definition dt_month (v : value) : value :=
  match v with VTime t => VInt (month_of t) | _ => VNaN end.

Definition dt_day_name (v : value) : value :=
  match v with VTime t => VStr (day_name t) | _ => VNaN end.

(** [Series.str.len()] of one cell. *)
Definition str_len (v : value) : value :=
  match py_len v with Ok n => n | Raise _ => VNaN end.

(** [Series.fillna(fill)] of one cell. *)
Definition fillna (fill : value) (v : value) : value :=
  if isna_scalar v then fill else v.

Definition subjects_to_json (x : value) : result value :=
  match x with
  | VList _ => s <- json_dumps x ;; Ok (VStr s)
  | _ => Ok x
  end.

(** [df[dst] = df[src].apply(f)]. *)
Definition apply_col (f : value -> result value) (src dst : string)
    (df : DataFrame) : result DataFrame :=
  vs <- get_col src df ;;
  ws <- mapM f vs ;;
  Ok (set_col dst ws df).

Definition pure (f : value -> value) (v : value) : result value := Ok (f v).

(** [if c in df.columns: ...]. *)
Definition when_col (c : string) (k : DataFrame -> result DataFrame)
    (df : DataFrame) : result DataFrame :=
  if has_col c df then k df else Ok df.

Definition list_columns : list string :=
  ["type_of_incident"; "source_of_incident"; "context_of_incident";
   "region_names"; "gender"; "who_was_attacked";
   "type_of_journalist_or_media_actor"; "employment_status"].

Definition text_columns : list string := ["title"; "content"].

Definition preferred_order : list string :=
  ["id"; "title"; "date"; "year"; "month"; "day_of_week";
   "country"; "region_level_1"; "region_level_2";
   "primary_incident_type"; "incident_type_count"; "type_of_incident";
   "primary_source"; "source_of_incident";
   "context_of_incident"; "region_names";
   "primary_gender"; "gender_male_count"; "gender_female_count";
   "gender_other_count"; "gender";
   "primary_victim_type"; "who_was_attacked"; "attacked_count";
   "type_of_journalist_or_media_actor"; "employment_status";
   "subjects_count"; "journalist_types"; "subjects";
   "content"; "content_length";
   "published_at_date"; "_geo_lat"; "_geo_lng"].

(** Step 1: the list columns, then [subjects]. *)
Definition parse_lists (df : DataFrame) : result DataFrame :=
  df <- foldM (fun df col =>
                 when_col col (apply_col parse_list_column col col) df)
              list_columns df ;;
  when_col "subjects" (apply_col parse_subjects_column "subjects" "subjects") df.

(** Step 2. *)
Definition clean_texts (df : DataFrame) : result DataFrame :=
  foldM (fun df col => when_col col (apply_col clean_text col col) df)
        text_columns df.

(** Step 3. *)
Definition derive_columns (df : DataFrame) : result DataFrame :=
  df <- when_col "type_of_incident" (fun df =>
          df <- apply_col (pure extract_primary_incident_type)
                  "type_of_incident" "primary_incident_type" df ;;
          apply_col py_len "type_of_incident" "incident_type_count" df) df ;;
  df <- when_col "source_of_incident"
          (apply_col (pure extract_primary_incident_type)
             "source_of_incident" "primary_source") df ;;
  df <- when_col "region_names" (fun df =>
          df <- apply_col (pure (region_level 1))
                  "region_names" "region_level_1" df ;;
          apply_col (pure (region_level 2))
            "region_names" "region_level_2" df) df ;;
  df <- when_col "gender" (fun df =>
          df <- apply_col (pure extract_primary_incident_type)
                  "gender" "primary_gender" df ;;
          df <- apply_col (pure (fun x => count_gender x "man"))
                  "gender" "gender_male_count" df ;;
          df <- apply_col (pure (fun x => count_gender x "woman"))
                  "gender" "gender_female_count" df ;;
          apply_col (pure gender_other_count)
            "gender" "gender_other_count" df) df ;;
  df <- when_col "subjects" (fun df =>
          df <- apply_col (pure subjects_count)
                  "subjects" "subjects_count" df ;;
          apply_col (pure journalist_types)
            "subjects" "journalist_types" df) df ;;
  when_col "who_was_attacked"
    (apply_col (pure extract_primary_incident_type)
       "who_was_attacked" "primary_victim_type") df.

(** Step 4.  The second [pd.to_datetime] of the source reads the column
    just stored, which is datetime64 already, and gives it back. *)
Definition parse_dates (df : DataFrame) : result DataFrame :=
  when_col "date" (fun df =>
    raw <- get_col "date" df ;;
    dates <- to_datetime_coerce raw ;;
    let df := set_col "date" dates df in
    date_series <- get_col "date" df ;;
    let df := set_col "month" (map dt_month date_series) df in
    Ok (set_col "day_of_week" (map dt_day_name date_series) df)) df.

(** Step 5. *)
Definition content_length (df : DataFrame) : result DataFrame :=
  when_col "content" (apply_col (pure str_len) "content" "content_length") df.

(** Step 6: the three columns are read without a test for their presence. *)
Definition fill_missing (df : DataFrame) : result DataFrame :=
  df <- apply_col (pure (fillna (VStr "Unknown"))) "country" "country" df ;;
  df <- apply_col (pure (fillna (VStr ""))) "title" "title" df ;;
  apply_col (pure (fillna (VStr ""))) "content" "content" df.

(** Step 7. *)
Definition encode_lists (df : DataFrame) : result DataFrame :=
  df <- foldM (fun df col =>
                 when_col col (apply_col (pure list_to_pipe_separated) col col) df)
              list_columns df ;;
  df <- when_col "journalist_types"
          (apply_col (pure list_to_pipe_separated)
             "journalist_types" "journalist_types") df ;;
  when_col "subjects" (apply_col subjects_to_json "subjects" "subjects") df.

(** Step 8. *)
Definition reorder_columns (df : DataFrame) : DataFrame :=
  let final_columns := filter (fun col => has_col col df) preferred_order in
  let remaining :=
    filter (fun col => negb (existsb (String.eqb col) final_columns))
           (map fst (columns df)) in
  select_columns (final_columns ++ remaining)%list df.

(** Steps 1 to 8: the table before duplicates are removed. *)
Definition transform (df : DataFrame) : result DataFrame :=
  df <- parse_lists df ;;
  df <- clean_texts df ;;
  df <- derive_columns df ;;
  df <- parse_dates df ;;
  df <- content_length df ;;
  df <- fill_missing df ;;
  df <- encode_lists df ;;
  Ok (reorder_columns df).

(** Steps 1 to 10 (lines 82 to 217): the table the function returns, with
    [duplicates_removed], the count it reports.  The function goes on to
    write the table to a file and to print a summary (lines 219 to 254);
    these change nothing in the table but can raise, as [value_counts] does
    on a column that holds a list.  When the function returns, it returns
    the table computed here. *)
Definition clean_mapmf_data (df : DataFrame) : result (DataFrame * nat) :=
  df <- transform df ;;
  let original_count := nrows df in
  df <- drop_duplicates "id" df ;;
  let duplicates_removed := (original_count - nrows df)%nat in
  df <- sort_values_desc "date" df ;;
  Ok (df, duplicates_removed).

End Functions.

End Cleaner.
Export Cleaner.

(** ** An executable instance of the library *)

Module KeyOrder <: TotalLeBool.
Definition t : Type := (Z * nat)%type.
Definition leb (x y : t) : bool := fst x <=? fst y.
Lemma leb_total : forall x y, leb x y = true \/ leb y x = true.
Proof.
  intros x y. unfold leb.
  destruct (Z.leb_spec (fst x) (fst y)); [now left | right].
  apply Z.leb_le. lia.
Qed.
End KeyOrder.

Module KeySort := Sort KeyOrder.

Module Reference.

(** Outside the fragment the instance reports a syntax error. *)
Definition ref_literal_eval_str (s : string) : result value :=
  match parse_literal s with
  | Some r => r
  | None => Raise SyntaxError
  end.

(** The truth value of the array numpy builds from a list: an array of one
    cell has the truth value of the cell, an empty one is false (as NumPy
    had it before 2.2), a longer one has none. *)
Fixpoint ref_isna_truth (v : value) : result bool :=
  match v with
  | VList l =>
      match l with
      | [] => Ok false
      | x :: l' =>
          match l' with
          | [] => ref_isna_truth x
          | _ :: _ => Raise ValueError
          end
      end
  | _ => Ok (isna_scalar v)
  end.

Definition ref_isna_list (l : list value) : result bool :=
  ref_isna_truth (VList l).

Definition entities : list (string * ascii) :=
  [("amp;", "&"%char); ("lt;", "<"%char); ("gt;", ">"%char);
   ("quot;", dquote); ("#39;", squote); ("apos;", squote)].

Definition find_entity (s : string) : option (nat * ascii) :=
  match find (fun e => String.prefix (fst e) s) entities with
  | Some (name, c) => Some (String.length name, c)
  | None => None
  end.

(** Replaces the five entities of XML and [&#39;]; [skip] counts the
    characters of an entity still to be dropped. *)
Fixpoint ref_unescape_from (skip : nat) (s : string) : string :=
  match s with
  | EmptyString => EmptyString
  | String c s' =>
      match skip with
      | S k => ref_unescape_from k s'
      | O =>
          if Ascii.eqb c "&" then
            match find_entity s' with
            | Some (len, r) => String r (ref_unescape_from len s')
            | None => String c (ref_unescape_from 0 s')
            end
          else String c (ref_unescape_from 0 s')
      end
  end.

Definition ref_unescape (s : string) : string := ref_unescape_from 0 s.

Definition json_escape_char (c : ascii) : string :=
  let n := nat_of_ascii c in
  if Ascii.eqb c dquote then String backslash (String dquote "")
  else if Ascii.eqb c backslash then String backslash (String backslash "")
  else if Nat.eqb n 10 then String backslash "n"
  else if Nat.eqb n 13 then String backslash "r"
  else if Nat.eqb n 9 then String backslash "t"
  else if Nat.eqb n 8 then String backslash "b"
  else if Nat.eqb n 12 then String backslash "f"
  else if Nat.ltb n 32
       then String backslash
              ("u00" ++ hex_digit (Nat.div n 16) ++ hex_digit (Nat.modulo n 16))
  else String c "".

Fixpoint json_escape (s : string) : string :=
  match s with
  | EmptyString => EmptyString
  | String c s' => json_escape_char c ++ json_escape s'
  end.

Definition json_str (s : string) : string :=
  String dquote (json_escape s ++ String dquote "").

(** [json.dumps] with its default separators; a Timestamp is not
    serialisable. *)
Fixpoint ref_json_dumps (v : value) : result string :=
  match v with
  | VNone => Ok "null"
  | VNaN => Ok "NaN"
  | VNaT | VTime _ => Raise TypeError
  | VBool true => Ok "true"
  | VBool false => Ok "false"
  | VInt z => Ok (string_of_Z z)
  | VStr s => Ok (json_str s)
  | VList l =>
      bind ((fix go (l : list value) : result string :=
               match l with
               | [] => Ok ""
               | x :: l' =>
                   bind (ref_json_dumps x) (fun a =>
                   match l' with
                   | [] => Ok a
                   | _ :: _ => bind (go l') (fun b => Ok (a ++ ", " ++ b))
                   end)
               end) l)
           (fun body => Ok ("[" ++ body ++ "]"))
  | VDict d =>
      bind ((fix go (d : list (string * value)) : result string :=
               match d with
               | [] => Ok ""
               | (k, x) :: d' =>
                   bind (ref_json_dumps x) (fun a =>
                   match d' with
                   | [] => Ok (json_str k ++ ": " ++ a)
                   | _ :: _ =>
                       bind (go d') (fun b =>
                       Ok (json_str k ++ ": " ++ a ++ ", " ++ b))
                   end)
               end) d)
           (fun body => Ok ("{" ++ body ++ "}"))
  end.

(** Reads year-month-day dates, keeps datetime64 cells, and coerces every
    other cell to NaT. *)
Definition ref_datetime_cell (v : value) : value :=
  match iso_cell v with
  | Some w => w
  | None => if is_datetime v then v else VNaT
  end.

Definition ref_to_datetime_coerce (l : list value) : result (list value) :=
  Ok (map ref_datetime_cell l).

(** A merge sort of the keys paired with their positions. *)
Definition ref_argsort (keys : list Z) : list nat :=
  map snd (KeySort.sort (combine keys (seq 0 (List.length keys)))).

Lemma ref_literal_eval_fragment :
  forall s r, parse_literal s = Some r -> ref_literal_eval_str s = r.
Proof. intros s r H. unfold ref_literal_eval_str. now rewrite H. Qed.

Lemma ref_isna_list_single :
  forall v, is_list v = false -> ref_isna_list [v] = Ok (isna_scalar v).
Proof. intros v H. destruct v; try reflexivity; discriminate. Qed.

Lemma ref_isna_list_many :
  forall v w l,
    existsb (fun x => negb (is_list x)) (v :: w :: l) = true ->
    ref_isna_list (v :: w :: l) = Raise ValueError.
Proof. reflexivity. Qed.

Lemma ref_unescape_plain :
  forall s, has_char "&" s = false -> ref_unescape s = s.
Proof.
  unfold ref_unescape. induction s as [|c s IH]; simpl; intros H.
  - reflexivity.
  - apply orb_false_elim in H. destruct H as [Hc Hs].
    destruct (Ascii.eqb_spec c "&") as [->|_]; [discriminate|].
    now rewrite IH.
Qed.

Lemma ref_datetime_cell_kind : forall v, is_datetime (ref_datetime_cell v) = true.
Proof.
  intros v. unfold ref_datetime_cell, iso_cell.
  destruct (is_missing v); [reflexivity|].
  destruct v; try reflexivity.
  destruct (parse_iso_date s); reflexivity.
Qed.

Lemma ref_to_datetime_length :
  forall l l', ref_to_datetime_coerce l = Ok l' -> List.length l' = List.length l.
Proof.
  intros l l' H. injection H as <-. apply length_map.
Qed.

Lemma ref_to_datetime_kind :
  forall l l', ref_to_datetime_coerce l = Ok l' -> forallb is_datetime l' = true.
Proof.
  intros l l' H. injection H as <-.
  apply forallb_forall. intros w Hw. apply in_map_iff in Hw.
  destruct Hw as [v [<- _]]. apply ref_datetime_cell_kind.
Qed.

Lemma ref_to_datetime_missing :
  forall l l' i v,
    ref_to_datetime_coerce l = Ok l' -> nth_error l i = Some v ->
    is_missing v = true -> nth_error l' i = Some VNaT.
Proof.
  intros l l' i v H Hi Hm. injection H as <-.
  rewrite nth_error_map, Hi. simpl.
  unfold ref_datetime_cell, iso_cell. now rewrite Hm.
Qed.

Lemma ref_to_datetime_iso :
  forall l l',
    mapM (fun v => match iso_cell v with
                   | Some w => Ok w
                   | None => Raise ValueError
                   end) l = Ok l' ->
    ref_to_datetime_coerce l = Ok l'.
Proof.
  unfold ref_to_datetime_coerce.
  induction l as [|v l IH]; simpl; intros l' H.
  - exact H.
  - unfold ref_datetime_cell at 1.
    destruct (iso_cell v) as [w|]; simpl in H; [|discriminate].
    destruct (mapM _ l) as [ws|e] eqn:E; simpl in H; [|discriminate].
    specialize (IH ws eq_refl). injection IH as ->. exact H.
Qed.

Lemma map_snd_combine_seq :
  forall (keys : list Z) (start : nat),
    map snd (combine keys (seq start (List.length keys)))
    = seq start (List.length keys).
Proof.
  induction keys as [|k keys IH]; intros start; simpl; [reflexivity|].
  now rewrite IH.
Qed.

Lemma in_combine_seq_nth :
  forall (keys : list Z) (start : nat) (k : Z) (i : nat),
    In (k, i) (combine keys (seq start (List.length keys))) ->
    (start <= i)%nat /\ nth (i - start) keys 0 = k.
Proof.
  induction keys as [|a keys IH]; intros start k i H; simpl in H; [easy|].
  destruct H as [H|H].
  - injection H as <- <-. split; [lia|]. now rewrite Nat.sub_diag.
  - apply IH in H. destruct H as [Hle Hn]. split; [lia|].
    replace (i - start)%nat with (S (i - S start)) by lia. exact Hn.
Qed.

Lemma ref_argsort_perm :
  forall keys, Permutation (ref_argsort keys) (seq 0 (List.length keys)).
Proof.
  intros keys. unfold ref_argsort.
  rewrite <- (map_snd_combine_seq keys 0) at 2.
  apply Permutation_map, Permutation_sym, KeySort.Permuted_sort.
Qed.

Lemma key_leb_transitive : Transitive (fun x y => is_true (KeyOrder.leb x y)).
Proof.
  intros x y z. unfold is_true, KeyOrder.leb.
  rewrite !Z.leb_le. lia.
Qed.

Lemma strongly_sorted_positions :
  forall (keys : list Z) (l : list (Z * nat)),
    (forall p, In p l -> nth (snd p) keys 0 = fst p) ->
    StronglySorted (fun x y => is_true (KeyOrder.leb x y)) l ->
    StronglySorted (fun i j => nth i keys 0 <= nth j keys 0) (map snd l).
Proof.
  intros keys l Hin Hs. induction Hs as [|p l Hs IH Hall]; simpl.
  - constructor.
  - constructor.
    + apply IH. intros q Hq. apply Hin. now right.
    + rewrite Forall_map. rewrite Forall_forall in Hall |- *.
      intros q Hq. specialize (Hall q Hq).
      unfold is_true, KeyOrder.leb in Hall. apply Z.leb_le in Hall.
      rewrite (Hin p (or_introl eq_refl)), (Hin q (or_intror Hq)). exact Hall.
Qed.

Lemma ref_argsort_sorted :
  forall keys,
    StronglySorted (fun i j => nth i keys 0 <= nth j keys 0) (ref_argsort keys).
Proof.
  intros keys. unfold ref_argsort. apply strongly_sorted_positions.
  - intros [k i] Hp. simpl.
    apply (Permutation_in _ (Permutation_sym (KeySort.Permuted_sort _))) in Hp.
    apply in_combine_seq_nth in Hp. destruct Hp as [_ Hp].
    now rewrite Nat.sub_0_r in Hp.
  - apply KeySort.StronglySorted_sort, key_leb_transitive.
Qed.

#[export] Instance RefLib : Library := {|
  literal_eval_str := ref_literal_eval_str;
  isna_list := ref_isna_list;
  unescape := ref_unescape;
  json_dumps := ref_json_dumps;
  to_datetime_coerce := ref_to_datetime_coerce;
  argsort := ref_argsort;
  literal_eval_fragment := ref_literal_eval_fragment;
  isna_list_single := ref_isna_list_single;
  isna_list_many := ref_isna_list_many;
  unescape_plain := ref_unescape_plain;
  to_datetime_length := ref_to_datetime_length;
  to_datetime_kind := ref_to_datetime_kind;
  to_datetime_missing := ref_to_datetime_missing;
  to_datetime_iso := ref_to_datetime_iso;
  argsort_perm := ref_argsort_perm;
  argsort_sorted := ref_argsort_sorted
|}.

Lemma letter_is_no_digit :
  forall c, is_letter c = true -> is_digit c = false.
Proof.
  intros c. destruct c as [[] [] [] [] [] [] [] []]; cbv; congruence.
Qed.

Lemma undatable_not_iso :
  forall s, undatable s = true -> parse_iso_date s = None.
Proof.
  intros s H. unfold undatable in H.
  apply andb_true_iff in H. destruct H as [H _].
  apply andb_true_iff in H. destruct H as [_ H].
  unfold parse_iso_date.
  destruct (list_ascii_of_string s)
    as [|y1 [|y2 [|y3 [|y4 [|h1 [|m1 [|m2 [|h2 [|d1 [|d2 [|x r]]]]]]]]]]];
    try reflexivity.
  cbn [forallb] in H. apply andb_true_iff in H. destruct H as [H _].
  cbn [forallb]. now rewrite (letter_is_no_digit y1 H).
Qed.

Lemma ref_to_datetime_undatable :
  forall raw parsed i s,
    ref_to_datetime_coerce raw = Ok parsed ->
    nth_error raw i = Some (VStr s) -> undatable s = true ->
    nth_error parsed i = Some VNaT.
Proof.
  intros raw parsed i s H Hi Hu. unfold ref_to_datetime_coerce in H.
  injection H as <-. rewrite nth_error_map, Hi. cbn [option_map]. f_equal.
  unfold ref_datetime_cell, iso_cell. cbn [is_missing is_datetime].
  destruct (String.eqb s ""); [reflexivity|].
  now rewrite (undatable_not_iso s Hu).
Qed.

End Reference.
Export Reference.

Lemma ref_to_datetime_returns :
  forall raw,
    forallb date_text raw = true ->
    exists parsed, @to_datetime_coerce RefLib raw = Ok parsed.
Proof. intros raw _. now exists (map ref_datetime_cell raw). Qed.

#[export] Instance RefDates : DateContract RefLib := {|
  to_datetime_returns := ref_to_datetime_returns;
  to_datetime_undatable := ref_to_datetime_undatable
|}.

Example ref_unescape_entities :
  ref_unescape "Tom &amp; Jerry &lt;b&gt;" = "Tom & Jerry <b>".
Proof. reflexivity. Qed.

Example ref_json_subjects :
  ref_json_dumps (VList [VDict [("n", VInt 1); ("ok", VBool true)]; VNone])
  = Ok ("[{" ++ json_str "n" ++ ": 1, " ++ json_str "ok" ++ ": true}, null]").
Proof. reflexivity. Qed.

Example ref_argsort_run : ref_argsort [30; 10; 20] = [1%nat; 2%nat; 0%nat].
Proof. reflexivity. Qed.

(** ** mapmf_scraper.py: the accumulation loop *)

Module Scraper.

(** What [fetch_alerts] hands back when the request succeeds: the two keys
    the loop reads from the decoded body, each absent or present; [hits],
    when present, is a list of records, and an empty body has neither. *)
Record response : Type := {
  hits : option (list value);
  estimatedTotalHits : option Z
}.

Inductive stop_reason : Type :=
| TargetReached     (* the [while] test fails *)
| FetchFailed       (* "Failed to fetch at offset ..." *)
| NoMoreAlerts      (* "No more alerts found at offset ..." *)
| ReachedEnd.       (* "Reached end of available alerts ..." *)

Section Loop.

(** The remote service: a state and the answer to one page request,
    [None] when the request raises. *)
Variable server : Type.
Variable fetch_alerts : server -> Z -> Z -> option response * server.

Record state : Type := {
  all_alerts : list value;
  offset : Z;
  remote : server
}.

Definition batch_size : Z := 1000.

Inductive outcome : Type :=
| Stop (why : stop_reason) (st : state)
| Continue (st : state).

(** One turn of [while len(all_alerts) < target_count:]. *)
Definition iteration (target_count : Z) (st : state) : outcome :=
  if Z.of_nat (List.length (all_alerts st)) <? target_count then
    let '(result, remote') := fetch_alerts (remote st) (offset st) batch_size in
    let st := {| all_alerts := all_alerts st; offset := offset st;
                 remote := remote' |} in
    match result with
    | None => Stop FetchFailed st
    | Some r =>
        match hits r with
        | None => Stop FetchFailed st
        | Some [] => Stop NoMoreAlerts st
        | Some hs =>
            let st := {| all_alerts := (all_alerts st ++ hs)%list;
                         offset := offset st; remote := remote st |} in
            let estimated_total :=
              match estimatedTotalHits r with Some n => n | None => 0 end in
            if offset st + batch_size >=? estimated_total
            then Stop ReachedEnd st
            else Continue {| all_alerts := all_alerts st;
                             offset := offset st + batch_size;
                             remote := remote st |}
        end
    end
  else Stop TargetReached st.

Fixpoint scrape_loop (fuel : nat) (target_count : Z) (st : state)
  : option (stop_reason * state) :=
  match fuel with
  | O => None
  | S fuel =>
      match iteration target_count st with
      | Stop why st' => Some (why, st')
      | Continue st' => scrape_loop fuel target_count st'
      end
  end.

(** The loop of [scrape_all_alerts], from its initial state. *)
Definition scrape_all_alerts (fuel : nat) (target_count : Z) (w : server)
  : option (stop_reason * state) :=
  scrape_loop fuel target_count {| all_alerts := []; offset := 0; remote := w |}.

(** The four conditions of the termination policy, read at the head of a
    turn: the page is the one the turn would fetch. *)
Definition target_reached (target_count : Z) (st : state) : Prop :=
  target_count <= Z.of_nat (List.length (all_alerts st)).

Definition page (st : state) : option response :=
  fst (fetch_alerts (remote st) (offset st) batch_size).

Definition fetch_failed (st : state) : Prop :=
  page st = None \/ exists r, page st = Some r /\ hits r = None.

Definition page_empty (st : state) : Prop :=
  exists r, page st = Some r /\ hits r = Some [].

Definition end_of_data (st : state) : Prop :=
  exists r, page st = Some r /\
    offset st + batch_size >=
      match estimatedTotalHits r with Some n => n | None => 0 end.

Definition stops (target_count : Z) (st : state) : Prop :=
  exists why st', iteration target_count st = Stop why st'.

(** One of the four conditions holds at the head of a turn. *)
Definition policy (target_count : Z) (st : state) : Prop :=
  target_reached target_count st \/ fetch_failed st
  \/ page_empty st \/ end_of_data st.

(** The condition a reason names; the loop makes the tests in this order,
    so a reason also says that the conditions tested before it fail. *)
Definition reason_holds (why : stop_reason) (target_count : Z) (st : state)
  : Prop :=
  match why with
  | TargetReached => target_reached target_count st
  | FetchFailed => ~ target_reached target_count st /\ fetch_failed st
  | NoMoreAlerts => ~ target_reached target_count st /\ page_empty st
  | ReachedEnd =>
      ~ target_reached target_count st /\ ~ fetch_failed st
      /\ ~ page_empty st /\ end_of_data st
  end.

(** The state at the head of turn [k], counted from 0, when the [k] turns
    before it all went on. *)
Fixpoint head_of_turn (k : nat) (target_count : Z) (st : state)
  : option state :=
  match k with
  | O => Some st
  | S k' =>
      match iteration target_count st with
      | Continue st' => head_of_turn k' target_count st'
      | Stop _ _ => None
      end
  end.

End Loop.

Arguments all_alerts {server} _.
Arguments offset {server} _.
Arguments remote {server} _.
Arguments Stop {server} why st.
Arguments Continue {server} st.
Arguments iteration {server} fetch_alerts target_count st.
Arguments scrape_loop {server} fetch_alerts fuel target_count st.
Arguments scrape_all_alerts {server} fetch_alerts fuel target_count w.
Arguments target_reached {server} target_count st.
Arguments page {server} fetch_alerts st.
Arguments fetch_failed {server} fetch_alerts st.
Arguments page_empty {server} fetch_alerts st.
Arguments end_of_data {server} fetch_alerts st.
Arguments stops {server} fetch_alerts target_count st.
Arguments policy {server} fetch_alerts target_count st.
Arguments reason_holds {server} fetch_alerts why target_count st.
Arguments head_of_turn {server} fetch_alerts k target_count st.

(** Turns the loop can still make before the target is reached. *)
Definition remaining {server} (target_count : Z) (st : state server) : nat :=
  Z.to_nat (target_count - Z.of_nat (List.length (all_alerts st))).

End Scraper.
(** * Properties *)

(** ** Equality of values *)

Section ValueInduction.
Variable P : value -> Prop.
Hypothesis HNone : P VNone.
Hypothesis HNaN : P VNaN.
Hypothesis HNaT : P VNaT.
Hypothesis HBool : forall b, P (VBool b).
Hypothesis HInt : forall z, P (VInt z).
Hypothesis HStr : forall s, P (VStr s).
Hypothesis HTime : forall t, P (VTime t).
Hypothesis HList : forall l, Forall P l -> P (VList l).
Hypothesis HDict : forall d, Forall (fun kv => P (snd kv)) d -> P (VDict d).

Fixpoint value_nested_ind (v : value) : P v :=
  match v with
  | VNone => HNone
  | VNaN => HNaN
  | VNaT => HNaT
  | VBool b => HBool b
  | VInt z => HInt z
  | VStr s => HStr s
  | VTime t => HTime t
  | VList l =>
      HList l ((fix go (l : list value) : Forall P l :=
                  match l with
                  | [] => Forall_nil P
                  | x :: l' => Forall_cons x (value_nested_ind x) (go l')
                  end) l)
  | VDict d =>
      HDict d ((fix go (d : list (string * value))
                  : Forall (fun kv => P (snd kv)) d :=
                  match d with
                  | [] => Forall_nil _
                  | kv :: d' =>
                      Forall_cons kv (value_nested_ind (snd kv)) (go d')
                  end) d)
  end.

End ValueInduction.

Lemma value_eqb_eq : forall x y, value_eqb x y = true <-> x = y.
Proof.
  induction x as [| | |a|a|a|a|l IH|d IH] using value_nested_ind;
    intros y; destruct y as [| | |b|b|b|b|m|e]; cbn [value_eqb];
    try (split; [discriminate|congruence]); try (split; congruence).
  - rewrite Bool.eqb_true_iff. split; congruence.
  - rewrite Z.eqb_eq. split; congruence.
  - rewrite String.eqb_eq. split; congruence.
  - rewrite Z.eqb_eq. split; congruence.
  - revert m. induction IH as [|x l Hx _ IHl]; intros [|b m];
      try (split; [discriminate|congruence]); [split; congruence|].
    rewrite andb_true_iff, Hx, IHl. split.
    + intros [-> H]. congruence.
    + intros H. injection H as -> ->. auto.
  - revert e. induction IH as [|[k x] d Hx _ IHd]; intros [|[k' b] e];
      try (split; [discriminate|congruence]); [split; congruence|].
    rewrite !andb_true_iff, String.eqb_eq. cbn [snd] in Hx. rewrite Hx, IHd. split.
    + intros [[-> ->] H]. congruence.
    + intros H. injection H as -> -> ->. auto.
Qed.

Lemma value_eqb_refl : forall x, value_eqb x x = true.
Proof. intros x. now apply value_eqb_eq. Qed.

Lemma existsb_value_eqb_In :
  forall x l, existsb (value_eqb x) l = true <-> In x l.
Proof.
  intros x l. rewrite existsb_exists. split.
  - intros [y [Hy He]]. apply value_eqb_eq in He. now subst.
  - intros H. exists x. split; [exact H|apply value_eqb_refl].
Qed.

(** ** Columns survive the steps that do not write them *)

Section FrameFacts.

Lemma lookup_assign_same :
  forall c vs cols, lookup c (assign c vs cols) = Some vs.
Proof.
  intros c vs cols. induction cols as [|[c' vs'] r IH]; simpl.
  - now rewrite String.eqb_refl.
  - destruct (String.eqb c c') eqn:E; simpl; rewrite E; [reflexivity|exact IH].
Qed.

Lemma lookup_assign_other :
  forall c d vs cols, c <> d -> lookup c (assign d vs cols) = lookup c cols.
Proof.
  intros c d vs cols Hne. induction cols as [|[c' vs'] r IH]; simpl.
  - apply String.eqb_neq in Hne. now rewrite Hne.
  - destruct (String.eqb d c') eqn:E; simpl.
    + apply String.eqb_eq in E. subst c'.
      apply String.eqb_neq in Hne. now rewrite Hne.
    + now rewrite IH.
Qed.

Lemma lookup_In : forall c cols vs, lookup c cols = Some vs -> In (c, vs) cols.
Proof.
  intros c cols vs. induction cols as [|[c' vs'] r IH]; simpl; [discriminate|].
  destruct (String.eqb_spec c c') as [->|_].
  - intros H. injection H as ->. now left.
  - intros H. right. now apply IH.
Qed.

Lemma lookup_None : forall c cols, lookup c cols = None <-> ~ In c (map fst cols).
Proof.
  intros c cols. induction cols as [|[c' vs'] r IH]; simpl.
  - tauto.
  - destruct (String.eqb_spec c c') as [->|Hne].
    + split; [discriminate|]. intros H. exfalso. apply H. now left.
    + rewrite IH. split; [|tauto]. intros H [E|E]; [congruence|tauto].
Qed.

Lemma mapM_length :
  forall (A B : Type) (f : A -> result B) l l',
    mapM f l = Ok l' -> List.length l' = List.length l.
Proof.
  intros A B f. induction l as [|x l IH]; simpl; intros l' H.
  - now injection H as <-.
  - destruct (f x) as [y|e]; simpl in H; [|discriminate].
    destruct (mapM f l) as [ys|e]; simpl in H; [|discriminate].
    injection H as <-. simpl. now rewrite (IH ys).
Qed.

Lemma mapM_pure :
  forall (f : value -> value) l, mapM (pure f) l = Ok (map f l).
Proof.
  intros f. induction l as [|x l IH]; [reflexivity|].
  cbn [mapM map]. rewrite IH. reflexivity.
Qed.

Lemma mapM_nth_error :
  forall (A B : Type) (f : A -> result B) l l' i x,
    mapM f l = Ok l' -> nth_error l i = Some x ->
    exists y, f x = Ok y /\ nth_error l' i = Some y.
Proof.
  intros A B f. induction l as [|a l IH]; simpl; intros l' i x H Hi.
  - destruct i; discriminate.
  - destruct (f a) as [y|e] eqn:Ea; simpl in H; [|discriminate].
    destruct (mapM f l) as [ys|e]; simpl in H; [|discriminate].
    injection H as <-. destruct i as [|i]; simpl in *.
    + injection Hi as <-. now exists y.
    + now apply (IH ys).
Qed.

(** [df'] has the rows of [df] and the same column [c]. *)
Definition keeps (c : string) (df df' : DataFrame) : Prop :=
  index df' = index df /\ lookup c (columns df') = lookup c (columns df).

(** [df'] is as well formed as [df], over the same rows. *)
Definition keeps_shape (df df' : DataFrame) : Prop :=
  index df' = index df /\ (well_formed df -> well_formed df').

Definition preserves (c : string) (k : DataFrame -> result DataFrame) : Prop :=
  forall df df', k df = Ok df' -> keeps c df df'.

Definition shape_preserving (k : DataFrame -> result DataFrame) : Prop :=
  forall df df', k df = Ok df' -> keeps_shape df df'.

Lemma keeps_refl : forall c df, keeps c df df.
Proof. now split. Qed.

Lemma keeps_trans :
  forall c df1 df2 df3, keeps c df1 df2 -> keeps c df2 df3 -> keeps c df1 df3.
Proof. intros c df1 df2 df3 [A B] [C D]. split; congruence. Qed.

Lemma keeps_shape_refl : forall df, keeps_shape df df.
Proof. now split. Qed.

Lemma keeps_shape_trans :
  forall df1 df2 df3,
    keeps_shape df1 df2 -> keeps_shape df2 df3 -> keeps_shape df1 df3.
Proof. intros df1 df2 df3 [A B] [C D]. split; [congruence|auto]. Qed.

Lemma keeps_set_col :
  forall c d vs df, c <> d -> keeps c df (set_col d vs df).
Proof.
  intros c d vs df Hne. split; [reflexivity|].
  now apply lookup_assign_other.
Qed.

Lemma well_formed_assign :
  forall n d vs cols,
    List.length vs = n ->
    Forall (fun cv => List.length (snd cv) = n) cols ->
    Forall (fun cv : string * column => List.length (snd cv) = n) (assign d vs cols).
Proof.
  intros n d vs cols Hvs H. induction H as [|[c' vs'] r Hc Hr IH]; simpl.
  - now constructor.
  - destruct (String.eqb d c'); constructor; auto.
Qed.

Lemma keeps_shape_set_col :
  forall d vs df,
    (well_formed df -> List.length vs = nrows df) ->
    keeps_shape df (set_col d vs df).
Proof.
  intros d vs df Hvs. split; [reflexivity|].
  intros Hwf. unfold well_formed, set_col, nrows in *. simpl.
  apply well_formed_assign; auto.
Qed.

Lemma well_formed_lookup :
  forall df c vs,
    well_formed df -> lookup c (columns df) = Some vs ->
    List.length vs = nrows df.
Proof.
  intros df c vs Hwf H. apply lookup_In in H.
  unfold well_formed in Hwf. rewrite Forall_forall in Hwf.
  exact (Hwf _ H).
Qed.

Section WithLibrary.
Context {L : Library}.

Lemma preserves_apply_col :
  forall c f src dst, c <> dst -> preserves c (apply_col f src dst).
Proof.
  intros c f src dst Hne df df'. unfold apply_col, get_col.
  destruct (lookup src (columns df)) as [vs|]; simpl; [|discriminate].
  destruct (mapM f vs) as [ws|e]; simpl; [|discriminate].
  intros H. injection H as <-. now apply keeps_set_col.
Qed.

Lemma shape_apply_col :
  forall f src dst, shape_preserving (apply_col f src dst).
Proof.
  intros f src dst df df'. unfold apply_col, get_col.
  destruct (lookup src (columns df)) as [vs|] eqn:E; simpl; [|discriminate].
  destruct (mapM f vs) as [ws|e] eqn:M; simpl; [|discriminate].
  intros H. injection H as <-. apply keeps_shape_set_col.
  intros Hwf. rewrite (mapM_length _ _ _ _ _ M).
  eapply well_formed_lookup; eauto.
Qed.

Lemma preserves_when_col :
  forall c col k, preserves c k -> preserves c (when_col col k).
Proof.
  intros c col k Hk df df'. unfold when_col.
  destruct (has_col col df); [apply Hk|].
  intros H. injection H as <-. apply keeps_refl.
Qed.

Lemma shape_when_col :
  forall col k, shape_preserving k -> shape_preserving (when_col col k).
Proof.
  intros col k Hk df df'. unfold when_col.
  destruct (has_col col df); [apply Hk|].
  intros H. injection H as <-. apply keeps_shape_refl.
Qed.

Lemma preserves_bind :
  forall c k1 k2,
    preserves c k1 -> preserves c k2 ->
    preserves c (fun df => bind (k1 df) k2).
Proof.
  intros c k1 k2 H1 H2 df df'.
  destruct (k1 df) as [df1|e] eqn:E; simpl; [|discriminate].
  intros H. eapply keeps_trans; [apply (H1 _ _ E)|apply (H2 _ _ H)].
Qed.

Lemma shape_bind :
  forall k1 k2,
    shape_preserving k1 -> shape_preserving k2 ->
    shape_preserving (fun df => bind (k1 df) k2).
Proof.
  intros k1 k2 H1 H2 df df'.
  destruct (k1 df) as [df1|e] eqn:E; simpl; [|discriminate].
  intros H. eapply keeps_shape_trans; [apply (H1 _ _ E)|apply (H2 _ _ H)].
Qed.

Lemma preserves_foldM :
  forall c (k : string -> DataFrame -> result DataFrame) cols,
    Forall (fun col => preserves c (k col)) cols ->
    preserves c (foldM (fun df col => k col df) cols).
Proof.
  intros c k cols H. induction H as [|col cols Hc _ IH]; simpl.
  - intros df df' E. injection E as <-. apply keeps_refl.
  - apply (preserves_bind c (k col) _ Hc IH).
Qed.

Lemma shape_foldM :
  forall (k : string -> DataFrame -> result DataFrame) cols,
    (forall col, shape_preserving (k col)) ->
    shape_preserving (foldM (fun df col => k col df) cols).
Proof.
  intros k cols H. induction cols as [|col cols IH]; simpl.
  - intros df df' E. injection E as <-. apply keeps_shape_refl.
  - apply (shape_bind (k col) _ (H col) IH).
Qed.

End WithLibrary.
End FrameFacts.

(** ** The steps of the pipeline, column by column *)

Section StepFacts.
Context {L : Library}.

Ltac preserve :=
  repeat first
    [ apply preserves_when_col
    | apply preserves_apply_col; discriminate
    | apply preserves_foldM; repeat constructor
    | apply preserves_bind ].

Ltac shape :=
  repeat first
    [ apply shape_when_col
    | apply shape_apply_col
    | apply shape_foldM; intros ?
    | apply shape_bind ].

Lemma parse_lists_preserves :
  forall c, ~ In c ("subjects" :: list_columns) -> preserves c parse_lists.
Proof.
  intros c Hc. unfold parse_lists. apply preserves_bind.
  - apply preserves_foldM.
    unfold list_columns in *. 
    repeat (constructor;
            [apply preserves_when_col, preserves_apply_col;
             intros ->; apply Hc; simpl; tauto|]).
    constructor.
  - apply preserves_when_col, preserves_apply_col.
    intros ->; apply Hc; simpl; tauto.
Qed.

Lemma parse_lists_shape : shape_preserving parse_lists.
Proof. unfold parse_lists. shape. Qed.

Lemma clean_texts_preserves :
  forall c, ~ In c text_columns -> preserves c clean_texts.
Proof.
  intros c Hc. unfold clean_texts. apply preserves_foldM.
  unfold text_columns in *.
  repeat (constructor;
          [apply preserves_when_col, preserves_apply_col;
           intros ->; apply Hc; simpl; tauto|]).
  constructor.
Qed.

Lemma clean_texts_shape : shape_preserving clean_texts.
Proof. unfold clean_texts. shape. Qed.

Definition derived_columns : list string :=
  ["primary_incident_type"; "incident_type_count"; "primary_source";
   "region_level_1"; "region_level_2"; "primary_gender"; "gender_male_count";
   "gender_female_count"; "gender_other_count"; "subjects_count";
   "journalist_types"; "primary_victim_type"].

Lemma derive_columns_preserves :
  forall c, ~ In c derived_columns -> preserves c derive_columns.
Proof.
  intros c Hc. unfold derive_columns, derived_columns in *.
  repeat first
    [ apply preserves_when_col
    | apply preserves_apply_col; intros ->; apply Hc; simpl; tauto
    | apply preserves_bind ].
Qed.

Lemma derive_columns_shape : shape_preserving derive_columns.
Proof. unfold derive_columns. shape. Qed.

Lemma parse_dates_preserves :
  forall c, ~ In c ["date"; "month"; "day_of_week"] -> preserves c parse_dates.
Proof.
  intros c Hc. unfold parse_dates. apply preserves_when_col.
  intros df df'. unfold get_col.
  destruct (lookup "date" (columns df)) as [raw|]; simpl; [|discriminate].
  destruct (to_datetime_coerce raw) as [dates|e]; simpl; [|discriminate].
  rewrite lookup_assign_same. simpl.
  intros H. injection H as <-.
  eapply keeps_trans; [|apply keeps_set_col; intros ->; apply Hc; simpl; tauto].
  eapply keeps_trans; [|apply keeps_set_col; intros ->; apply Hc; simpl; tauto].
  apply keeps_set_col; intros ->; apply Hc; simpl; tauto.
Qed.

Lemma parse_dates_shape : shape_preserving parse_dates.
Proof.
  unfold parse_dates. apply shape_when_col.
  intros df df'. unfold get_col.
  destruct (lookup "date" (columns df)) as [raw|] eqn:E; simpl; [|discriminate].
  destruct (to_datetime_coerce raw) as [dates|e] eqn:D; simpl; [|discriminate].
  rewrite lookup_assign_same. simpl.
  intros H. injection H as <-.
  split; [reflexivity|]. intros Hwf.
  assert (Hlen : List.length dates = nrows df).
  { rewrite (to_datetime_length _ _ D). eapply well_formed_lookup; eauto. }
  unfold well_formed, nrows in *. simpl.
  repeat apply well_formed_assign; rewrite ?length_map; auto.
Qed.

Lemma content_length_preserves :
  forall c, c <> "content_length" -> preserves c content_length.
Proof.
  intros c Hc. unfold content_length.
  apply preserves_when_col, preserves_apply_col, Hc.
Qed.

Lemma content_length_shape : shape_preserving content_length.
Proof. unfold content_length. shape. Qed.

Lemma fill_missing_preserves :
  forall c, ~ In c ["country"; "title"; "content"] -> preserves c fill_missing.
Proof.
  intros c Hc. unfold fill_missing.
  repeat first
    [ apply preserves_apply_col; intros ->; apply Hc; simpl; tauto
    | apply preserves_bind ].
Qed.

Lemma fill_missing_shape : shape_preserving fill_missing.
Proof. unfold fill_missing. shape. Qed.

Lemma encode_lists_preserves :
  forall c,
    ~ In c ("journalist_types" :: "subjects" :: list_columns) ->
    preserves c encode_lists.
Proof.
  intros c Hc. unfold encode_lists. apply preserves_bind.
  - apply preserves_foldM.
    unfold list_columns in *.
    repeat (constructor;
            [apply preserves_when_col, preserves_apply_col;
             intros ->; apply Hc; simpl; tauto|]).
    constructor.
  - apply preserves_bind;
      apply preserves_when_col, preserves_apply_col;
      intros ->; apply Hc; simpl; tauto.
Qed.

Lemma encode_lists_shape : shape_preserving encode_lists.
Proof. unfold encode_lists. shape. Qed.

(** Reordering moves columns and loses none. *)
Lemma lookup_select_columns :
  forall c names cols,
    lookup c (flat_map (fun n => match lookup n cols with
                                 | Some vs => [(n, vs)]
                                 | None => []
                                 end) names)
    = if existsb (String.eqb c) names then lookup c cols else None.
Proof.
  intros c names cols. induction names as [|n names IH]; simpl; [reflexivity|].
  destruct (String.eqb_spec c n) as [->|Hne]; simpl.
  - destruct (lookup n cols) as [vs|] eqn:E; simpl.
    + now rewrite String.eqb_refl.
    + rewrite IH. now destruct (existsb _ names).
  - destruct (lookup n cols) as [vs|]; simpl; [|exact IH].
    apply String.eqb_neq in Hne. now rewrite Hne.
Qed.

Lemma lookup_reorder_columns :
  forall c df,
    lookup c (columns (reorder_columns df)) = lookup c (columns df).
Proof.
  intros c df. unfold reorder_columns, select_columns. cbn [columns].
  rewrite lookup_select_columns.
  destruct (lookup c (columns df)) as [vs|] eqn:E.
  - match goal with |- (if ?b then _ else _) = _ => assert (Hb : b = true) end;
      [|now rewrite Hb].
    rewrite existsb_app. apply orb_true_iff.
    set (final := filter (fun col => has_col col df) preferred_order).
    destruct (existsb (String.eqb c) final) eqn:F; [now left|right].
    apply existsb_exists. exists c. split; [|apply String.eqb_refl].
    apply filter_In. split; [|now rewrite F].
    apply lookup_In in E. apply in_map_iff. now exists (c, vs).
  - match goal with |- (if ?b then _ else _) = _ => destruct b end; reflexivity.
Qed.

Lemma reorder_columns_shape :
  forall df, keeps_shape df (reorder_columns df).
Proof.
  intros df. split; [reflexivity|]. intros Hwf.
  unfold well_formed, reorder_columns, select_columns, nrows in *.
  cbn [columns index] in *.
  rewrite Forall_forall in *. intros [c vs] H.
  apply in_flat_map in H. destruct H as [n [_ H]].
  destruct (lookup n (columns df)) as [ws|] eqn:E; [|contradiction].
  destruct H as [H|[]]. injection H as <- <-.
  apply lookup_In in E. exact (Hwf _ E).
Qed.

(** The columns the first eight steps write. *)
Definition written_columns : list string :=
  ("subjects" :: list_columns ++ text_columns ++ derived_columns
   ++ ["date"; "month"; "day_of_week"; "content_length"; "country"])%list.

Lemma incl_by_eqb :
  forall l W : list string,
    forallb (fun x => existsb (String.eqb x) W) l = true -> incl l W.
Proof.
  intros l W H x Hx. rewrite forallb_forall in H. specialize (H x Hx).
  apply existsb_exists in H. destruct H as [y [Hy E]].
  apply String.eqb_eq in E. now subst.
Qed.

Lemma transform_preserves :
  forall c, ~ In c written_columns -> preserves c transform.
Proof.
  intros c Hc. unfold transform.
  assert (Hsub : forall l,
             forallb (fun x => existsb (String.eqb x) written_columns) l = true ->
             ~ In c l).
  { intros l Hl H. apply Hc. exact (incl_by_eqb _ _ Hl c H). }
  apply (preserves_bind c parse_lists).
  { apply parse_lists_preserves, Hsub. reflexivity. }
  apply (preserves_bind c clean_texts).
  { apply clean_texts_preserves, Hsub. reflexivity. }
  apply (preserves_bind c derive_columns).
  { apply derive_columns_preserves, Hsub. reflexivity. }
  apply (preserves_bind c parse_dates).
  { apply parse_dates_preserves, Hsub. reflexivity. }
  apply (preserves_bind c content_length).
  { apply content_length_preserves. intros ->.
    apply (Hsub ["content_length"]); [reflexivity|now left]. }
  apply (preserves_bind c fill_missing).
  { apply fill_missing_preserves, Hsub. reflexivity. }
  apply (preserves_bind c encode_lists).
  { apply encode_lists_preserves, Hsub. reflexivity. }
  intros df df' H. injection H as <-. split; [reflexivity|].
  apply lookup_reorder_columns.
Qed.

Lemma transform_shape : shape_preserving transform.
Proof.
  unfold transform.
  apply (shape_bind parse_lists); [apply parse_lists_shape|].
  apply (shape_bind clean_texts); [apply clean_texts_shape|].
  apply (shape_bind derive_columns); [apply derive_columns_shape|].
  apply (shape_bind parse_dates); [apply parse_dates_shape|].
  apply (shape_bind content_length); [apply content_length_shape|].
  apply (shape_bind fill_missing); [apply fill_missing_shape|].
  apply (shape_bind encode_lists); [apply encode_lists_shape|].
  intros df df' H. injection H as <-. apply reorder_columns_shape.
Qed.

Lemma transform_keeps_id :
  forall df df', transform df = Ok df' -> keeps "id" df df'.
Proof.
  apply transform_preserves. unfold written_columns. simpl.
  intros H. repeat (destruct H as [H|H]; [discriminate|]). exact H.
Qed.

End StepFacts.

(** ** Rows picked by position *)

Section TakeFacts.

Lemma nrows_take_rows : forall idx df, nrows (take_rows idx df) = List.length idx.
Proof. intros idx df. unfold nrows, take_rows. cbn [index]. apply length_map. Qed.

Lemma lookup_map_columns :
  forall (f : column -> column) c cols,
    lookup c (map (fun '(c, vs) => (c, f vs)) cols)
    = option_map f (lookup c cols).
Proof.
  intros f c cols. induction cols as [|[c' vs] r IH]; simpl; [reflexivity|].
  destruct (String.eqb c c'); [reflexivity|exact IH].
Qed.

Lemma get_col_take_rows :
  forall c idx df vs,
    get_col c df = Ok vs ->
    get_col c (take_rows idx df) = Ok (map (fun i => nth i vs VNaN) idx).
Proof.
  intros c idx df vs. unfold get_col, take_rows. cbn [columns].
  rewrite lookup_map_columns.
  destruct (lookup c (columns df)); [|discriminate].
  intros H. now injection H as ->.
Qed.

Lemma get_col_take_rows_inv :
  forall c idx df ws,
    get_col c (take_rows idx df) = Ok ws ->
    exists vs, get_col c df = Ok vs /\ ws = map (fun i => nth i vs VNaN) idx.
Proof.
  intros c idx df ws. unfold get_col, take_rows. cbn [columns].
  rewrite lookup_map_columns.
  destruct (lookup c (columns df)) as [vs|]; [|discriminate].
  intros H. injection H as <-. now exists vs.
Qed.

Lemma nth_map_in_range :
  forall (A B : Type) (f : A -> B) l p d e,
    (p < List.length l)%nat -> nth p (map f l) e = f (nth p l d).
Proof.
  intros A B f l p d e Hp.
  rewrite (nth_indep _ e (f d)) by now rewrite length_map.
  apply map_nth.
Qed.

Lemma row_take_rows :
  forall idx df p,
    (p < List.length idx)%nat ->
    row (take_rows idx df) p = row df (nth p idx O).
Proof.
  intros idx df p Hp. unfold row, take_rows. cbn [index columns]. f_equal.
  - now apply (nth_map_in_range _ _ (fun i => nth i (index df) O)).
  - rewrite map_map. apply map_ext. intros [c vs].
    f_equal. now apply (nth_map_in_range _ _ (fun i => nth i vs VNaN)).
Qed.

Lemma map_nth_seq :
  forall (A : Type) (l : list A) d,
    map (fun i => nth i l d) (seq 0 (List.length l)) = l.
Proof.
  intros A l d. induction l as [|x l IH]; [reflexivity|].
  cbn [List.length seq map nth]. f_equal.
  rewrite <- seq_shift, map_map. exact IH.
Qed.

Lemma rows_take_rows :
  forall idx df, rows (take_rows idx df) = map (row df) idx.
Proof.
  intros idx df. unfold rows. rewrite nrows_take_rows.
  transitivity (map (row df) (map (fun i => nth i idx O)
                                  (seq 0 (List.length idx))));
    [|now rewrite map_nth_seq].
  rewrite map_map. apply map_ext_in. intros p Hp. apply in_seq in Hp.
  apply row_take_rows. lia.
Qed.

Lemma well_formed_take_rows : forall idx df, well_formed (take_rows idx df).
Proof.
  intros idx df. unfold well_formed. rewrite nrows_take_rows.
  unfold take_rows. cbn [columns]. apply Forall_forall.
  intros [c ws] H. apply in_map_iff in H. destruct H as [[c' vs] [E _]].
  injection E as <- <-. cbn [snd]. apply length_map.
Qed.

(** Reading a list through a permutation of its positions permutes it. *)
Lemma Permutation_map_nth :
  forall (A : Type) (l : list A) d p,
    Permutation p (seq 0 (List.length l)) ->
    Permutation (map (fun i => nth i l d) p) l.
Proof.
  intros A l d p Hp.
  eapply Permutation_trans; [apply Permutation_map, Hp|].
  now rewrite map_nth_seq.
Qed.

End TakeFacts.

(** ** First occurrences *)

Section DuplicateFacts.

Definition distinct_keys (keys : list value) : list value :=
  map (fun i => nth i keys VNaN) (first_occurrences keys).

Lemma first_occurrences_snoc :
  forall keys x,
    first_occurrences (keys ++ [x])
    = (first_occurrences keys
       ++ (if existsb (value_eqb x) keys then [] else [List.length keys]))%list.
Proof.
  intros keys x. unfold first_occurrences.
  rewrite length_app. cbn [List.length].
  replace (List.length keys + 1)%nat with (S (List.length keys)) by lia.
  rewrite seq_S, filter_app. cbn [Nat.add filter]. f_equal.
  - apply filter_ext_in. intros i Hi. apply in_seq in Hi.
    rewrite app_nth1 by lia.
    rewrite firstn_app. replace (i - List.length keys)%nat with O by lia.
    cbn [firstn]. now rewrite app_nil_r.
  - rewrite nth_middle, firstn_app, firstn_all, Nat.sub_diag. cbn [firstn].
    rewrite app_nil_r. now destruct (existsb (value_eqb x) keys).
Qed.

Lemma first_occurrences_bound :
  forall keys i, In i (first_occurrences keys) -> (i < List.length keys)%nat.
Proof.
  intros keys i H. apply filter_In in H. destruct H as [H _].
  apply in_seq in H. lia.
Qed.

(** A position is kept exactly when no earlier row has its key. *)
Lemma first_occurrences_spec :
  forall keys i,
    In i (first_occurrences keys) <->
    (i < List.length keys)%nat /\
    forall j, (j < i)%nat -> nth j keys VNaN <> nth i keys VNaN.
Proof.
  intros keys i. unfold first_occurrences. rewrite filter_In, in_seq.
  rewrite negb_true_iff. split.
  - intros [Hi He]. split; [lia|]. intros j Hj Heq.
    assert (Hex : existsb (value_eqb (nth i keys VNaN)) (firstn i keys) = true).
    { apply existsb_value_eqb_In. rewrite <- Heq.
      rewrite <- (firstn_skipn i keys) at 1.
      rewrite app_nth1 by (rewrite length_firstn; lia).
      apply nth_In. rewrite length_firstn. lia. }
    congruence.
  - intros [Hi Hfirst]. split; [lia|].
    destruct (existsb _ _) eqn:E; [|reflexivity]. exfalso.
    apply existsb_value_eqb_In in E.
    apply (In_nth _ _ VNaN) in E. destruct E as [j [Hj Hn]].
    rewrite length_firstn in Hj.
    apply (Hfirst j); [lia|].
    rewrite <- Hn. rewrite <- (firstn_skipn i keys) at 1.
    rewrite app_nth1 by (rewrite length_firstn; lia). reflexivity.
Qed.

Lemma distinct_keys_snoc :
  forall keys x,
    distinct_keys (keys ++ [x])
    = (distinct_keys keys
       ++ (if existsb (value_eqb x) keys then [] else [x]))%list.
Proof.
  intros keys x. unfold distinct_keys.
  rewrite first_occurrences_snoc, map_app. f_equal.
  - apply map_ext_in. intros i Hi. apply first_occurrences_bound in Hi.
    now rewrite app_nth1.
  - destruct (existsb (value_eqb x) keys); [reflexivity|].
    cbn [map]. now rewrite nth_middle.
Qed.

Lemma distinct_keys_In :
  forall keys v, In v (distinct_keys keys) <-> In v keys.
Proof.
  induction keys as [|x keys IH] using rev_ind; intros v.
  - reflexivity.
  - rewrite distinct_keys_snoc, !in_app_iff, IH.
    destruct (existsb (value_eqb x) keys) eqn:E; simpl.
    + apply existsb_value_eqb_In in E. split; [tauto|].
      intros [H|[H|[]]]; [tauto|subst; tauto].
    + tauto.
Qed.

Lemma distinct_keys_NoDup : forall keys, NoDup (distinct_keys keys).
Proof.
  induction keys as [|x keys IH] using rev_ind.
  - constructor.
  - rewrite distinct_keys_snoc.
    destruct (existsb (value_eqb x) keys) eqn:E.
    + now rewrite app_nil_r.
    + apply NoDup_app; [exact IH|repeat constructor; intros []|].
      intros v Hv [Hx|[]]. subst v.
      apply (proj1 (distinct_keys_In _ _)) in Hv.
      apply (proj2 (existsb_value_eqb_In _ _)) in Hv. congruence.
Qed.

Lemma first_occurrences_NoDup_keys :
  forall keys, NoDup keys -> first_occurrences keys = seq 0 (List.length keys).
Proof.
  induction keys as [|x keys IH] using rev_ind; intros Hnd.
  - reflexivity.
  - rewrite first_occurrences_snoc.
    apply NoDup_remove in Hnd. rewrite app_nil_r in Hnd.
    destruct Hnd as [Hnd Hx]. rewrite (IH Hnd).
    destruct (existsb (value_eqb x) keys) eqn:E.
    + apply existsb_value_eqb_In in E. contradiction.
    + rewrite length_app. cbn [List.length].
      replace (List.length keys + 1)%nat with (S (List.length keys)) by lia.
      now rewrite seq_S.
Qed.

Lemma first_occurrences_length :
  forall keys, (List.length (first_occurrences keys) <= List.length keys)%nat.
Proof.
  intros keys. unfold first_occurrences.
  eapply Nat.le_trans; [apply filter_length_le|]. now rewrite length_seq.
Qed.

End DuplicateFacts.

(** ** The descending sort *)

Section SortFacts.
Context {L : Library}.

Definition key_at (keys : list value) (i : nat) : Z :=
  time_key (nth i keys VNaN).

Lemma StronglySorted_map_in :
  forall (A B : Type) (R : A -> A -> Prop) (R' : B -> B -> Prop) (f : A -> B) l,
    (forall x y, In x l -> In y l -> R x y -> R' (f x) (f y)) ->
    StronglySorted R l -> StronglySorted R' (map f l).
Proof.
  intros A B R R' f l Hf Hs. induction Hs as [|a l Hs IH Hall]; simpl.
  - constructor.
  - constructor.
    + apply IH. intros x y Hx Hy. apply Hf; now right.
    + rewrite Forall_map. rewrite Forall_forall in Hall |- *.
      intros y Hy. apply Hf; [now left|now right|now apply Hall].
Qed.

Lemma StronglySorted_snoc :
  forall (A : Type) (R : A -> A -> Prop) l a,
    StronglySorted R l -> Forall (fun x => R x a) l ->
    StronglySorted R (l ++ [a]).
Proof.
  intros A R l a Hs. induction Hs as [|b l Hs IH Hall]; intros Ha; simpl.
  - repeat constructor.
  - inversion Ha as [|? ? Hb Hl]; subst. constructor.
    + now apply IH.
    + apply Forall_app. split; [exact Hall|now constructor].
Qed.

Lemma StronglySorted_rev :
  forall (A : Type) (R : A -> A -> Prop) l,
    StronglySorted R l -> StronglySorted (fun x y => R y x) (rev l).
Proof.
  intros A R l Hs. induction Hs as [|a l Hs IH Hall]; simpl.
  - constructor.
  - apply StronglySorted_snoc; [exact IH|].
    apply Forall_rev. exact Hall.
Qed.

Lemma StronglySorted_nth :
  forall (A : Type) (R : A -> A -> Prop) l d i j,
    StronglySorted R l -> (i < j)%nat -> (j < List.length l)%nat ->
    R (nth i l d) (nth j l d).
Proof.
  intros A R l d i j Hs. revert i j.
  induction Hs as [|a l Hs IH Hall]; intros i j Hij Hj; simpl in Hj; [lia|].
  destruct j as [|j]; [lia|]. destruct i as [|i]; simpl.
  - rewrite Forall_forall in Hall. apply Hall, nth_In. lia.
  - apply IH; lia.
Qed.

(** The indexer is the dated positions, latest first, then the null
    positions as they stood. *)
Lemma sort_indexer_split :
  forall keys,
    exists front,
      sort_indexer keys = (front ++ null_positions keys)%list
      /\ Permutation front (dated_positions keys)
      /\ StronglySorted (fun i j => key_at keys j <= key_at keys i) front.
Proof.
  intros keys. unfold sort_indexer.
  set (P := dated_positions keys).
  set (rn := rev (map (fun i => time_key (nth i keys VNaN)) P)).
  set (ri := rev P).
  set (a := argsort rn).
  assert (Hlen : List.length rn = List.length ri).
  { unfold rn, ri. now rewrite !length_rev, length_map. }
  assert (Hperm : Permutation a (seq 0 (List.length ri))).
  { rewrite <- Hlen. apply argsort_perm. }
  exists (rev (map (fun j => nth j ri O) a)). split; [reflexivity|]. split.
  - eapply Permutation_trans; [apply Permutation_sym, Permutation_rev|].
    eapply Permutation_trans; [apply Permutation_map_nth, Hperm|].
    apply Permutation_sym, Permutation_rev.
  - apply (StronglySorted_rev _ (fun i j => key_at keys i <= key_at keys j)).
    apply (StronglySorted_map_in _ _ (fun i j => nth i rn 0 <= nth j rn 0));
      [|apply argsort_sorted].
    assert (Hkey : forall j, In j a -> nth j rn 0 = key_at keys (nth j ri O)).
    { intros j Hj. apply (Permutation_in _ Hperm) in Hj. apply in_seq in Hj.
      unfold rn. rewrite <- map_rev. fold ri.
      apply (nth_map_in_range _ _ (fun i => time_key (nth i keys VNaN))). lia. }
    intros x y Hx Hy. now rewrite (Hkey x Hx), (Hkey y Hy).
Qed.

Lemma sort_indexer_perm :
  forall keys, Permutation (sort_indexer keys) (seq 0 (List.length keys)).
Proof.
  intros keys. destruct (sort_indexer_split keys) as [front [-> [Hp _]]].
  eapply Permutation_trans; [apply Permutation_app_tail, Hp|].
  unfold dated_positions, null_positions.
  generalize (seq 0 (List.length keys)). intros l.
  induction l as [|i l IH]; simpl; [constructor|].
  destruct (isna_scalar (nth i keys VNaN)); simpl.
  - eapply Permutation_trans; [apply Permutation_sym, Permutation_middle|].
    now constructor.
  - now constructor.
Qed.

Lemma dated_positions_spec :
  forall keys i,
    In i (dated_positions keys) ->
    (i < List.length keys)%nat /\ isna_scalar (nth i keys VNaN) = false.
Proof.
  intros keys i H. apply filter_In in H. destruct H as [H E].
  apply in_seq in H. apply negb_true_iff in E. split; [lia|exact E].
Qed.

Lemma null_positions_spec :
  forall keys i,
    In i (null_positions keys) <->
    (i < List.length keys)%nat /\ isna_scalar (nth i keys VNaN) = true.
Proof.
  intros keys i. unfold null_positions. rewrite filter_In, in_seq.
  split; intros [H E]; (split; [lia|exact E]).
Qed.

Lemma null_positions_ascending :
  forall keys, StronglySorted lt (null_positions keys).
Proof.
  intros keys. unfold null_positions.
  generalize 0%nat. generalize (List.length keys).
  induction n as [|n IH]; intros start; simpl; [constructor|].
  assert (Hall : Forall (lt start)
                   (filter (fun i => isna_scalar (nth i keys VNaN))
                           (seq (S start) n))).
  { apply Forall_forall. intros j Hj. apply filter_In in Hj.
    destruct Hj as [Hj _]. apply in_seq in Hj. lia. }
  destruct (isna_scalar (nth start keys VNaN)); [constructor; auto|apply IH].
Qed.

End SortFacts.

(** ** What a step writes *)

Section DerivationFacts.
Context {L : Library}.

(** After [k], column [dst] holds [f] applied down column [src] as it was
    before [k]. *)
Definition establishes (src dst : string) (f : value -> result value)
    (k : DataFrame -> result DataFrame) : Prop :=
  forall df df' vs,
    k df = Ok df' -> get_col src df = Ok vs ->
    exists ws, mapM f vs = Ok ws /\ get_col dst df' = Ok ws.

Lemma bind_Ok :
  forall (A B : Type) (m : result A) (k : A -> result B) y,
    bind m k = Ok y -> exists x, m = Ok x /\ k x = Ok y.
Proof.
  intros A B m k y H. destruct m as [x|e]; [|discriminate]. now exists x.
Qed.

Lemma keeps_get_col :
  forall c df df' vs, keeps c df df' -> get_col c df = Ok vs -> get_col c df' = Ok vs.
Proof.
  intros c df df' vs [_ H]. unfold get_col. now rewrite H.
Qed.

Lemma get_col_has_col :
  forall c df vs, get_col c df = Ok vs -> has_col c df = true.
Proof.
  intros c df vs. unfold get_col, has_col.
  destruct (lookup c (columns df)); [reflexivity|discriminate].
Qed.

Lemma establishes_apply_col :
  forall f src dst, establishes src dst f (apply_col f src dst).
Proof.
  intros f src dst df df' vs. unfold apply_col.
  intros H Hsrc. rewrite Hsrc in H. cbn [bind] in H.
  destruct (mapM f vs) as [ws|e]; [|discriminate]. cbn [bind] in H.
  injection H as <-. exists ws. split; [reflexivity|].
  unfold get_col, set_col. cbn [columns]. now rewrite lookup_assign_same.
Qed.

Lemma establishes_when_col :
  forall f src dst k, establishes src dst f k -> establishes src dst f (when_col src k).
Proof.
  intros f src dst k Hk df df' vs H Hsrc. unfold when_col in H.
  rewrite (get_col_has_col _ _ _ Hsrc) in H. exact (Hk _ _ _ H Hsrc).
Qed.

Lemma establishes_then :
  forall f src dst k1 k2,
    establishes src dst f k1 -> preserves dst k2 ->
    establishes src dst f (fun df => bind (k1 df) k2).
Proof.
  intros f src dst k1 k2 H1 H2 df df' vs H Hsrc.
  apply bind_Ok in H. destruct H as [df1 [E1 E2]].
  destruct (H1 _ _ _ E1 Hsrc) as [ws [Hm Hd]].
  exists ws. split; [exact Hm|].
  exact (keeps_get_col _ _ _ _ (H2 _ _ E2) Hd).
Qed.

Lemma establishes_after :
  forall f src dst k1 k2,
    preserves src k1 -> establishes src dst f k2 ->
    establishes src dst f (fun df => bind (k1 df) k2).
Proof.
  intros f src dst k1 k2 H1 H2 df df' vs H Hsrc.
  apply bind_Ok in H. destruct H as [df1 [E1 E2]].
  exact (H2 _ _ _ E2 (keeps_get_col _ _ _ _ (H1 _ _ E1) Hsrc)).
Qed.

Ltac other_column := apply preserves_when_col; repeat first
    [ apply preserves_apply_col; discriminate | apply preserves_bind ].

Lemma parse_lists_establishes :
  forall c, In c list_columns -> establishes c c parse_list_column parse_lists.
Proof.
  intros c Hc. unfold parse_lists.
  assert (Hsub : preserves c
            (when_col "subjects"
               (apply_col parse_subjects_column "subjects" "subjects"))).
  { apply preserves_when_col, preserves_apply_col.
    intros ->. unfold list_columns in Hc. simpl in Hc.
    repeat (destruct Hc as [Hc|Hc]; [discriminate|]). exact Hc. }
  apply establishes_then; [|exact Hsub]. clear Hsub.
  unfold list_columns in *. cbn [foldM].
  simpl in Hc.
  repeat (destruct Hc as [<-|Hc];
    [ repeat first
        [ apply establishes_then;
          [ apply establishes_when_col, establishes_apply_col
          | repeat first
              [ apply preserves_bind; [other_column|]
              | intros df df' E; injection E as <-; apply keeps_refl ] ]
        | apply establishes_after; [other_column|] ]
    | ]).
  contradiction.
Qed.

End DerivationFacts.

Section PipelineFacts.
Context {L : Library}.

Ltac pres :=
  repeat first
    [ apply preserves_when_col
    | apply preserves_apply_col; discriminate
    | apply preserves_bind ].

Ltac est :=
  first
    [ apply establishes_apply_col
    | apply establishes_when_col; est
    | apply establishes_then; [ solve [est] | solve [pres] ]
    | apply establishes_after; [ solve [pres] | est ] ].

Lemma derive_region_level_1 :
  establishes "region_names" "region_level_1" (pure (region_level 1))
    derive_columns.
Proof. unfold derive_columns. est. Qed.

Lemma derive_region_level_2 :
  establishes "region_names" "region_level_2" (pure (region_level 2))
    derive_columns.
Proof. unfold derive_columns. est. Qed.

Lemma derive_primary_gender :
  establishes "gender" "primary_gender" (pure extract_primary_incident_type)
    derive_columns.
Proof. unfold derive_columns. est. Qed.

Lemma derive_gender_male_count :
  establishes "gender" "gender_male_count"
    (pure (fun x => count_gender x "man")) derive_columns.
Proof. unfold derive_columns. est. Qed.

Lemma derive_gender_female_count :
  establishes "gender" "gender_female_count"
    (pure (fun x => count_gender x "woman")) derive_columns.
Proof. unfold derive_columns. est. Qed.

(** The steps that follow the dates, and those that follow the derived
    columns. *)
Definition after_dates (df : DataFrame) : result DataFrame :=
  df <- content_length df ;;
  df <- fill_missing df ;;
  df <- encode_lists df ;;
  Ok (reorder_columns df).

Definition after_derive (df : DataFrame) : result DataFrame :=
  df <- parse_dates df ;;
  after_dates df.

Definition after_parse (df : DataFrame) : result DataFrame :=
  df <- clean_texts df ;;
  df <- derive_columns df ;;
  after_derive df.

Lemma transform_unfold :
  forall df, transform df = bind (parse_lists df) after_parse.
Proof. reflexivity. Qed.

Lemma after_dates_preserves :
  forall c,
    ~ In c ("content_length" :: "country" :: "title" :: "content"
            :: "journalist_types" :: "subjects" :: list_columns) ->
    preserves c after_dates.
Proof.
  intros c Hc. unfold after_dates.
  assert (Hsub : forall l,
             forallb (fun x => existsb (String.eqb x)
                        ("content_length" :: "country" :: "title" :: "content"
                         :: "journalist_types" :: "subjects" :: list_columns))
                     l = true ->
             ~ In c l).
  { intros l Hl H. apply Hc. exact (incl_by_eqb _ _ Hl c H). }
  apply (preserves_bind c content_length).
  { apply content_length_preserves. intros ->.
    apply (Hsub ["content_length"]); [reflexivity|now left]. }
  apply (preserves_bind c fill_missing).
  { apply fill_missing_preserves, Hsub. reflexivity. }
  apply (preserves_bind c encode_lists).
  { apply encode_lists_preserves, Hsub. reflexivity. }
  intros df df' H. injection H as <-. split; [reflexivity|].
  apply lookup_reorder_columns.
Qed.

(** The columns written after the derived columns are computed. *)
Definition late_columns : list string :=
  "date" :: "month" :: "day_of_week" :: "content_length"
  :: "country" :: "title" :: "content"
  :: "journalist_types" :: "subjects" :: list_columns.

Lemma not_in_by_eqb :
  forall (c : string) (l : list string),
    existsb (String.eqb c) l = false -> ~ In c l.
Proof.
  intros c l E H.
  assert (X : existsb (String.eqb c) l = true).
  { apply existsb_exists. exists c. split; [exact H|apply String.eqb_refl]. }
  congruence.
Qed.

Lemma after_derive_preserves :
  forall c,
    ~ In c late_columns ->
    preserves c after_derive.
Proof.
  intros c Hc. unfold after_derive.
  apply (preserves_bind c parse_dates).
  - apply parse_dates_preserves. intros H. apply Hc.
    revert H. apply incl_by_eqb. reflexivity.
  - apply after_dates_preserves. intros H. apply Hc.
    revert H. apply incl_by_eqb. reflexivity.
Qed.

Ltac not_listed :=
  let H := fresh in
  intros H; simpl in H;
  repeat (destruct H as [H|H]; [discriminate|]); exact H.

(** A derived column of the table before duplicates are removed is its
    function applied down the decoded source column. *)
Lemma transform_derives :
  forall src dst f,
    In src list_columns ->
    establishes src dst (pure f) derive_columns ->
    ~ In src text_columns ->
    ~ In dst late_columns ->
    forall df T raw,
      transform df = Ok T -> get_col src df = Ok raw ->
      exists decoded,
        mapM parse_list_column raw = Ok decoded
        /\ get_col dst T = Ok (map f decoded).
Proof.
  intros src dst f Hsrc Hest Htext Hdst df T raw HT Hraw.
  rewrite transform_unfold in HT. apply bind_Ok in HT.
  destruct HT as [df1 [H1 H2]].
  destruct (parse_lists_establishes src Hsrc _ _ _ H1 Hraw)
    as [decoded [Hdec Hcol]].
  exists decoded. split; [exact Hdec|].
  assert (Hrest : establishes src dst (pure f) after_parse).
  { unfold after_parse. apply establishes_after.
    - now apply clean_texts_preserves.
    - apply establishes_then; [exact Hest|].
      now apply after_derive_preserves. }
  destruct (Hrest _ _ _ H2 Hcol) as [ws [Hws Hget]].
  rewrite mapM_pure in Hws. injection Hws as <-. exact Hget.
Qed.

End PipelineFacts.

(** ** Tables used as examples *)

Module Examples.

(** A table as [read_csv] gives it: rows labelled from 0. *)
Definition frame (n : nat) (cols : list (string * column)) : DataFrame :=
  {| index := seq 0 n; columns := cols |}.

(** What a run returns, or the input itself when the run raises. *)
Definition transformed (df : DataFrame) : DataFrame :=
  match transform (L := RefLib) df with
  | Ok T => T
  | Raise _ => df
  end.

(** One incident with three genders and three region names, and one with
    blank cells. *)
Definition incident_table : DataFrame :=
  frame 2
    [("id", [VInt 1; VInt 2]);
     ("title", [VStr "Reporter attacked"; VStr "Newsroom raided"]);
     ("content", [VStr "x"; VStr "y"]);
     ("date", [VStr "2024-01-01"; VStr "2024-01-02"]);
     ("country", [VStr "FR"; VStr "DE"]);
     ("region_names", [VStr "['CityX', 'CountryY', 'RegionZ']"; VNaN]);
     ("gender", [VStr "['Man', 'Woman', 'Man']"; VNaN])].

Definition incident_table_transformed : DataFrame :=
  Eval vm_compute in transformed incident_table.

(** Two rows; the second [type_of_incident] cell is the text 42. *)
Definition malformed_type_table : DataFrame :=
  frame 2
    [("id", [VInt 1; VInt 2]);
     ("title", [VStr "a"; VStr "b"]);
     ("content", [VStr "x"; VStr "y"]);
     ("date", [VStr "2024-01-01"; VStr "2024-01-02"]);
     ("country", [VStr "FR"; VStr "DE"]);
     ("type_of_incident", [VStr "['Physical assault']"; VStr "42"])].

End Examples.
Import Examples.

(** ** Cells *)

Section CellFacts.
Context {L : Library}.

Lemma parse_list_column_text :
  forall s r,
    parse_literal s = Some r ->
    parse_list_column (VStr s)
    = match r with
      | Raise ValueError | Raise SyntaxError => Ok (VList [])
      | r => r
      end.
Proof.
  intros s r H. unfold parse_list_column, isna_truth, literal_eval.
  cbn [isna_scalar bind is_list].
  rewrite (literal_eval_fragment s r H). now destruct r as [v|[]].
Qed.

Lemma clean_text_plain :
  forall s,
    has_char "&" s = false ->
    clean_text (VStr s) = Ok (VStr (strip (collapse_spaces false s))).
Proof.
  intros s H. unfold clean_text. cbn [isna_truth isna_scalar bind py_str].
  now rewrite (unescape_plain s H).
Qed.

(** On text, [count_gender] counts the elements that hold the target,
    whatever their case. *)
Lemma count_gender_texts :
  forall (ss : list string) (target : string),
    target <> "" ->
    count_gender (VList (map VStr ss)) target
    = VInt (Z.of_nat (List.length
        (filter (fun s => contains (lower target) (lower s)) ss))).
Proof.
  intros ss target Ht. unfold count_gender. do 2 f_equal.
  induction ss as [|s ss IH]; [reflexivity|]. cbn [map filter truthy py_str].
  destruct (String.eqb_spec s "") as [->|Hne]; cbn [negb andb].
  - destruct target as [|c t]; [contradiction|]. cbn. exact IH.
  - destruct (contains _ _); cbn [List.length]; now rewrite IH.
Qed.

End CellFacts.

(** ** Derived columns *)

(** C9.  For a list [l] of region names, [region_level_1] is the element at
    index 1 and [region_level_2] the element at index 2 when [l] has them,
    and None otherwise; City, Country, Region gives Country and Region.  In
    the table before duplicates are removed, the two columns hold these
    values for the decoded [region_names] of every row. *)
Theorem region_levels_by_index :
  forall (L : Library) (df T : DataFrame) (raw : column),
    transform df = Ok T ->
    get_col "region_names" df = Ok raw ->
    (exists decoded,
        mapM parse_list_column raw = Ok decoded
        /\ get_col "region_level_1" T = Ok (map (region_level 1) decoded)
        /\ get_col "region_level_2" T = Ok (map (region_level 2) decoded))
    /\ (forall l,
           region_level 1 (VList l)
           = match nth_error l 1 with Some v => v | None => VNone end
           /\ region_level 2 (VList l)
              = match nth_error l 2 with Some v => v | None => VNone end)
    /\ region_level 1 (VList [VStr "CityX"; VStr "CountryY"; VStr "RegionZ"])
       = VStr "CountryY"
    /\ region_level 2 (VList [VStr "CityX"; VStr "CountryY"; VStr "RegionZ"])
       = VStr "RegionZ".
Proof.
  intros L df T raw HT Hraw.
  assert (Hsrc : In "region_names" list_columns)
    by (unfold list_columns; simpl; tauto).
  assert (Htext : ~ In "region_names" text_columns)
    by (apply not_in_by_eqb; reflexivity).
  repeat split.
  - destruct (transform_derives "region_names" "region_level_1"
                (region_level 1) Hsrc derive_region_level_1 Htext
                (not_in_by_eqb "region_level_1" late_columns eq_refl) df T raw HT Hraw)
      as [d1 [D1 H1]].
    destruct (transform_derives "region_names" "region_level_2"
                (region_level 2) Hsrc derive_region_level_2 Htext
                (not_in_by_eqb "region_level_2" late_columns eq_refl) df T raw HT Hraw)
      as [d2 [D2 H2]].
    exists d1. rewrite D1 in D2. injection D2 as <-. auto.
  - unfold region_level. destruct l as [|a [|b l]]; reflexivity.
  - unfold region_level. destruct l as [|a [|b [|c l]]]; reflexivity.
Qed.

Lemma region_levels_by_index_witness :
  exists decoded,
    mapM (parse_list_column (L := RefLib))
      [VStr "['CityX', 'CountryY', 'RegionZ']"; VNaN] = Ok decoded
    /\ get_col "region_level_1" incident_table_transformed
       = Ok (map (region_level 1) decoded)
    /\ get_col "region_level_2" incident_table_transformed
       = Ok (map (region_level 2) decoded).
Proof.
  apply (region_levels_by_index RefLib incident_table
           incident_table_transformed);
    vm_compute; reflexivity.
Defined.

(** C2, as amended.  The gender cell Man, Woman, Man decodes to the list of
    its three texts; [gender_male_count] is 3, because the count is of the
    elements whose lower-case text contains "man" and "woman" contains it
    too; [gender_female_count] is 1 and [primary_gender] is "Man".  In the
    table before duplicates are removed the three columns hold these
    functions of the decoded [gender] of every row. *)
Theorem gender_counts_by_substring :
  forall (L : Library) (df T : DataFrame) (raw : column),
    transform df = Ok T ->
    get_col "gender" df = Ok raw ->
    (exists decoded,
        mapM parse_list_column raw = Ok decoded
        /\ get_col "gender_male_count" T
           = Ok (map (fun x => count_gender x "man") decoded)
        /\ get_col "gender_female_count" T
           = Ok (map (fun x => count_gender x "woman") decoded)
        /\ get_col "primary_gender" T
           = Ok (map extract_primary_incident_type decoded))
    /\ (forall ss : list string,
           count_gender (VList (map VStr ss)) "man"
           = VInt (Z.of_nat (List.length
               (filter (fun s => contains "man" (lower s)) ss)))
           /\ count_gender (VList (map VStr ss)) "woman"
              = VInt (Z.of_nat (List.length
                  (filter (fun s => contains "woman" (lower s)) ss))))
    /\ parse_list_column (VStr "['Man', 'Woman', 'Man']")
       = Ok (VList [VStr "Man"; VStr "Woman"; VStr "Man"])
    /\ count_gender (VList [VStr "Man"; VStr "Woman"; VStr "Man"]) "man"
       = VInt 3
    /\ count_gender (VList [VStr "Man"; VStr "Woman"; VStr "Man"]) "woman"
       = VInt 1
    /\ extract_primary_incident_type
         (VList [VStr "Man"; VStr "Woman"; VStr "Man"]) = VStr "Man".
Proof.
  intros L df T raw HT Hraw.
  assert (Hsrc : In "gender" list_columns) by (unfold list_columns; simpl; tauto).
  assert (Htext : ~ In "gender" text_columns)
    by (apply not_in_by_eqb; reflexivity).
  assert (Hdst : forall dst,
             existsb (String.eqb dst) late_columns = false ->
             ~ In dst late_columns) by (intros dst; apply not_in_by_eqb).
  split; [|split; [|repeat split]].
  - destruct (transform_derives "gender" "gender_male_count"
                (fun x => count_gender x "man") Hsrc derive_gender_male_count
                Htext (Hdst "gender_male_count" eq_refl) df T raw HT Hraw)
      as [d1 [D1 M]].
    destruct (transform_derives "gender" "gender_female_count"
                (fun x => count_gender x "woman") Hsrc derive_gender_female_count
                Htext (Hdst "gender_female_count" eq_refl) df T raw HT Hraw)
      as [d2 [D2 F]].
    destruct (transform_derives "gender" "primary_gender"
                extract_primary_incident_type Hsrc derive_primary_gender
                Htext (Hdst "primary_gender" eq_refl) df T raw HT Hraw)
      as [d3 [D3 P]].
    exists d1. rewrite D1 in D2, D3. injection D2 as <-. injection D3 as <-.
    auto.
  - intros ss. split; apply count_gender_texts; discriminate.
  - exact (parse_list_column_text "['Man', 'Woman', 'Man']" _ eq_refl).
Qed.

Lemma gender_counts_by_substring_witness :
  exists decoded,
    mapM (parse_list_column (L := RefLib))
      [VStr "['Man', 'Woman', 'Man']"; VNaN] = Ok decoded
    /\ get_col "gender_male_count" incident_table_transformed
       = Ok (map (fun x => count_gender x "man") decoded)
    /\ get_col "gender_female_count" incident_table_transformed
       = Ok (map (fun x => count_gender x "woman") decoded)
    /\ get_col "primary_gender" incident_table_transformed
       = Ok (map extract_primary_incident_type decoded).
Proof.
  apply (gender_counts_by_substring RefLib incident_table
           incident_table_transformed);
    vm_compute; reflexivity.
Defined.

(** The count the claim gives for the male column, 2, is not what the run
    stores for Man, Woman, Man: it stores 3. *)
Lemma gender_male_count_is_not_two :
  get_col "gender_male_count" incident_table_transformed
  = Ok [VInt 3; VInt 0]
  /\ ~ (count_gender (VList [VStr "Man"; VStr "Woman"; VStr "Man"]) "man"
        = VInt 2
        /\ count_gender (VList [VStr "Man"; VStr "Woman"; VStr "Man"]) "woman"
           = VInt 1
        /\ extract_primary_incident_type
             (VList [VStr "Man"; VStr "Woman"; VStr "Man"]) = VStr "Man").
Proof.
  split; [reflexivity|]. intros [H _]. vm_compute in H. discriminate.
Qed.

(** ** Decoding and failure *)

#[local] Arguments parse_list_column : simpl never.
#[local] Arguments parse_subjects_column : simpl never.
#[local] Arguments clean_text : simpl never.

(** C4, at the failing input.  The text 42 is a literal but not a list:
    [parse_list_column] returns the integer, so the cell is not a sequence
    after step 1, though the docstring promises a list or the empty list. *)
Theorem parse_list_column_integer_text :
  forall L : Library,
    parse_list_column (VStr "42") = Ok (VInt 42)
    /\ is_list (VInt 42) = false
    /\ exists T cells,
         parse_lists malformed_type_table = Ok T
         /\ get_col "type_of_incident" T = Ok cells
         /\ forallb is_list cells = false.
Proof.
  intros L. split; [exact (parse_list_column_text "42" _ eq_refl)|].
  split; [reflexivity|].
  unfold parse_lists, malformed_type_table, frame. cbn.
  rewrite (parse_list_column_text "42" _ eq_refl).
  rewrite (parse_list_column_text "['Physical assault']" _ eq_refl).
  cbn. eexists. eexists. split; [reflexivity|]. split; reflexivity.
Qed.

(** A table without a [country] column: step 6 reads the column without
    testing for it, and the run raises KeyError. *)
Example missing_country_column_aborts :
  forall L : Library,
    clean_mapmf_data
      (frame 1 [("id", [VInt 1]); ("title", [VStr "a"]);
                ("content", [VStr "x"]); ("date", [VStr "2024-01-01"])])
    = Raise KeyError.
Proof.
  intros L. unfold clean_mapmf_data, transform, parse_lists, frame.
  cbn. repeat (rewrite clean_text_plain by reflexivity; cbn).
  rewrite (to_datetime_iso [VStr "2024-01-01"] _ eq_refl). cbn.
  reflexivity.
Qed.

(** C5, at the failing input.  With the text 42 in one [type_of_incident]
    cell the run raises TypeError, from [len] of the integer, and returns no
    table. *)
Theorem malformed_cell_aborts_run :
  forall L : Library,
    clean_mapmf_data malformed_type_table = Raise TypeError.
Proof.
  intros L.
  unfold clean_mapmf_data, transform, parse_lists, malformed_type_table, frame.
  cbn.
  rewrite (parse_list_column_text "42" _ eq_refl).
  rewrite (parse_list_column_text "['Physical assault']" _ eq_refl).
  cbn.
  rewrite !clean_text_plain by reflexivity.
  cbn. reflexivity.
Qed.

(** ** Dates *)

Section CalendarFacts.

Lemma month_of_range : forall t, 1 <= month_of t <= 12.
Proof.
  intros t. unfold month_of, civil_from_days. cbn [fst snd].
  set (z := days_of_ns t + 719468).
  set (era := z / 146097).
  set (doe := z - era * 146097).
  assert (Hdoe : 0 <= doe <= 146096).
  { unfold doe, era. pose proof (Z.div_mod z 146097 ltac:(lia)).
    pose proof (Z.mod_pos_bound z 146097 ltac:(lia)). lia. }
  clearbody doe. clear z era.
  set (yoe := (doe - doe / 1460 + doe / 36524 - doe / 146096) / 365).
  set (doy := doe - (365 * yoe + yoe / 4 - yoe / 100)).
  assert (Hdoy : 0 <= doy <= 365).
  { unfold doy, yoe. Z.to_euclidean_division_equations. lia. }
  clearbody doy. clear yoe.
  set (mp := (5 * doy + 2) / 153).
  assert (Hmp : 0 <= mp <= 11).
  { unfold mp. Z.to_euclidean_division_equations. lia. }
  clearbody mp.
  destruct (Z.ltb_spec mp 10); lia.
Qed.

Lemma day_name_in_names : forall t, In (day_name t) day_names.
Proof.
  intros t. unfold day_name, weekday.
  pose proof (Z.mod_pos_bound (days_of_ns t + 3) 7 ltac:(lia)) as H.
  apply nth_In. cbn [day_names List.length]. lia.
Qed.

(** [lia] with the quotients and remainders replaced by their equations. *)
Ltac div_lia := Z.to_euclidean_division_equations; lia.

(** Succeeds on a term in which no variable occurs. *)
Ltac closed_term t :=
  match t with
  | context [?x] => is_var x; fail 1
  | _ => idtac
  end.

(** Evaluates the tests and the quotients that hold no variable. *)
Ltac eval_closed :=
  repeat match goal with
         | |- context [if ?b then _ else _] =>
             closed_term b;
             let v := eval vm_compute in b in
             progress change b with v; cbv iota
         | |- context [?a / ?b] =>
             closed_term (a / b);
             let v := eval vm_compute in (a / b) in
             progress change (a / b) with v
         end.

Lemma is_leap_spec :
  forall y, is_leap y = true <->
            (y mod 4 = 0 /\ (y mod 100 <> 0 \/ y mod 400 = 0)).
Proof.
  intros y. unfold is_leap.
  rewrite orb_true_iff, andb_true_iff, negb_true_iff, !Z.eqb_eq, Z.eqb_neq.
  split; [intros [[A B]|C]|intros [A [B|C]]]; try tauto.
  split; [div_lia|right; exact C].
Qed.

Lemma valid_date_spec :
  forall y m d,
    valid_date (y, m, d) = true <->
    1 <= m <= 12 /\ 1 <= d <= days_in_month y m.
Proof.
  intros y m d. unfold valid_date.
  rewrite !andb_true_iff, !Z.leb_le. tauto.
Qed.

Lemma month_cases :
  forall m, 1 <= m <= 12 ->
    m = 1 \/ m = 2 \/ m = 3 \/ m = 4 \/ m = 5 \/ m = 6 \/ m = 7 \/ m = 8
    \/ m = 9 \/ m = 10 \/ m = 11 \/ m = 12.
Proof. intros m H. div_lia. Qed.


(** Days of the month numbered from March, in a year of the era that
    starts in March. *)
Definition month_length (yoe mp : Z) : Z :=
  if mp =? 11
  then (if ((yoe + 1) mod 4 =? 0)
            && (negb ((yoe + 1) mod 100 =? 0) || (yoe =? 399)) then 29 else 28)%bool
  else if ((mp =? 1) || (mp =? 3) || (mp =? 6) || (mp =? 8))%bool then 30
  else 31.

Lemma mp_cases :
  forall mp, 0 <= mp <= 11 ->
    mp = 0 \/ mp = 1 \/ mp = 2 \/ mp = 3 \/ mp = 4 \/ mp = 5 \/ mp = 6
    \/ mp = 7 \/ mp = 8 \/ mp = 9 \/ mp = 10 \/ mp = 11.
Proof. intros mp H. div_lia. Qed.

Lemma yoe_identity :
  forall yoe doy : Z,
    0 <= yoe <= 399 -> 0 <= doy <= 365 ->
    (doy = 365 -> (yoe + 1) mod 4 = 0 /\ ((yoe + 1) mod 100 <> 0 \/ yoe = 399)) ->
    let doe := yoe * 365 + yoe / 4 - yoe / 100 + doy in
    (doe - doe / 1460 + doe / 36524 - doe / 146096) / 365 = yoe.
Proof.
  intros yoe doy Hy Hd Hleap doe. subst doe. div_lia.
Qed.

Lemma doy_facts :
  forall yoe mp d,
    0 <= yoe <= 399 -> 0 <= mp <= 11 -> 1 <= d <= month_length yoe mp ->
    let doy := (153 * mp + 2) / 5 + d - 1 in
    0 <= doy <= 365
    /\ (doy = 365 ->
        (yoe + 1) mod 4 = 0 /\ ((yoe + 1) mod 100 <> 0 \/ yoe = 399))
    /\ (5 * doy + 2) / 153 = mp.
Proof.
  intros yoe mp d Hy Hmp Hd doy. subst doy. unfold month_length in Hd.
  destruct (mp_cases mp Hmp) as [E|[E|[E|[E|[E|[E|[E|[E|[E|[E|[E|E]]]]]]]]]]];
    subst mp;
    repeat match type of Hd with
           | context [if ?b then _ else _] => destruct b eqn:?
           end; div_lia.
Qed.

Lemma civil_from_parts :
  forall era yoe mp d,
    0 <= yoe <= 399 -> 0 <= mp <= 11 -> 1 <= d <= month_length yoe mp ->
    civil_from_days
      (era * 146097
       + (yoe * 365 + yoe / 4 - yoe / 100 + ((153 * mp + 2) / 5 + d - 1))
       - 719468)
    = ((if (if mp <? 10 then mp + 3 else mp - 9) <=? 2
        then yoe + era * 400 + 1 else yoe + era * 400),
       (if mp <? 10 then mp + 3 else mp - 9), d).
Proof.
  intros era yoe mp d Hy Hmp Hd.
  destruct (doy_facts yoe mp d Hy Hmp Hd) as [Hdoy [Hleap Hmp']].
  set (doy := (153 * mp + 2) / 5 + d - 1) in *.
  pose proof (yoe_identity yoe doy Hy Hdoy Hleap) as Hyoe. cbv zeta in Hyoe.
  set (doe := yoe * 365 + yoe / 4 - yoe / 100 + doy) in *.
  assert (Hdoe : 0 <= doe <= 146096) by (unfold doe; div_lia).
  unfold civil_from_days. cbv zeta.
  replace (era * 146097 + doe - 719468 + 719468) with (era * 146097 + doe)
    by ring.
  assert (Hera : (era * 146097 + doe) / 146097 = era).
  { symmetry. apply (Z.div_unique _ _ era doe); div_lia. }
  rewrite Hera.
  replace (era * 146097 + doe - era * 146097) with doe by ring.
  rewrite Hyoe.
  replace (doe - (365 * yoe + yoe / 4 - yoe / 100)) with doy
    by (unfold doe; ring).
  rewrite Hmp'.
  replace (doy - (153 * mp + 2) / 5 + 1) with d by (unfold doy; ring).
  reflexivity.
Qed.

Ltac split_ifs :=
  repeat match goal with
         | |- context [if ?b then _ else _] => destruct b eqn:?
         end.

Lemma civil_of_days_from_civil :
  forall y m d,
    valid_date (y, m, d) = true ->
    civil_from_days (days_from_civil y m d) = (y, m, d).
Proof.
  intros y m d H. apply valid_date_spec in H. destruct H as [Hm Hd].
  unfold days_from_civil. cbv zeta.
  destruct (Z.leb_spec m 2) as [Hlow|Hhigh];
    (destruct (Z.ltb_spec 2 m) as [Hgt|Hle]; [try div_lia|try div_lia]);
    cbv iota.
  - (* January and February belong to the year before *)
    set (era := (y - 1) / 400). set (yoe := y - 1 - era * 400).
    assert (Hy : 0 <= yoe <= 399) by (unfold yoe, era; div_lia).
    assert (Hmp : 0 <= m + 9 <= 11) by div_lia.
    assert (Hlen : month_length yoe (m + 9) = days_in_month y m).
    { unfold month_length, days_in_month, is_leap, yoe, era.
      assert (Hc : m = 1 \/ m = 2) by div_lia.
      destruct Hc; subst m; split_ifs; div_lia. }
    rewrite <- Hlen in Hd.
    rewrite (civil_from_parts era yoe (m + 9) d Hy Hmp Hd). unfold yoe, era.
    split_ifs; try div_lia;
      match goal with
      | |- (?a, ?b, ?c) = (?a', ?b', ?c') =>
          replace a with a' by div_lia; replace b with b' by div_lia; reflexivity
      end.
  - set (era := y / 400). set (yoe := y - era * 400).
    assert (Hy : 0 <= yoe <= 399) by (unfold yoe, era; div_lia).
    assert (Hmp : 0 <= m - 3 <= 11) by div_lia.
    assert (Hlen : month_length yoe (m - 3) = days_in_month y m).
    { unfold month_length, days_in_month.
      destruct (month_cases m Hm) as [E|[E|[E|[E|[E|[E|[E|[E|[E|[E|[E|E]]]]]]]]]]];
        subst m; split_ifs; div_lia. }
    rewrite <- Hlen in Hd.
    rewrite (civil_from_parts era yoe (m - 3) d Hy Hmp Hd). unfold yoe, era.
    split_ifs; try div_lia;
      match goal with
      | |- (?a, ?b, ?c) = (?a', ?b', ?c') =>
          replace a with a' by div_lia; replace b with b' by div_lia; reflexivity
      end.
Qed.

Lemma parts_of_day :
  forall doe,
    0 <= doe <= 146096 ->
    let yoe := (doe - doe / 1460 + doe / 36524 - doe / 146096) / 365 in
    let doy := doe - (365 * yoe + yoe / 4 - yoe / 100) in
    0 <= yoe <= 399
    /\ 0 <= doy <= 365
    /\ (doy = 365 ->
        (yoe + 1) mod 4 = 0 /\ ((yoe + 1) mod 100 <> 0 \/ yoe = 399)).
Proof.
  intros doe H yoe doy. subst doy yoe. div_lia.
Qed.

Lemma month_of_doy :
  forall yoe doy,
    0 <= yoe <= 399 -> 0 <= doy <= 365 ->
    (doy = 365 ->
     (yoe + 1) mod 4 = 0 /\ ((yoe + 1) mod 100 <> 0 \/ yoe = 399)) ->
    let mp := (5 * doy + 2) / 153 in
    let d := doy - (153 * mp + 2) / 5 + 1 in
    0 <= mp <= 11 /\ 1 <= d <= month_length yoe mp.
Proof.
  intros yoe doy Hy Hd Hleap mp d.
  assert (Hmp : 0 <= mp <= 11) by (subst mp; div_lia).
  split; [exact Hmp|]. subst d. unfold month_length.
  destruct (mp_cases mp Hmp) as [E|[E|[E|[E|[E|[E|[E|[E|[E|[E|[E|E]]]]]]]]]]];
    rewrite E; subst mp; split_ifs; div_lia.
Qed.

Lemma days_from_civil_of_civil :
  forall z,
    valid_date (civil_from_days z) = true
    /\ days_from_civil (fst (fst (civil_from_days z)))
         (snd (fst (civil_from_days z))) (snd (civil_from_days z)) = z.
Proof.
  intros z. unfold civil_from_days. cbv zeta.
  set (era := (z + 719468) / 146097).
  set (doe := z + 719468 - era * 146097).
  assert (Hdoe : 0 <= doe <= 146096) by (unfold doe, era; div_lia).
  destruct (parts_of_day doe Hdoe) as [Hy [Hdoy Hleap]]. cbv zeta in *.
  set (yoe := (doe - doe / 1460 + doe / 36524 - doe / 146096) / 365) in *.
  set (doy := doe - (365 * yoe + yoe / 4 - yoe / 100)) in *.
  destruct (month_of_doy yoe doy Hy Hdoy Hleap) as [Hmp Hd]. cbv zeta in *.
  set (mp := (5 * doy + 2) / 153) in *.
  set (d := doy - (153 * mp + 2) / 5 + 1) in *.
  cbn [fst snd].
  assert (Hz : z = era * 146097 + doe - 719468) by (unfold doe; ring).
  assert (Hdoe' : doe = yoe * 365 + yoe / 4 - yoe / 100 + doy)
    by (unfold doy; ring).
  assert (Hdoy' : doy = (153 * mp + 2) / 5 + d - 1) by (unfold d; ring).
  clearbody d doy. clearbody doe. clearbody mp yoe. clearbody era.
  split.
  - apply valid_date_spec. unfold days_in_month, is_leap, month_length in *.
    revert Hd Hdoy'.
    destruct (mp_cases mp Hmp) as [E|[E|[E|[E|[E|[E|[E|[E|[E|[E|[E|E]]]]]]]]]]];
      subst mp; eval_closed; split_ifs; div_lia.
  - unfold days_from_civil. cbv zeta. revert Hdoy'.
    destruct (mp_cases mp Hmp) as [E|[E|[E|[E|[E|[E|[E|[E|[E|[E|[E|E]]]]]]]]]]];
      subst mp; eval_closed; div_lia.
Qed.

Lemma days_from_civil_next :
  forall y m d,
    valid_date (y, m, d) = true ->
    valid_date (next_date (y, m, d)) = true
    /\ days_from_civil (fst (fst (next_date (y, m, d))))
         (snd (fst (next_date (y, m, d)))) (snd (next_date (y, m, d)))
       = days_from_civil y m d + 1.
Proof.
  intros y m d H. apply valid_date_spec in H. destruct H as [Hm Hd].
  unfold next_date.
  destruct (Z.ltb_spec d (days_in_month y m)) as [Hlt|Hge]; cbn [fst snd].
  - split; [apply valid_date_spec; div_lia|].
    unfold days_from_civil. cbv zeta. div_lia.
  - assert (Hlast : d = days_in_month y m) by div_lia. clear Hge Hd.
    destruct (Z.ltb_spec m 12) as [Hm12|Hm12]; cbn [fst snd].
    + split.
      * apply valid_date_spec. unfold days_in_month. split; [div_lia|].
        destruct (month_cases m Hm) as [E|[E|[E|[E|[E|[E|[E|[E|[E|[E|[E|E]]]]]]]]]]];
          subst m; eval_closed; split_ifs; div_lia.
      * subst d. unfold days_from_civil, days_in_month, is_leap. cbv zeta.
        destruct (month_cases m Hm) as [E|[E|[E|[E|[E|[E|[E|[E|[E|[E|[E|E]]]]]]]]]]];
          subst m; eval_closed; split_ifs; div_lia.
    + assert (m = 12) by div_lia. subst m. split.
      * apply valid_date_spec. unfold days_in_month. eval_closed. div_lia.
      * subst d. unfold days_from_civil, days_in_month. cbv zeta.
        eval_closed. div_lia.
Qed.

Lemma civil_from_days_next :
  forall z,
    valid_date (civil_from_days z) = true
    /\ civil_from_days (z + 1) = next_date (civil_from_days z).
Proof.
  intros z. destruct (days_from_civil_of_civil z) as [Hv Hz].
  split; [exact Hv|].
  destruct (civil_from_days z) as [[y m] d] eqn:E. cbn [fst snd] in Hz.
  destruct (days_from_civil_next y m d Hv) as [Hv' Hn].
  destruct (next_date (y, m, d)) as [[y' m'] d'] eqn:E'. cbn [fst snd] in Hn.
  rewrite <- (civil_of_days_from_civil y' m' d' Hv'). f_equal. div_lia.
Qed.

Lemma days_of_instant :
  forall days ns,
    0 <= ns < ns_per_day -> days_of_ns (days * ns_per_day + ns) = days.
Proof.
  intros days ns H. unfold days_of_ns. symmetry.
  apply (Z.div_unique _ _ days ns); [left; exact H|ring].
Qed.

(** Every instant of a valid date has the month of that date. *)
Lemma month_of_date :
  forall y m d ns,
    valid_date (y, m, d) = true -> 0 <= ns < ns_per_day ->
    month_of (days_from_civil y m d * ns_per_day + ns) = m.
Proof.
  intros y m d ns Hv Hns. unfold month_of.
  now rewrite (days_of_instant _ _ Hns), (civil_of_days_from_civil _ _ _ Hv).
Qed.

(** The day names follow one another from day to day. *)
Lemma day_name_next :
  forall t,
    exists i,
      (i < 7)%nat
      /\ day_name t = nth i day_names ""
      /\ day_name (t + ns_per_day) = nth ((i + 1) mod 7) day_names "".
Proof.
  intros t. unfold day_name, weekday.
  assert (Hd : days_of_ns (t + ns_per_day) = days_of_ns t + 1).
  { unfold days_of_ns.
    replace (t + ns_per_day) with (t + 1 * ns_per_day) by ring.
    apply Z.div_add. discriminate. }
  rewrite Hd.
  set (r := (days_of_ns t + 3) mod 7).
  assert (Hr : 0 <= r < 7) by (apply Z.mod_pos_bound; lia).
  assert (Hn : (days_of_ns t + 1 + 3) mod 7 = (r + 1) mod 7).
  { unfold r.
    replace (days_of_ns t + 1 + 3) with (days_of_ns t + 3 + 1) by ring.
    rewrite Zplus_mod. rewrite (Z.mod_small 1 7) by lia. reflexivity. }
  rewrite Hn. exists (Z.to_nat r). split; [lia|]. split; [reflexivity|].
  assert (Hc : r = 0 \/ r = 1 \/ r = 2 \/ r = 3 \/ r = 4 \/ r = 5 \/ r = 6)
    by lia.
  clearbody r.
  destruct Hc as [E|[E|[E|[E|[E|[E|E]]]]]]; subst r; reflexivity.
Qed.

End CalendarFacts.

Section DateFacts.
Context {L : Library}.

Lemma parse_dates_absent :
  forall df, has_col "date" df = false -> parse_dates df = Ok df.
Proof. intros df H. unfold parse_dates, when_col. now rewrite H. Qed.

Lemma parse_dates_columns :
  forall df df' raw,
    parse_dates df = Ok df' -> get_col "date" df = Ok raw ->
    exists dates,
      to_datetime_coerce raw = Ok dates
      /\ get_col "date" df' = Ok dates
      /\ get_col "month" df' = Ok (map dt_month dates)
      /\ get_col "day_of_week" df' = Ok (map dt_day_name dates).
Proof.
  intros df df' raw H Hraw. unfold parse_dates, when_col in H.
  rewrite (get_col_has_col _ _ _ Hraw), Hraw in H. cbn [bind] in H.
  destruct (to_datetime_coerce raw) as [dates|e]; [|discriminate].
  cbn [bind] in H. unfold get_col in H at 1. cbn [set_col columns] in H.
  rewrite lookup_assign_same in H. cbn [bind] in H. injection H as <-.
  exists dates. split; [reflexivity|].
  unfold get_col, set_col. cbn [columns].
  rewrite !lookup_assign_same.
  rewrite (lookup_assign_other "month" "day_of_week") by discriminate.
  rewrite lookup_assign_same.
  rewrite (lookup_assign_other "date" "day_of_week") by discriminate.
  rewrite (lookup_assign_other "date" "month") by discriminate.
  rewrite lookup_assign_same. auto.
Qed.

(** The run of step 4 fails only when [pd.to_datetime] does. *)
Lemma parse_dates_total :
  forall df raw dates,
    get_col "date" df = Ok raw -> to_datetime_coerce raw = Ok dates ->
    exists df', parse_dates df = Ok df'.
Proof.
  intros df raw dates Hraw Hd. unfold parse_dates, when_col.
  rewrite (get_col_has_col _ _ _ Hraw), Hraw. cbn [bind]. rewrite Hd.
  cbn [bind]. unfold get_col at 1. cbn [set_col columns].
  rewrite lookup_assign_same. cbn [bind]. eauto.
Qed.

Lemma keeps_get_col_back :
  forall c df df' r, keeps c df df' -> get_col c df' = r -> get_col c df = r.
Proof.
  intros c df df' r [_ H]. unfold get_col. now rewrite H.
Qed.

Lemma before_dates_keeps :
  forall c df df3,
    ~ In c ("subjects" :: list_columns ++ text_columns ++ derived_columns)%list ->
    (df1 <- parse_lists df ;; df2 <- clean_texts df1 ;; derive_columns df2)
    = Ok df3 ->
    keeps c df df3.
Proof.
  intros c df df3 Hc H.
  assert (Hsub : forall l,
             forallb (fun x => existsb (String.eqb x)
                        ("subjects" :: list_columns ++ text_columns
                         ++ derived_columns)%list) l = true ->
             ~ In c l).
  { intros l Hl X. apply Hc. exact (incl_by_eqb _ _ Hl c X). }
  revert df df3 H.
  change (preserves c (fun df => bind (parse_lists df)
            (fun df1 => bind (clean_texts df1) derive_columns))).
  apply (preserves_bind c parse_lists).
  { apply parse_lists_preserves, Hsub. reflexivity. }
  apply (preserves_bind c clean_texts).
  { apply clean_texts_preserves, Hsub. reflexivity. }
  apply derive_columns_preserves, Hsub. reflexivity.
Qed.

Lemma transform_split :
  forall df T,
    transform df = Ok T ->
    exists df3 df4,
      (df1 <- parse_lists df ;; df2 <- clean_texts df1 ;; derive_columns df2)
      = Ok df3
      /\ parse_dates df3 = Ok df4
      /\ after_dates df4 = Ok T.
Proof.
  intros df T H. unfold transform in H.
  apply bind_Ok in H. destruct H as [df1 [H1 H]].
  apply bind_Ok in H. destruct H as [df2 [H2 H]].
  apply bind_Ok in H. destruct H as [df3 [H3 H]].
  apply bind_Ok in H. destruct H as [df4 [H4 H]].
  exists df3, df4. rewrite H1. cbn [bind]. rewrite H2. cbn [bind].
  repeat split; assumption.
Qed.

(** The three date columns of the table before duplicates are removed. *)
Lemma transform_dates :
  forall df T raw,
    transform df = Ok T -> get_col "date" df = Ok raw ->
    exists dates,
      to_datetime_coerce raw = Ok dates
      /\ get_col "date" T = Ok dates
      /\ get_col "month" T = Ok (map dt_month dates)
      /\ get_col "day_of_week" T = Ok (map dt_day_name dates).
Proof.
  intros df T raw HT Hraw.
  destruct (transform_split _ _ HT) as [df3 [df4 [H3 [H4 H5]]]].
  assert (K3 : keeps "date" df df3).
  { apply (before_dates_keeps "date" df df3); [|exact H3].
    apply not_in_by_eqb. reflexivity. }
  pose proof (keeps_get_col _ _ _ _ K3 Hraw) as Hraw3.
  destruct (parse_dates_columns _ _ _ H4 Hraw3) as [dates [Hd [Ha [Hb Hc]]]].
  exists dates. split; [exact Hd|].
  repeat split.
  - apply (keeps_get_col "date" df4 T); [|exact Ha].
    apply (after_dates_preserves "date"); [|exact H5].
    apply not_in_by_eqb. reflexivity.
  - apply (keeps_get_col "month" df4 T); [|exact Hb].
    apply (after_dates_preserves "month"); [|exact H5].
    apply not_in_by_eqb. reflexivity.
  - apply (keeps_get_col "day_of_week" df4 T); [|exact Hc].
    apply (after_dates_preserves "day_of_week"); [|exact H5].
    apply not_in_by_eqb. reflexivity.
Qed.

(** A table without a [date] column is transformed into one without. *)
Lemma transform_without_date :
  forall df T,
    transform df = Ok T -> has_col "date" df = false ->
    has_col "date" T = false.
Proof.
  intros df T HT Hno.
  destruct (transform_split _ _ HT) as [df3 [df4 [H3 [H4 H5]]]].
  assert (K3 : keeps "date" df df3).
  { apply (before_dates_keeps "date" df df3); [|exact H3].
    apply not_in_by_eqb. reflexivity. }
  assert (Hno3 : has_col "date" df3 = false).
  { unfold has_col in *. destruct K3 as [_ K]. now rewrite K. }
  rewrite (parse_dates_absent _ Hno3) in H4. injection H4 as <-.
  assert (K5 : keeps "date" df3 T).
  { apply (after_dates_preserves "date"); [|exact H5].
    apply not_in_by_eqb. reflexivity. }
  unfold has_col in *. destruct K5 as [_ K]. now rewrite K.
Qed.

(** The stages of a run that returns. *)
Lemma clean_mapmf_data_stages :
  forall df out removed,
    clean_mapmf_data df = Ok (out, removed) ->
    exists T ids dates,
      transform df = Ok T
      /\ get_col "id" T = Ok ids
      /\ get_col "date" (take_rows (first_occurrences ids) T) = Ok dates
      /\ out = take_rows (sort_indexer dates)
                 (take_rows (first_occurrences ids) T)
      /\ removed = (nrows T - List.length (first_occurrences ids))%nat.
Proof.
  intros df out removed H. unfold clean_mapmf_data in H.
  apply bind_Ok in H. destruct H as [T [HT H]].
  apply bind_Ok in H. destruct H as [D [HD H]].
  apply bind_Ok in H. destruct H as [S [HS H]].
  injection H as <- <-.
  unfold drop_duplicates in HD. apply bind_Ok in HD.
  destruct HD as [ids [Hids HD]]. injection HD as <-.
  unfold sort_values_desc in HS. apply bind_Ok in HS.
  destruct HS as [dates [Hdates HS]]. injection HS as <-.
  exists T, ids, dates. rewrite nrows_take_rows. auto.
Qed.

Lemma take_map_commute :
  forall (f : value -> value) (l : list value) (idx : list nat),
    f VNaN = VNaN ->
    map (fun i => nth i (map f l) VNaN) idx
    = map f (map (fun i => nth i l VNaN) idx).
Proof.
  intros f l idx Hf. rewrite map_map. apply map_ext. intros i.
  rewrite <- Hf at 1. apply map_nth.
Qed.

End DateFacts.

Module DateExamples.

(** What a complete run returns, or the input and no count when it raises. *)
Definition run (df : DataFrame) : DataFrame * nat :=
  match clean_mapmf_data (L := RefLib) df with
  | Ok r => r
  | Raise _ => (df, O)
  end.

(** Three incidents; the second has no date. *)
Definition blank_date_table : DataFrame :=
  frame 3
    [("id", [VInt 1; VInt 2; VInt 3]);
     ("title", [VStr "a"; VStr "b"; VStr "c"]);
     ("content", [VStr "x"; VStr "y"; VStr "z"]);
     ("date", [VStr "2024-01-01"; VNaN; VStr "2023-06-15"]);
     ("country", [VStr "FR"; VStr "DE"; VNaN])].

Definition blank_date_output : DataFrame * nat :=
  Eval vm_compute in run blank_date_table.

End DateExamples.
Import DateExamples.

Lemma Forall_take :
  forall (P : value -> Prop) (l : list value) (idx : list nat),
    P VNaN -> Forall P l -> Forall P (map (fun i => nth i l VNaN) idx).
Proof.
  intros P l idx Hd Hl. apply Forall_forall. intros v Hv.
  apply in_map_iff in Hv. destruct Hv as [i [<- _]].
  destruct (Nat.lt_ge_cases i (List.length l)) as [Hi|Hi].
  - rewrite Forall_forall in Hl. apply Hl, nth_In, Hi.
  - now rewrite nth_overflow.
Qed.

Module GarbledExamples.

(** Four incidents: a date, a word that is no date, the empty text and a
    blank cell. *)
Definition garbled_date_table : DataFrame :=
  frame 4
    [("id", [VInt 1; VInt 2; VInt 3; VInt 4]);
     ("title", [VStr "a"; VStr "b"; VStr "c"; VStr "d"]);
     ("content", [VStr "w"; VStr "x"; VStr "y"; VStr "z"]);
     ("date", [VStr "2024-06-01"; VStr "garbage"; VStr ""; VNaN]);
     ("country", [VStr "FR"; VStr "DE"; VStr "IT"; VStr "ES"])].

Definition garbled_date_output : DataFrame * nat :=
  Eval vm_compute in run garbled_date_table.

End GarbledExamples.
Import GarbledExamples.

Example garbled_date_run :
  get_col "date" (fst garbled_date_output)
  = Ok [VTime (days_from_civil 2024 6 1 * ns_per_day); VNaT; VNaT; VNaT]
  /\ get_col "month" (fst garbled_date_output)
     = Ok [VInt 6; VNaN; VNaN; VNaN]
  /\ get_col "day_of_week" (fst garbled_date_output)
     = Ok [VStr "Saturday"; VNaN; VNaN; VNaN].
Proof. repeat split. Qed.

Section DateRows.
Context {L : Library} {D : DateContract L}.

Lemma unparseable_gives_NaT :
  forall raw parsed i v,
    to_datetime_coerce raw = Ok parsed ->
    nth_error raw i = Some v -> unparseable v = true ->
    nth_error parsed i = Some VNaT.
Proof.
  intros raw parsed i v Hp Hi Hu. unfold unparseable in Hu.
  destruct (is_missing v) eqn:Hm.
  - exact (to_datetime_missing _ _ _ _ Hp Hi Hm).
  - cbn [orb] in Hu. destruct v; try discriminate.
    exact (to_datetime_undatable _ _ _ _ Hp Hi Hu).
Qed.

(** Row by row, the two derived cells follow the parsed date: null for
    NaT, the month and the day name of the Timestamp otherwise. *)
Lemma derived_date_cells :
  forall raw parsed i d,
    to_datetime_coerce raw = Ok parsed ->
    nth_error parsed i = Some d ->
    (d = VNaT
     /\ nth_error (map dt_month parsed) i = Some VNaN
     /\ nth_error (map dt_day_name parsed) i = Some VNaN)
    \/ (exists t,
           d = VTime t
           /\ nth_error (map dt_month parsed) i = Some (VInt (month_of t))
           /\ nth_error (map dt_day_name parsed) i
              = Some (VStr (day_name t))).
Proof.
  intros raw parsed i d Hp Hi.
  pose proof (to_datetime_kind _ _ Hp) as Hk.
  rewrite forallb_forall in Hk. specialize (Hk d (nth_error_In _ _ Hi)).
  rewrite !nth_error_map, Hi. cbn [option_map].
  destruct d; try discriminate; [left|right; exists t]; repeat split.
Qed.

Lemma parse_dates_date_texts :
  forall df0 raw0,
    get_col "date" df0 = Ok raw0 -> forallb date_text raw0 = true ->
    exists df' parsed0,
      parse_dates df0 = Ok df'
      /\ to_datetime_coerce raw0 = Ok parsed0
      /\ get_col "date" df' = Ok parsed0
      /\ get_col "month" df' = Ok (map dt_month parsed0)
      /\ get_col "day_of_week" df' = Ok (map dt_day_name parsed0)
      /\ forall i v,
           nth_error raw0 i = Some v -> unparseable v = true ->
           nth_error parsed0 i = Some VNaT
           /\ nth_error (map dt_month parsed0) i = Some VNaN
           /\ nth_error (map dt_day_name parsed0) i = Some VNaN.
Proof.
  intros df0 raw0 Hraw Htext.
  destruct (to_datetime_returns raw0 Htext) as [parsed0 Hp].
  destruct (parse_dates_total _ _ _ Hraw Hp) as [df' Hdf'].
  destruct (parse_dates_columns _ _ _ Hdf' Hraw) as [dates [Hd [Hg [Hm Hw]]]].
  rewrite Hp in Hd. injection Hd as <-.
  exists df', parsed0. repeat (split; [assumption|]).
  intros i v Hi Hu.
  pose proof (unparseable_gives_NaT _ _ _ _ Hp Hi Hu) as Hn.
  split; [exact Hn|]. rewrite !nth_error_map, Hn. now split.
Qed.

End DateRows.

(** Every instant lies in a day of the calendar, and [dt.month] is the
    month of that day. *)
Lemma instant_has_date :
  forall t,
    exists y m d ns,
      valid_date (y, m, d) = true
      /\ 0 <= ns < ns_per_day
      /\ t = days_from_civil y m d * ns_per_day + ns
      /\ dt_month (VTime t) = VInt m.
Proof.
  intros t. destruct (days_from_civil_of_civil (days_of_ns t)) as [Hv Hz].
  unfold dt_month, month_of.
  destruct (civil_from_days (days_of_ns t)) as [[y m] d]. cbn [fst snd] in *.
  exists y, m, d, (t mod ns_per_day). split; [exact Hv|].
  split; [apply Z.mod_pos_bound; reflexivity|]. split; [|reflexivity].
  rewrite Hz. unfold days_of_ns.
  rewrite Z.mul_comm. apply Z.div_mod. discriminate.
Qed.



Example blank_date_run :
  get_col "date" (fst blank_date_output)
  = Ok [VTime (19723 * ns_per_day); VTime (19523 * ns_per_day); VNaT]
  /\ get_col "month" (fst blank_date_output) = Ok [VInt 1; VInt 6; VNaN]
  /\ get_col "day_of_week" (fst blank_date_output)
     = Ok [VStr "Monday"; VStr "Thursday"; VNaN].
Proof. repeat split; reflexivity. Qed.

(** ** The final table: order and identifiers *)

Section OutputFacts.
Context {L : Library}.

(** Among the cells that hold a Timestamp, a later one stands before an
    earlier one. *)
Lemma sort_indexer_descending :
  forall keys p q a b,
    let sorted := map (fun i => nth i keys VNaN) (sort_indexer keys) in
    nth_error sorted p = Some (VTime a) ->
    nth_error sorted q = Some (VTime b) ->
    b < a -> (p < q)%nat.
Proof.
  intros keys p q a b sorted Hp Hq Hlt. subst sorted.
  destruct (sort_indexer_split keys) as [front [E [Hperm Hs]]].
  rewrite E, map_app in Hp, Hq.
  assert (Hfront : forall r t,
             nth_error (map (fun i => nth i keys VNaN) front
                        ++ map (fun i => nth i keys VNaN) (null_positions keys))
                       r = Some (VTime t) ->
             (r < List.length front)%nat
             /\ key_at keys (nth r front O) = t).
  { intros r t Hr.
    destruct (Nat.lt_ge_cases r (List.length front)) as [Hlen|Hlen].
    - split; [exact Hlen|].
      rewrite nth_error_app1 in Hr by now rewrite length_map.
      rewrite nth_error_map in Hr.
      rewrite (nth_error_nth' front O Hlen) in Hr. cbn in Hr.
      injection Hr as Hr. unfold key_at. now rewrite Hr.
    - exfalso. rewrite nth_error_app2 in Hr by now rewrite length_map.
      apply nth_error_In in Hr. apply in_map_iff in Hr.
      destruct Hr as [i [Hi Hin]]. apply null_positions_spec in Hin.
      destruct Hin as [_ Hna]. rewrite Hi in Hna. discriminate. }
  destruct (Hfront _ _ Hp) as [Hp1 Hp2].
  destruct (Hfront _ _ Hq) as [Hq1 Hq2].
  destruct (Nat.lt_total p q) as [H|[H|H]]; [exact H| |].
  - subst q. lia.
  - pose proof (StronglySorted_nth _ _ front O q p Hs H Hp1) as Hle.
    cbn beta in Hle. lia.
Qed.

Lemma clean_mapmf_data_ids :
  forall df out removed,
    clean_mapmf_data df = Ok (out, removed) ->
    exists T ids out_ids,
      transform df = Ok T
      /\ index T = index df
      /\ get_col "id" df = Ok ids
      /\ get_col "id" T = Ok ids
      /\ get_col "id" out = Ok out_ids
      /\ Permutation out_ids (distinct_keys ids)
      /\ Permutation (rows out) (map (row T) (first_occurrences ids))
      /\ nrows out = List.length (first_occurrences ids)
      /\ removed = (nrows df - List.length (first_occurrences ids))%nat.
Proof.
  intros df out removed H.
  destruct (clean_mapmf_data_stages _ _ _ H)
    as [T [ids [ds [HT [Hids [Hds [Hout Hrem]]]]]]].
  pose proof (transform_keeps_id _ _ HT) as K.
  assert (Hidx : index T = index df) by apply K.
  assert (Hids0 : get_col "id" df = Ok ids)
    by exact (keeps_get_col_back _ _ _ _ K Hids).
  set (idx1 := first_occurrences ids) in *.
  set (D := take_rows idx1 T) in *.
  destruct (get_col_take_rows_inv _ _ _ _ Hds) as [dT [_ Eds]].
  assert (Hlen : List.length ds = List.length idx1)
    by (rewrite Eds; apply length_map).
  pose proof (sort_indexer_perm ds) as Hperm. rewrite Hlen in Hperm.
  exists T, ids, (map (fun i => nth i (distinct_keys ids) VNaN) (sort_indexer ds)).
  split; [exact HT|]. split; [exact Hidx|]. split; [exact Hids0|].
  split; [exact Hids|]. subst out. split.
  { apply get_col_take_rows. unfold D. now apply get_col_take_rows. }
  split.
  { apply Permutation_map_nth. unfold distinct_keys. fold idx1.
    now rewrite length_map. }
  split.
  { rewrite rows_take_rows.
    eapply Permutation_trans; [apply Permutation_map, Hperm|].
    replace (map (row D) (seq 0 (List.length idx1))) with (rows D).
    - unfold D. rewrite rows_take_rows. apply Permutation_refl.
    - unfold rows, D. now rewrite nrows_take_rows. }
  split.
  { rewrite nrows_take_rows. rewrite (Permutation_length Hperm).
    apply length_seq. }
  rewrite Hrem. unfold nrows. now rewrite Hidx.
Qed.

End OutputFacts.

Module OutputExamples.

(** Two rows with the identifier 42 and different titles. *)
Definition duplicate_id_table : DataFrame :=
  frame 2
    [("id", [VInt 42; VInt 42]);
     ("title", [VStr "First report"; VStr "Second report"]);
     ("content", [VStr "x"; VStr "y"]);
     ("date", [VStr "2024-01-01"; VStr "2024-03-05"]);
     ("country", [VStr "FR"; VStr "DE"])].

Definition duplicate_id_output : DataFrame * nat :=
  Eval vm_compute in run duplicate_id_table.

Definition duplicate_id_transformed : DataFrame :=
  Eval vm_compute in transformed duplicate_id_table.

(** Three rows with distinct identifiers and the dates of the sorting
    scenario. *)
Definition three_dates_table : DataFrame :=
  frame 3
    [("id", [VInt 1; VInt 2; VInt 3]);
     ("title", [VStr "a"; VStr "b"; VStr "c"]);
     ("content", [VStr "x"; VStr "y"; VStr "z"]);
     ("date", [VStr "2024-01-01"; VStr "2023-06-15"; VStr "2024-06-01"]);
     ("country", [VStr "FR"; VStr "DE"; VStr "IT"])].

Definition three_dates_output : DataFrame * nat :=
  Eval vm_compute in run three_dates_table.

(** Four rows; the first and the third have no date. *)
Definition two_blank_dates_table : DataFrame :=
  frame 4
    [("id", [VInt 1; VInt 2; VInt 3; VInt 4]);
     ("title", [VStr "a"; VStr "b"; VStr "c"; VStr "d"]);
     ("content", [VStr "x"; VStr "y"; VStr "z"; VStr "w"]);
     ("date", [VNaN; VStr "2023-06-15"; VNaN; VStr "2024-06-01"]);
     ("country", [VStr "FR"; VStr "DE"; VStr "IT"; VStr "ES"])].

Definition two_blank_dates_output : DataFrame * nat :=
  Eval vm_compute in run two_blank_dates_table.

End OutputExamples.
Import OutputExamples.

(** C7.  When a run returns, its [date] column is in descending order: of
    two rows that hold Timestamps, the one with the later date stands
    first.  On three rows dated 2024-01-01, 2023-06-15 and 2024-06-01 with
    distinct identifiers the output order is 2024-06-01, 2024-01-01,
    2023-06-15. *)
Theorem output_sorted_by_date_descending :
  forall (L : Library) (df out : DataFrame) (removed : nat),
    clean_mapmf_data df = Ok (out, removed) ->
    (exists dates,
        get_col "date" out = Ok dates
        /\ forall p q a b,
             nth_error dates p = Some (VTime a) ->
             nth_error dates q = Some (VTime b) ->
             b < a -> (p < q)%nat)
    /\ clean_mapmf_data (L := RefLib) three_dates_table
       = Ok three_dates_output
    /\ get_col "date" (fst three_dates_output)
       = Ok [VTime (days_from_civil 2024 6 1 * ns_per_day);
             VTime (days_from_civil 2024 1 1 * ns_per_day);
             VTime (days_from_civil 2023 6 15 * ns_per_day)]
    /\ index (fst three_dates_output) = [2%nat; 0%nat; 1%nat].
Proof.
  intros L df out removed H. split; [|repeat split].
  destruct (clean_mapmf_data_stages _ _ _ H)
    as [T [ids [ds [HT [Hids [Hds [Hout Hrem]]]]]]].
  exists (map (fun i => nth i ds VNaN) (sort_indexer ds)). split.
  - subst out. now apply get_col_take_rows.
  - intros p q a b. apply sort_indexer_descending.
Qed.

Lemma output_sorted_by_date_descending_witness :
  exists dates,
    get_col "date" (fst three_dates_output) = Ok dates
    /\ forall p q a b,
         nth_error dates p = Some (VTime a) ->
         nth_error dates q = Some (VTime b) ->
         b < a -> (p < q)%nat.
Proof.
  apply (output_sorted_by_date_descending RefLib three_dates_table
           (fst three_dates_output) (snd three_dates_output)).
  vm_compute. reflexivity.
Defined.

(** C10.  When a run returns, the rows of the output are rows of the table
    [D] left after duplicates are removed: first rows whose date is not
    null, then every row whose date is null, and these last in the order of
    their positions in [D]. *)
Theorem null_dates_sort_last :
  forall (L : Library) (df out : DataFrame) (removed : nat),
    clean_mapmf_data df = Ok (out, removed) ->
    exists D dates front,
      (T <- transform df ;; drop_duplicates "id" T) = Ok D
      /\ get_col "date" D = Ok dates
      /\ sort_values_desc "date" D = Ok out
      /\ rows out
         = (map (row D) front ++ map (row D) (null_positions dates))%list
      /\ get_col "date" out
         = Ok (map (fun i => nth i dates VNaN) front
               ++ map (fun i => nth i dates VNaN) (null_positions dates))%list
      /\ Forall (fun i => isna_scalar (nth i dates VNaN) = false) front
      /\ (forall i,
             In i (null_positions dates) <->
             (i < List.length dates)%nat
             /\ isna_scalar (nth i dates VNaN) = true)
      /\ StronglySorted lt (null_positions dates).
Proof.
  intros L df out removed H.
  destruct (clean_mapmf_data_stages _ _ _ H)
    as [T [ids [ds [HT [Hids [Hds [Hout Hrem]]]]]]].
  destruct (sort_indexer_split ds) as [front [E [Hperm Hs]]].
  exists (take_rows (first_occurrences ids) T), ds, front.
  split.
  { rewrite HT. cbn [bind]. unfold drop_duplicates. now rewrite Hids. }
  split; [exact Hds|]. split.
  { unfold sort_values_desc. rewrite Hds. cbn [bind]. now subst out. }
  subst out. split.
  { now rewrite rows_take_rows, E, map_app. }
  split.
  { rewrite (get_col_take_rows _ _ _ _ Hds), E. now rewrite map_app. }
  split.
  { apply Forall_forall. intros i Hi.
    apply (Permutation_in _ Hperm) in Hi.
    now apply dated_positions_spec in Hi. }
  split; [apply null_positions_spec|apply null_positions_ascending].
Qed.

Lemma null_dates_sort_last_witness :
  exists D dates front,
    (T <- transform (L := RefLib) two_blank_dates_table ;;
     drop_duplicates "id" T) = Ok D
    /\ get_col "date" D = Ok dates
    /\ sort_values_desc "date" D = Ok (fst two_blank_dates_output)
    /\ rows (fst two_blank_dates_output)
       = (map (row D) front ++ map (row D) (null_positions dates))%list
    /\ get_col "date" (fst two_blank_dates_output)
       = Ok (map (fun i => nth i dates VNaN) front
             ++ map (fun i => nth i dates VNaN) (null_positions dates))%list
    /\ Forall (fun i => isna_scalar (nth i dates VNaN) = false) front
    /\ (forall i,
           In i (null_positions dates) <->
           (i < List.length dates)%nat
           /\ isna_scalar (nth i dates VNaN) = true)
    /\ StronglySorted lt (null_positions dates).
Proof.
  apply (null_dates_sort_last RefLib two_blank_dates_table
           (fst two_blank_dates_output) (snd two_blank_dates_output)).
  vm_compute. reflexivity.
Defined.

Example two_blank_dates_run :
  index (fst two_blank_dates_output) = [3%nat; 1%nat; 0%nat; 2%nat]
  /\ get_col "date" (fst two_blank_dates_output)
     = Ok [VTime (days_from_civil 2024 6 1 * ns_per_day);
           VTime (days_from_civil 2023 6 15 * ns_per_day); VNaT; VNaT].
Proof. split; reflexivity. Qed.

(** C1.  When a run on a well-formed table returns, every identifier of
    the input occurs exactly once in the output; the rows of the output are
    the rows, at the positions of first occurrence, of the table [T] that
    steps 1 to 8 make of the input row by row (a position is one of first
    occurrence when no earlier row has its identifier); and the count
    reported is the number of rows removed.  On two rows with the
    identifier 42 and different titles the output is the single row built
    from the first, and the count is 1. *)
Theorem duplicates_removed_first_wins :
  forall (L : Library) (df out : DataFrame) (removed : nat),
    well_formed df ->
    clean_mapmf_data df = Ok (out, removed) ->
    (exists T ids out_ids,
        transform df = Ok T
        /\ well_formed T
        /\ index T = index df
        /\ get_col "id" df = Ok ids
        /\ get_col "id" out = Ok out_ids
        /\ NoDup out_ids
        /\ (forall v, In v out_ids <-> In v ids)
        /\ Permutation (rows out) (map (row T) (first_occurrences ids))
        /\ (forall i,
               In i (first_occurrences ids) <->
               (i < List.length ids)%nat
               /\ forall j, (j < i)%nat -> nth j ids VNaN <> nth i ids VNaN)
        /\ removed = (List.length ids - List.length out_ids)%nat
        /\ (nrows out + removed = nrows df)%nat)
    /\ clean_mapmf_data (L := RefLib) duplicate_id_table
       = Ok duplicate_id_output
    /\ transform (L := RefLib) duplicate_id_table
       = Ok duplicate_id_transformed
    /\ snd duplicate_id_output = 1%nat
    /\ get_col "id" (fst duplicate_id_output) = Ok [VInt 42]
    /\ rows (fst duplicate_id_output) = [row duplicate_id_transformed 0]
    /\ get_col "title" (fst duplicate_id_output) = Ok [VStr "First report"].
Proof.
  intros L df out removed Hwf H. split; [|repeat split].
  destruct (clean_mapmf_data_ids _ _ _ H)
    as [T [ids [out_ids [HT [Hidx [Hids0 [Hids [Hout [Hperm [Hrows [Hn Hr]]]]]]]]]]].
  exists T, ids, out_ids.
  assert (Hlen : nrows df = List.length ids).
  { symmetry. unfold get_col in Hids0.
    destruct (lookup "id" (columns df)) as [vs|] eqn:E; [|discriminate].
    injection Hids0 as ->. exact (well_formed_lookup _ _ _ Hwf E). }
  assert (Hout_len : List.length out_ids = List.length (first_occurrences ids)).
  { rewrite (Permutation_length Hperm). unfold distinct_keys.
    apply length_map. }
  pose proof (first_occurrences_length ids) as Hle.
  split; [exact HT|]. split; [exact (proj2 (transform_shape _ _ HT) Hwf)|].
  split; [exact Hidx|]. split; [exact Hids0|].
  split; [exact Hout|]. split.
  { apply (Permutation_NoDup (Permutation_sym Hperm)), distinct_keys_NoDup. }
  split.
  { intros v. split; intros Hv.
    - apply distinct_keys_In. exact (Permutation_in _ Hperm Hv).
    - apply (Permutation_in _ (Permutation_sym Hperm)).
      now apply distinct_keys_In. }
  split; [exact Hrows|]. split; [apply first_occurrences_spec|].
  split; lia.
Qed.

Lemma duplicates_removed_first_wins_witness :
  exists T ids out_ids,
    transform (L := RefLib) duplicate_id_table = Ok T
    /\ well_formed T
    /\ index T = index duplicate_id_table
    /\ get_col "id" duplicate_id_table = Ok ids
    /\ get_col "id" (fst duplicate_id_output) = Ok out_ids
    /\ NoDup out_ids
    /\ (forall v, In v out_ids <-> In v ids)
    /\ Permutation (rows (fst duplicate_id_output))
                   (map (row T) (first_occurrences ids))
    /\ (forall i,
           In i (first_occurrences ids) <->
           (i < List.length ids)%nat
           /\ forall j, (j < i)%nat -> nth j ids VNaN <> nth i ids VNaN)
    /\ snd duplicate_id_output
       = (List.length ids - List.length out_ids)%nat
    /\ (nrows (fst duplicate_id_output) + snd duplicate_id_output
        = nrows duplicate_id_table)%nat.
Proof.
  apply (duplicates_removed_first_wins RefLib duplicate_id_table
           (fst duplicate_id_output) (snd duplicate_id_output)).
  - unfold well_formed. vm_compute. repeat constructor.
  - vm_compute. reflexivity.
Defined.

(** ** Running the normaliser on its own output *)

Module RerunExamples.

(** The second run, on the table the first run returned. *)
Definition three_dates_rerun : DataFrame * nat :=
  Eval vm_compute in run (fst three_dates_output).

End RerunExamples.
Import RerunExamples.

(** C3, as amended.  A second run on a well-formed table that has the
    [id] column of the first output (the output itself, or the file read
    back) removes no row when it returns: the row count is unchanged and the
    identifiers are the same.  A pipe-joined list cell read back as text is
    not a literal, and decodes to the empty sequence. *)
Theorem second_run_keeps_rows_and_ids :
  forall (L : Library) (df out df2 out2 : DataFrame)
         (removed removed2 : nat) (ids : column),
    clean_mapmf_data df = Ok (out, removed) ->
    get_col "id" out = Ok ids ->
    well_formed df2 ->
    get_col "id" df2 = Ok ids ->
    clean_mapmf_data df2 = Ok (out2, removed2) ->
    (removed2 = 0%nat
     /\ nrows out2 = nrows out
     /\ exists ids2, get_col "id" out2 = Ok ids2 /\ Permutation ids2 ids)
    /\ parse_list_column (VStr "A | B") = Ok (VList [])
    /\ parse_list_column (VStr "Physical assault | Legal incident")
       = Ok (VList []).
Proof.
  intros L df out df2 out2 removed removed2 ids H1 Hout Hwf Hids2 H2.
  split; [|split].
  2: exact (parse_list_column_text "A | B" _ eq_refl).
  2: exact (parse_list_column_text "Physical assault | Legal incident" _ eq_refl).
  destruct (clean_mapmf_data_ids _ _ _ H1)
    as [T [ids0 [out_ids [_ [_ [_ [_ [Hout' [Hperm [_ [Hn _]]]]]]]]]]].
  rewrite Hout in Hout'. injection Hout' as <-.
  assert (Hnd : NoDup ids).
  { apply (Permutation_NoDup (Permutation_sym Hperm)), distinct_keys_NoDup. }
  assert (Hlen : nrows out = List.length ids).
  { rewrite Hn, (Permutation_length Hperm). unfold distinct_keys.
    now rewrite length_map. }
  destruct (clean_mapmf_data_ids _ _ _ H2)
    as [T2 [ids' [ids2 [_ [_ [Hids' [_ [Hout2 [Hperm2 [_ [Hn2 Hr2]]]]]]]]]]].
  rewrite Hids2 in Hids'. injection Hids' as <-.
  pose proof (first_occurrences_NoDup_keys ids Hnd) as Hall.
  assert (Hrows2 : nrows df2 = List.length ids).
  { symmetry. unfold get_col in Hids2.
    destruct (lookup "id" (columns df2)) as [vs|] eqn:E; [|discriminate].
    injection Hids2 as ->. exact (well_formed_lookup _ _ _ Hwf E). }
  rewrite Hall, length_seq in Hn2, Hr2.
  split; [lia|]. split; [lia|].
  exists ids2. split; [exact Hout2|].
  unfold distinct_keys in Hperm2. rewrite Hall, map_nth_seq in Hperm2.
  exact Hperm2.
Qed.

Lemma second_run_keeps_rows_and_ids_witness :
  snd three_dates_rerun = 0%nat
  /\ nrows (fst three_dates_rerun) = nrows (fst three_dates_output)
  /\ exists ids2,
       get_col "id" (fst three_dates_rerun) = Ok ids2
       /\ Permutation ids2 [VInt 3; VInt 1; VInt 2].
Proof.
  apply (second_run_keeps_rows_and_ids RefLib three_dates_table
           (fst three_dates_output) (fst three_dates_output)
           (fst three_dates_rerun) (snd three_dates_output)
           (snd three_dates_rerun) [VInt 3; VInt 1; VInt 2]).
  - vm_compute. reflexivity.
  - vm_compute. reflexivity.
  - unfold well_formed. vm_compute. repeat constructor.
  - vm_compute. reflexivity.
  - vm_compute. reflexivity.
Defined.

(** The cell A | B does not decode to a sequence of one element: the names
    joined by [|] are a malformed node, and the cell becomes the empty
    list. *)
Lemma pipe_joined_cell_is_not_single :
  parse_list_column (L := RefLib) (VStr "A | B") = Ok (VList [])
  /\ ~ (exists x,
           parse_list_column (L := RefLib) (VStr "A | B") = Ok (VList [x])).
Proof.
  split; [reflexivity|]. intros [x H]. vm_compute in H. discriminate.
Qed.

(** ** The retriever's loop *)

Module ScraperFacts.
Import Scraper.

Section LoopFacts.
Variable server : Type.
Variable fetch_alerts : server -> Z -> Z -> option response * server.

(** A turn that goes on has stored at least one more record. *)
Lemma iteration_continue_grows :
  forall target_count (st st' : state server),
    iteration fetch_alerts target_count st = Continue st' ->
    (remaining target_count st' < remaining target_count st)%nat.
Proof.
  intros target_count st st'. unfold iteration, remaining.
  destruct (Z.ltb_spec (Z.of_nat (List.length (all_alerts st))) target_count)
    as [Hlt|Hge]; [|discriminate].
  destruct (fetch_alerts _ _ _) as [[r|] w]; [|discriminate].
  destruct (hits r) as [[|h hs]|]; try discriminate.
  cbn [all_alerts offset remote].
  destruct (_ >=? _); [discriminate|].
  intros H. injection H as <-. cbn [all_alerts].
  rewrite length_app. cbn [List.length]. lia.
Qed.

Lemma scrape_loop_enough_fuel :
  forall fuel target_count (st : state server),
    (remaining target_count st < fuel)%nat ->
    exists why st', scrape_loop fetch_alerts fuel target_count st = Some (why, st').
Proof.
  induction fuel as [|fuel IH]; intros target_count st Hfuel; [lia|].
  cbn [scrape_loop].
  destruct (iteration fetch_alerts target_count st) as [why st'|st'] eqn:E.
  - now exists why, st'.
  - apply IH. apply iteration_continue_grows in E. lia.
Qed.

(** The result does not depend on the fuel left over. *)
Lemma scrape_loop_more_fuel :
  forall fuel extra target_count (st : state server) r,
    scrape_loop fetch_alerts fuel target_count st = Some r ->
    scrape_loop fetch_alerts (fuel + extra) target_count st = Some r.
Proof.
  induction fuel as [|fuel IH]; intros extra target_count st r H;
    [discriminate|].
  cbn [scrape_loop Nat.add] in *.
  destruct (iteration fetch_alerts target_count st) as [why st'|st'];
    [exact H|now apply IH].
Qed.

Lemma stops_iff :
  forall target_count (st : state server),
    stops fetch_alerts target_count st <->
    target_reached target_count st \/ fetch_failed fetch_alerts st
    \/ page_empty fetch_alerts st \/ end_of_data fetch_alerts st.
Proof.
  intros target_count st.
  unfold stops, target_reached, fetch_failed, page_empty, end_of_data, page,
    iteration.
  destruct (Z.ltb_spec (Z.of_nat (List.length (all_alerts st))) target_count)
    as [Hlt|Hge].
  2:{ split; [intros _; left; lia | intros _; eauto]. }
  destruct (fetch_alerts _ _ _) as [[r|] w]; cbn [fst].
  2:{ split; [intros _; right; left; now left | intros _; eauto]. }
  destruct (hits r) as [[|h hs]|] eqn:Hh.
  - split; [intros _| intros _; eauto].
    right; right; left. exists r. now split.
  - cbn [all_alerts offset remote].
    destruct (Z.geb_spec (offset st + batch_size)
                match estimatedTotalHits r with Some n => n | None => 0 end)
      as [Hend|Hmore].
    + split; [intros _| intros _; eauto].
      right; right; right. exists r. split; [reflexivity|lia].
    + split.
      * intros [why [st' H]]. discriminate.
      * intros [H|[[H|[r' [H H']]]|[[r' [H H']]|[r' [H H']]]]].
        -- lia.
        -- discriminate.
        -- injection H as <-. congruence.
        -- injection H as <-. congruence.
        -- injection H as <-. lia.
  - split; [intros _| intros _; eauto].
    right; left; right. exists r. now split.
Qed.

Lemma iteration_stop_reason :
  forall target_count (st st' : state server) why,
    iteration fetch_alerts target_count st = Stop why st' ->
    reason_holds fetch_alerts why target_count st.
Proof.
  intros target_count st st' why.
  unfold reason_holds, target_reached, fetch_failed, page_empty, end_of_data,
    page, iteration.
  destruct (Z.ltb_spec (Z.of_nat (List.length (all_alerts st))) target_count)
    as [Hlt|Hge].
  2:{ intros H. injection H as <- _. exact Hge. }
  destruct (fetch_alerts _ _ _) as [[r|] w]; cbn [fst].
  2:{ intros H. injection H as <- _. split; [lia|now left]. }
  destruct (hits r) as [[|h hs]|] eqn:Hh.
  - intros H. injection H as <- _. split; [lia|]. exists r. now split.
  - cbn [all_alerts offset remote].
    destruct (Z.geb_spec (offset st + batch_size)
                match estimatedTotalHits r with Some n => n | None => 0 end)
      as [Hend|Hmore]; [|discriminate].
    intros H. injection H as <- _. split; [lia|]. split; [|split].
    + intros [X|[r' [X Y]]]; [discriminate|].
      injection X as <-. congruence.
    + intros [r' [X Y]]. injection X as <-. congruence.
    + exists r. split; [reflexivity|lia].
  - intros H. injection H as <- _. split; [lia|]. right. exists r. now split.
Qed.

Lemma iteration_continue_policy :
  forall target_count (st st' : state server),
    iteration fetch_alerts target_count st = Continue st' ->
    ~ policy fetch_alerts target_count st.
Proof.
  intros target_count st st' H Hp.
  apply (proj2 (stops_iff target_count st)) in Hp.
  destruct Hp as [why [st'' Hs]]. congruence.
Qed.

(** The loop is the sequence of its turns: it goes on while none of the
    four conditions holds and ends at the first head of a turn where one
    does, with the reason and the state that turn gives. *)
Lemma scrape_loop_trace :
  forall n target_count (st : state server),
    (remaining target_count st <= n)%nat ->
    exists (turns : nat) (last : state server) why st',
      (turns <= remaining target_count st)%nat
      /\ head_of_turn fetch_alerts turns target_count st = Some last
      /\ (forall k st_k,
             (k < turns)%nat ->
             head_of_turn fetch_alerts k target_count st = Some st_k ->
             ~ policy fetch_alerts target_count st_k)
      /\ policy fetch_alerts target_count last
      /\ iteration fetch_alerts target_count last = Stop why st'
      /\ reason_holds fetch_alerts why target_count last
      /\ forall fuel,
           scrape_loop fetch_alerts fuel target_count st
           = if (turns <? fuel)%nat then Some (why, st') else None.
Proof.
  induction n as [|n IH]; intros target_count st Hn.
  - destruct (iteration fetch_alerts target_count st) as [why st'|st'] eqn:E.
    2:{ apply iteration_continue_grows in E. lia. }
    exists O, st, why, st'. split; [lia|]. split; [reflexivity|].
    split; [intros k st_k Hk; lia|].
    split; [apply stops_iff; now exists why, st'|].
    split; [exact E|]. split; [exact (iteration_stop_reason _ _ _ _ E)|].
    intros [|fuel]; [reflexivity|]. cbn [scrape_loop]. now rewrite E.
  - destruct (iteration fetch_alerts target_count st) as [why st'|st1] eqn:E.
    + exists O, st, why, st'. split; [lia|]. split; [reflexivity|].
      split; [intros k st_k Hk; lia|].
      split; [apply stops_iff; now exists why, st'|].
      split; [exact E|]. split; [exact (iteration_stop_reason _ _ _ _ E)|].
      intros [|fuel]; [reflexivity|]. cbn [scrape_loop]. now rewrite E.
    + pose proof (iteration_continue_grows _ _ _ E) as Hlt.
      destruct (IH target_count st1 ltac:(lia))
        as [turns [last [why [st' [Ht [Hh [Hgo [Hp [Hs [Hr Hf]]]]]]]]]].
      exists (S turns), last, why, st'. split; [lia|].
      split; [cbn [head_of_turn]; now rewrite E|].
      split.
      { intros [|k] st_k Hk Hk'.
        - cbn [head_of_turn] in Hk'. injection Hk' as <-.
          exact (iteration_continue_policy _ _ _ E).
        - cbn [head_of_turn] in Hk'. rewrite E in Hk'.
          apply (Hgo k st_k); [lia|exact Hk']. }
      split; [exact Hp|]. split; [exact Hs|]. split; [exact Hr|].
      intros [|fuel]; [reflexivity|]. cbn [scrape_loop]. rewrite E.
      rewrite Hf. reflexivity.
Qed.

End LoopFacts.

(** A service with two records on every page and an estimated total of
    2500: the third page, at offset 2000, ends the loop. *)
Definition two_per_page (calls : nat) (offset limit : Z)
  : option response * nat :=
  (Some {| hits := Some [VInt offset; VInt (offset + 1)];
           estimatedTotalHits := Some 2500 |}, S calls).

Example two_per_page_run :
  scrape_all_alerts two_per_page 10 11393 O
  = Some (ReachedEnd,
          {| all_alerts := [VInt 0; VInt 1; VInt 1000; VInt 1001;
                            VInt 2000; VInt 2001];
             offset := 2000; remote := 3%nat |}).
Proof. reflexivity. Qed.

(** C8.  The accumulation loop of [scrape_all_alerts] terminates whatever the
    service answers, and it stops exactly when one of the four conditions
    holds.  From any state the loop is a sequence of turns, no more than the
    records still missing from the target: at the head of each turn before
    the last none of the conditions holds (the target is reached, the fetch
    fails, the page is empty, [offset + limit] is at least the estimated
    total of the page) and the loop goes on; at the head of the last one of
    them holds and the loop ends there, with the reason that names the
    first condition that holds in the order the loop tests them and with the
    state that turn leaves.  The loop returns that result with any fuel
    above the number of turns and none with less, so [target_count] plus
    one is enough from the initial state.  A single turn stops the loop
    exactly when one of the four conditions holds. *)
Theorem scrape_loop_termination_policy :
  forall (server : Type)
         (fetch_alerts : server -> Z -> Z -> option response * server)
         (target_count : Z),
    (forall st : state server,
        exists (turns : nat) (last : state server) why st',
          (turns <= remaining target_count st)%nat
          /\ head_of_turn fetch_alerts turns target_count st = Some last
          /\ (forall k st_k,
                 (k < turns)%nat ->
                 head_of_turn fetch_alerts k target_count st = Some st_k ->
                 ~ policy fetch_alerts target_count st_k)
          /\ policy fetch_alerts target_count last
          /\ iteration fetch_alerts target_count last = Stop why st'
          /\ reason_holds fetch_alerts why target_count last
          /\ forall fuel,
               scrape_loop fetch_alerts fuel target_count st
               = if (turns <? fuel)%nat then Some (why, st') else None)
    /\ (forall st : state server,
           exists why st',
             forall extra,
               scrape_loop fetch_alerts (S (remaining target_count st) + extra)
                 target_count st
               = Some (why, st'))
    /\ (forall w : server,
           exists why st',
             forall extra,
               scrape_all_alerts fetch_alerts
                 (S (Z.to_nat target_count) + extra) target_count w
               = Some (why, st'))
    /\ (forall st : state server,
           stops fetch_alerts target_count st <->
           target_reached target_count st \/ fetch_failed fetch_alerts st
           \/ page_empty fetch_alerts st \/ end_of_data fetch_alerts st).
Proof.
  intros server fetch_alerts target_count. split; [|split; [|split]].
  - intros st.
    exact (scrape_loop_trace server fetch_alerts
             (remaining target_count st) target_count st (Nat.le_refl _)).
  - intros st.
    destruct (scrape_loop_enough_fuel server fetch_alerts
                (S (remaining target_count st)) target_count st)
      as [why [st' H]]; [lia|].
    exists why, st'. intros extra. now apply scrape_loop_more_fuel.
  - intros w. unfold scrape_all_alerts.
    destruct (scrape_loop_enough_fuel server fetch_alerts
                (S (Z.to_nat target_count)) target_count
                {| all_alerts := []; offset := 0; remote := w |})
      as [why [st' H]].
    { unfold remaining. cbn [all_alerts List.length]. lia. }
    exists why, st'. intros extra. now apply scrape_loop_more_fuel.
  - apply stops_iff.
Qed.

(** The service of [two_per_page]: two turns go on and the third ends the
    loop at the end of the data. *)
Example two_per_page_turns :
  head_of_turn two_per_page 2 11393
    {| all_alerts := []; offset := 0; remote := O |}
  = Some {| all_alerts := [VInt 0; VInt 1; VInt 1000; VInt 1001];
            offset := 2000; remote := 2%nat |}
  /\ scrape_all_alerts two_per_page 2 11393 O = None
  /\ scrape_all_alerts two_per_page 3 11393 O
     = Some (ReachedEnd,
             {| all_alerts := [VInt 0; VInt 1; VInt 1000; VInt 1001;
                               VInt 2000; VInt 2001];
                offset := 2000; remote := 3%nat |}).
Proof. repeat split. Qed.

End ScraperFacts.

(** * Further properties of the two programs *)

(** ** Cleaned text *)

Module TextShape.

(** The last character is white space. *)
Fixpoint ends_with_space (s : string) : bool :=
  match s with
  | EmptyString => false
  | String c EmptyString => is_space c
  | String _ s' => ends_with_space s'
  end.

(** Two white-space characters stand side by side somewhere. *)
Fixpoint has_space_run (s : string) : bool :=
  match s with
  | EmptyString => false
  | String a s' =>
      ((is_space a && starts_with is_space s') || has_space_run s')%bool
  end.

(** Some white-space character is not the space. *)
Fixpoint has_odd_space (s : string) : bool :=
  match s with
  | EmptyString => false
  | String a s' =>
      ((is_space a && negb (Ascii.eqb a " ")) || has_odd_space s')%bool
  end.

(** Words separated by single spaces, with no space at either end. *)
Definition tidy (s : string) : bool :=
  (negb (starts_with is_space s) && negb (ends_with_space s)
   && negb (has_space_run s) && negb (has_odd_space s))%bool.

End TextShape.
Import TextShape.

Section TextFacts.

Lemma collapse_true_start :
  forall s, starts_with is_space (collapse_spaces true s) = false.
Proof.
  induction s as [|c s IH]; [reflexivity|]. cbn [collapse_spaces].
  destruct (is_space c) eqn:E; [exact IH|]. cbn [starts_with]. exact E.
Qed.

Lemma collapse_no_run :
  forall s p, has_space_run (collapse_spaces p s) = false.
Proof.
  induction s as [|c s IH]; intros p; [reflexivity|]. cbn [collapse_spaces].
  destruct (is_space c) eqn:E.
  - destruct p; [apply IH|]. cbn [has_space_run].
    rewrite collapse_true_start, IH. now rewrite andb_false_r.
  - cbn [has_space_run]. now rewrite E, IH.
Qed.

Lemma collapse_no_odd :
  forall s p, has_odd_space (collapse_spaces p s) = false.
Proof.
  induction s as [|c s IH]; intros p; [reflexivity|]. cbn [collapse_spaces].
  destruct (is_space c) eqn:E.
  - destruct p; [apply IH|]. cbn [has_odd_space]. now rewrite IH.
  - cbn [has_odd_space]. now rewrite E, IH.
Qed.

Lemma lstrip_start : forall s, starts_with is_space (lstrip s) = false.
Proof.
  induction s as [|c s IH]; [reflexivity|]. cbn [lstrip].
  destruct (is_space c) eqn:E; [exact IH|]. cbn [starts_with]. exact E.
Qed.

Lemma lstrip_no_run :
  forall s, has_space_run s = false -> has_space_run (lstrip s) = false.
Proof.
  induction s as [|c s IH]; intros H; [reflexivity|]. cbn [lstrip].
  destruct (is_space c); [|exact H].
  cbn [has_space_run] in H. apply orb_false_elim in H. now apply IH.
Qed.

Lemma lstrip_no_odd :
  forall s, has_odd_space s = false -> has_odd_space (lstrip s) = false.
Proof.
  induction s as [|c s IH]; intros H; [reflexivity|]. cbn [lstrip].
  destruct (is_space c); [|exact H].
  cbn [has_odd_space] in H. apply orb_false_elim in H. now apply IH.
Qed.

Lemma rstrip_cons :
  forall c s,
    rstrip (String c s)
    = match rstrip s with
      | EmptyString => if is_space c then EmptyString else String c EmptyString
      | r => String c r
      end.
Proof. reflexivity. Qed.

Lemma rstrip_end : forall s, ends_with_space (rstrip s) = false.
Proof.
  induction s as [|c s IH]; [reflexivity|]. rewrite rstrip_cons.
  destruct (rstrip s) as [|d r] eqn:R.
  - destruct (is_space c) eqn:E; [reflexivity|]. cbn. exact E.
  - cbn [ends_with_space] in *. exact IH.
Qed.

Lemma rstrip_start :
  forall s,
    starts_with is_space s = false -> starts_with is_space (rstrip s) = false.
Proof.
  intros [|c s] H; [reflexivity|]. rewrite rstrip_cons. cbn [starts_with] in H.
  destruct (rstrip s); [now rewrite H|exact H].
Qed.

Lemma rstrip_starts_le :
  forall s,
    starts_with is_space (rstrip s) = true -> starts_with is_space s = true.
Proof.
  intros s H. destruct (starts_with is_space s) eqn:E; [reflexivity|].
  now rewrite (rstrip_start s E) in H.
Qed.

Lemma rstrip_no_run :
  forall s, has_space_run s = false -> has_space_run (rstrip s) = false.
Proof.
  induction s as [|c s IH]; intros H; [reflexivity|]. rewrite rstrip_cons.
  cbn [has_space_run] in H. apply orb_false_elim in H. destruct H as [H1 H2].
  specialize (IH H2).
  destruct (rstrip s) as [|d r] eqn:R.
  - destruct (is_space c) eqn:E; [reflexivity|].
    cbn [has_space_run]. now rewrite E.
  - cbn [has_space_run] in *. rewrite IH, orb_false_r.
    apply andb_false_iff in H1. destruct H1 as [H1|H1]; [now rewrite H1|].
    cbn [starts_with].
    destruct (is_space d) eqn:D; [|now rewrite andb_false_r].
    assert (X : starts_with is_space (rstrip s) = true) by now rewrite R.
    apply rstrip_starts_le in X. congruence.
Qed.

Lemma rstrip_no_odd :
  forall s, has_odd_space s = false -> has_odd_space (rstrip s) = false.
Proof.
  induction s as [|c s IH]; intros H; [reflexivity|]. rewrite rstrip_cons.
  cbn [has_odd_space] in H. apply orb_false_elim in H. destruct H as [H1 H2].
  specialize (IH H2).
  destruct (rstrip s) as [|d r] eqn:R.
  - destruct (is_space c) eqn:E; [reflexivity|]. cbn [has_odd_space].
    now rewrite E.
  - cbn [has_odd_space] in *. now rewrite H1, IH.
Qed.

Lemma tidy_strip_collapse :
  forall s, tidy (strip (collapse_spaces false s)) = true.
Proof.
  intros s. unfold tidy, strip.
  rewrite rstrip_start by apply lstrip_start.
  rewrite rstrip_end.
  rewrite rstrip_no_run by apply lstrip_no_run, collapse_no_run.
  rewrite rstrip_no_odd by apply lstrip_no_odd, collapse_no_odd.
  reflexivity.
Qed.

(** A tidy text is left as it is by the two passes. *)
Lemma collapse_tidy :
  forall s p,
    has_space_run s = false -> has_odd_space s = false ->
    (p = true -> starts_with is_space s = false) ->
    collapse_spaces p s = s.
Proof.
  induction s as [|c s IH]; intros p Hr Ho Hp; [reflexivity|].
  cbn [collapse_spaces]. cbn [has_space_run has_odd_space] in Hr, Ho.
  apply orb_false_elim in Hr. destruct Hr as [Hr1 Hr2].
  apply orb_false_elim in Ho. destruct Ho as [Ho1 Ho2].
  destruct (is_space c) eqn:E.
  - destruct p; [specialize (Hp eq_refl); cbn in Hp; congruence|].
    cbn [andb] in Hr1, Ho1. apply negb_false_iff in Ho1.
    apply Ascii.eqb_eq in Ho1. subst c.
    f_equal. apply IH; auto.
  - f_equal. apply IH; auto. discriminate.
Qed.

Lemma lstrip_tidy :
  forall s, starts_with is_space s = false -> lstrip s = s.
Proof. intros [|c s] H; [reflexivity|]. cbn in *. now rewrite H. Qed.

Lemma rstrip_tidy :
  forall s, ends_with_space s = false -> rstrip s = s.
Proof.
  induction s as [|c s IH]; intros H; [reflexivity|]. rewrite rstrip_cons.
  destruct s as [|d r].
  - cbn in *. now rewrite H.
  - cbn [ends_with_space] in H. rewrite (IH H). reflexivity.
Qed.

Lemma strip_collapse_tidy :
  forall s, tidy s = true -> strip (collapse_spaces false s) = s.
Proof.
  intros s H. unfold tidy in H.
  repeat (apply andb_true_iff in H; destruct H as [H ?]).
  repeat match goal with
         | X : negb _ = true |- _ => apply negb_true_iff in X
         end.
  rewrite collapse_tidy by (auto; discriminate).
  unfold strip. rewrite lstrip_tidy by assumption. now apply rstrip_tidy.
Qed.

End TextFacts.

(** X1.  On a cell that is not a list [clean_text] never raises and
    returns a text that is tidy: no white space at either end, no two
    white-space characters side by side, and no white space other than the
    space; a null cell gives the empty text. *)
Theorem clean_text_tidy :
  forall (L : Library) (text : value),
    is_list text = false ->
    exists s,
      clean_text text = Ok (VStr s)
      /\ tidy s = true
      /\ (isna_scalar text = true -> s = "").
Proof.
  intros L text Hl. unfold clean_text.
  assert (Hna : isna_truth text = Ok (isna_scalar text))
    by (destruct text; try reflexivity; discriminate).
  rewrite Hna. cbn [bind].
  destruct (isna_scalar text).
  - exists "". repeat split; reflexivity.
  - eexists. split; [reflexivity|]. split; [apply tidy_strip_collapse|].
    discriminate.
Qed.

Lemma clean_text_tidy_witness :
  exists s,
    clean_text (L := RefLib) (VStr "  Tom &amp;   Jerry ") = Ok (VStr s)
    /\ tidy s = true
    /\ (isna_scalar (VStr "  Tom &amp;   Jerry ") = true -> s = "").
Proof.
  apply (clean_text_tidy RefLib (VStr "  Tom &amp;   Jerry ")). reflexivity.
Defined.

Example clean_text_run :
  clean_text (L := RefLib) (VStr "  Tom &amp;   Jerry ")
  = Ok (VStr "Tom & Jerry").
Proof. reflexivity. Qed.

(** X2.  Cleaning is idempotent on its results that hold no ampersand: such
    a text, cleaned again, is returned as it is. *)
Theorem clean_text_idempotent :
  forall (L : Library) (text : value) (s : string),
    clean_text text = Ok (VStr s) ->
    has_char "&" s = false ->
    clean_text (VStr s) = Ok (VStr s).
Proof.
  intros L text s H Hamp.
  assert (Htidy : tidy s = true).
  { unfold clean_text in H. destruct (isna_truth text) as [[|]|e];
      cbn [bind] in H; try discriminate; injection H as <-;
      [reflexivity|apply tidy_strip_collapse]. }
  unfold clean_text. cbn [isna_truth isna_scalar bind py_str].
  rewrite (unescape_plain s Hamp). now rewrite strip_collapse_tidy.
Qed.

Lemma clean_text_idempotent_witness :
  clean_text (L := RefLib) (VStr "a b") = Ok (VStr "a b").
Proof.
  apply (clean_text_idempotent RefLib (VStr "  a   b ") "a b"); reflexivity.
Defined.

(** ** Gender tallies *)

Section TallyFacts.

Lemma contains_cons :
  forall needle c hay,
    contains needle hay = true -> contains needle (String c hay) = true.
Proof.
  intros needle c hay H. cbn [contains].
  destruct (String.prefix needle (String c hay)); [reflexivity|exact H].
Qed.

(** Whatever holds "woman" holds "man". *)
Lemma contains_woman_man :
  forall s, contains "woman" s = true -> contains "man" s = true.
Proof.
  induction s as [|c s IH]; intros H; [discriminate|].
  cbn [contains] in H.
  destruct (String.prefix "woman" (String c s)) eqn:P.
  - clear H IH.
    destruct s as [|c2 [|c3 [|c4 [|c5 r]]]]; cbn in P;
      repeat match type of P with
             | (if ?d then _ else _) = true => destruct d; [subst|discriminate]
             end; try discriminate.
    do 2 apply contains_cons. destruct r; reflexivity.
  - apply contains_cons. now apply IH.
Qed.

Lemma filter_length_le_weaker :
  forall (A : Type) (p q : A -> bool) l,
    (forall x, p x = true -> q x = true) ->
    (List.length (filter p l) <= List.length (filter q l))%nat.
Proof.
  intros A p q l H. induction l as [|x l IH]; [apply Nat.le_refl|].
  cbn [filter]. destruct (p x) eqn:P.
  - rewrite (H x P). cbn [List.length]. lia.
  - destruct (q x); cbn [List.length]; lia.
Qed.

End TallyFacts.

(** X3.  For every value of the gender cell the two tallies are numbers
    with [gender_female_count <= gender_male_count]: an element that holds
    "woman" holds "man".  The male tally is at most the length of the list,
    and both are 0 when the cell is not a list. *)
Theorem gender_tallies_ordered :
  forall gender_list : value,
    exists m f : Z,
      count_gender gender_list "man" = VInt m
      /\ count_gender gender_list "woman" = VInt f
      /\ 0 <= f <= m
      /\ (forall l, gender_list = VList l -> m <= Z.of_nat (List.length l))
      /\ (is_list gender_list = false -> m = 0 /\ f = 0).
Proof.
  intros g. unfold count_gender.
  destruct g as [| | |b|z|s|t|l|d];
    try (exists 0, 0; repeat split; (reflexivity || lia || discriminate)).
  eexists. eexists. split; [reflexivity|]. split; [reflexivity|].
  split; [|split].
  - split; [lia|]. apply inj_le. apply filter_length_le_weaker.
    intros x Hx. apply andb_true_iff in Hx. destruct Hx as [Ht Hc].
    rewrite Ht. cbn [andb]. now apply contains_woman_man.
  - intros l' E. injection E as <-. apply inj_le, filter_length_le.
  - discriminate.
Qed.

(** ** Relations the steps of the pipeline respect *)

Section Respect.
Context {L : Library}.
Variable R : DataFrame -> DataFrame -> Prop.
Hypothesis R_refl : forall df, R df df.
Hypothesis R_trans : forall a b c, R a b -> R b c -> R a c.

Definition respects (k : DataFrame -> result DataFrame) : Prop :=
  forall df df', k df = Ok df' -> R df df'.

Lemma respects_when_col :
  forall col k, respects k -> respects (when_col col k).
Proof.
  intros col k Hk df df'. unfold when_col.
  destruct (has_col col df); [apply Hk|].
  intros H. injection H as <-. apply R_refl.
Qed.

Lemma respects_bind :
  forall k1 k2,
    respects k1 -> respects k2 -> respects (fun df => bind (k1 df) k2).
Proof.
  intros k1 k2 H1 H2 df df' H. apply bind_Ok in H.
  destruct H as [d [E1 E2]]. exact (R_trans _ _ _ (H1 _ _ E1) (H2 _ _ E2)).
Qed.

Lemma respects_foldM :
  forall (k : string -> DataFrame -> result DataFrame) cols,
    (forall col, respects (k col)) ->
    respects (foldM (fun df col => k col df) cols).
Proof.
  intros k cols H. induction cols as [|col cols IH]; cbn [foldM].
  - intros df df' E. injection E as <-. apply R_refl.
  - apply (respects_bind (k col) _ (H col) IH).
Qed.

End Respect.

Section NameFacts.
Context {L : Library}.

(** The two tables have the same columns in the same order. *)
Definition same_names (df df' : DataFrame) : Prop :=
  map fst (columns df') = map fst (columns df).

Lemma same_names_refl : forall df, same_names df df.
Proof. reflexivity. Qed.

Lemma same_names_trans :
  forall a b c, same_names a b -> same_names b c -> same_names a c.
Proof. unfold same_names. intros a b c H1 H2. congruence. Qed.

Lemma assign_names_present :
  forall c vs cols ws,
    lookup c cols = Some ws -> map fst (assign c vs cols) = map fst cols.
Proof.
  intros c vs cols ws. induction cols as [|[c' vs'] r IH]; cbn; [discriminate|].
  destruct (String.eqb c c') eqn:E; [reflexivity|].
  intros H. cbn. now rewrite (IH H).
Qed.

Lemma assign_names_absent :
  forall c vs cols,
    lookup c cols = None ->
    map fst (assign c vs cols) = (map fst cols ++ [c])%list.
Proof.
  intros c vs cols. induction cols as [|[c' vs'] r IH]; cbn; [reflexivity|].
  destruct (String.eqb c c') eqn:E; [discriminate|].
  intros H. cbn. now rewrite (IH H).
Qed.

(** Rewriting a column in place keeps the columns where they are. *)
Lemma apply_col_in_place :
  forall f c, respects same_names (apply_col f c c).
Proof.
  intros f c df df' H. unfold apply_col, get_col in H.
  destruct (lookup c (columns df)) as [vs|] eqn:E; [|discriminate].
  cbn [bind] in H. destruct (mapM f vs) as [ws|e]; [|discriminate].
  cbn [bind] in H. injection H as <-. unfold same_names, set_col.
  cbn [columns]. exact (assign_names_present _ _ _ _ E).
Qed.

Lemma same_names_get_col :
  forall c df df' cells,
    same_names df df' -> get_col c df' = Ok cells ->
    exists before, get_col c df = Ok before.
Proof.
  intros c df df' cells Hn H. unfold get_col in *.
  destruct (lookup c (columns df)) as [vs|] eqn:E; [now exists vs|].
  apply lookup_None in E. unfold same_names in Hn. rewrite <- Hn in E.
  apply lookup_None in E. now rewrite E in H.
Qed.

Lemma encode_lists_same_names : respects same_names encode_lists.
Proof.
  unfold encode_lists.
  apply (respects_bind _ same_names_trans).
  { apply (respects_foldM _ same_names_refl same_names_trans
             (fun col => when_col col
                (apply_col (pure list_to_pipe_separated) col col))).
    intros col. apply (respects_when_col _ same_names_refl), apply_col_in_place. }
  apply (respects_bind _ same_names_trans);
    apply (respects_when_col _ same_names_refl), apply_col_in_place.
Qed.

(** The tables between the steps of a transformation that returns. *)
Lemma transform_stages :
  forall df T,
    transform df = Ok T ->
    exists d1 d2 d3 d4 d5 d6 d7,
      parse_lists df = Ok d1 /\ clean_texts d1 = Ok d2
      /\ derive_columns d2 = Ok d3 /\ parse_dates d3 = Ok d4
      /\ content_length d4 = Ok d5 /\ fill_missing d5 = Ok d6
      /\ encode_lists d6 = Ok d7 /\ T = reorder_columns d7.
Proof.
  intros df T H. unfold transform in H.
  apply bind_Ok in H. destruct H as [d1 [H1 H]].
  apply bind_Ok in H. destruct H as [d2 [H2 H]].
  apply bind_Ok in H. destruct H as [d3 [H3 H]].
  apply bind_Ok in H. destruct H as [d4 [H4 H]].
  apply bind_Ok in H. destruct H as [d5 [H5 H]].
  apply bind_Ok in H. destruct H as [d6 [H6 H]].
  apply bind_Ok in H. destruct H as [d7 [H7 H]].
  injection H as <-. exists d1, d2, d3, d4, d5, d6, d7. auto 10.
Qed.

Lemma get_col_reorder_columns :
  forall c df, get_col c (reorder_columns df) = get_col c df.
Proof. intros c df. unfold get_col. now rewrite lookup_reorder_columns. Qed.

(** Step 7 leaves no list in the columns it encodes. *)
Definition encoded_columns : list string :=
  (list_columns ++ ["journalist_types"; "subjects"])%list.

Lemma list_to_pipe_separated_not_list :
  forall v, is_list (list_to_pipe_separated v) = false.
Proof. intros v. now destruct v. Qed.

Lemma subjects_to_json_not_list :
  forall x y, subjects_to_json x = Ok y -> is_list y = false.
Proof.
  intros x y. unfold subjects_to_json. destruct x; intros H;
    try (injection H as <-; reflexivity).
  destruct (json_dumps (VList l)); cbn [bind] in H; [|discriminate].
  now injection H as <-.
Qed.

Lemma mapM_Forall :
  forall (A B : Type) (f : A -> result B) (P : B -> Prop) l l',
    (forall x y, f x = Ok y -> P y) -> mapM f l = Ok l' -> Forall P l'.
Proof.
  intros A B f P. induction l as [|x l IH]; intros l' Hf H; cbn in H.
  - injection H as <-. constructor.
  - destruct (f x) as [y|e] eqn:E; cbn in H; [|discriminate].
    destruct (mapM f l) as [ys|e]; cbn in H; [|discriminate].
    injection H as <-. constructor; [exact (Hf _ _ E)|now apply IH].
Qed.

Lemma fold_columns_preserves :
  forall f c cols,
    ~ In c cols ->
    preserves c
      (foldM (fun df col => when_col col (apply_col f col col) df) cols).
Proof.
  intros f c cols Hc.
  apply (preserves_foldM c (fun col => when_col col (apply_col f col col))).
  apply Forall_forall. intros col Hcol.
  apply preserves_when_col, preserves_apply_col. intros ->. contradiction.
Qed.

(** A loop that rewrites each column of a list in place applies the
    function once to each column of the list. *)
Lemma fold_columns_establishes :
  forall f c cols,
    NoDup cols -> In c cols ->
    establishes c c f
      (foldM (fun df col => when_col col (apply_col f col col) df) cols).
Proof.
  intros f c cols Hnd. induction Hnd as [|col cols Hnotin Hnd IH];
    intros Hc; [contradiction|].
  cbn [foldM]. destruct (String.eqb_spec c col) as [->|Hne].
  - apply establishes_then.
    + apply establishes_when_col, establishes_apply_col.
    + now apply fold_columns_preserves.
  - apply establishes_after.
    + apply preserves_when_col, preserves_apply_col, Hne.
    + apply IH. destruct Hc as [Hc|Hc]; [congruence|exact Hc].
Qed.

Lemma list_columns_NoDup : NoDup list_columns.
Proof.
  unfold list_columns.
  repeat (constructor; [apply not_in_by_eqb; reflexivity|]). constructor.
Qed.

Lemma encode_lists_cells :
  forall c df df' cells,
    In c encoded_columns ->
    encode_lists df = Ok df' -> get_col c df' = Ok cells ->
    Forall (fun v => is_list v = false) cells.
Proof.
  intros c df df' cells Hc H Hcells.
  destruct (same_names_get_col _ _ _ _ (encode_lists_same_names _ _ H) Hcells)
    as [before Hb].
  assert (Hest : exists f,
             establishes c c f encode_lists
             /\ forall x y, f x = Ok y -> is_list y = false).
  { unfold encoded_columns in Hc. apply in_app_or in Hc.
    unfold encode_lists. destruct Hc as [Hc|[<-|[<-|[]]]].
    - exists (pure list_to_pipe_separated). split.
      + apply establishes_then.
        * now apply fold_columns_establishes; [apply list_columns_NoDup|].
        * assert (Hne : forall d, ~ In d list_columns -> c <> d)
            by (intros d Hd ->; contradiction).
          apply preserves_bind; apply preserves_when_col, preserves_apply_col,
            Hne, not_in_by_eqb; reflexivity.
      + intros x y E. injection E as <-.
        apply list_to_pipe_separated_not_list.
    - exists (pure list_to_pipe_separated). split.
      + apply establishes_after.
        * apply fold_columns_preserves, not_in_by_eqb. reflexivity.
        * apply establishes_then.
          -- apply establishes_when_col, establishes_apply_col.
          -- apply preserves_when_col, preserves_apply_col. discriminate.
      + intros x y E. injection E as <-.
        apply list_to_pipe_separated_not_list.
    - exists subjects_to_json. split; [|apply subjects_to_json_not_list].
      apply establishes_after.
      + apply fold_columns_preserves, not_in_by_eqb. reflexivity.
      + apply establishes_after.
        * apply preserves_when_col, preserves_apply_col. discriminate.
        * apply establishes_when_col, establishes_apply_col. }
  destruct Hest as [f [Hest Hf]].
  destruct (Hest _ _ _ H Hb) as [ws [Hws Hget]].
  rewrite Hget in Hcells. injection Hcells as <-.
  exact (mapM_Forall _ _ f _ _ _ Hf Hws).
Qed.

End NameFacts.

(** X4.  In the table a run returns, no cell of a list-valued column, of
    [journalist_types] or of [subjects] is a list: step 7 has turned every
    list into text, and left the other values as they were. *)
Theorem encoded_columns_hold_no_list :
  forall (L : Library) (df out : DataFrame) (removed : nat)
         (c : string) (cells : column),
    In c encoded_columns ->
    clean_mapmf_data df = Ok (out, removed) ->
    get_col c out = Ok cells ->
    Forall (fun v => is_list v = false) cells.
Proof.
  intros L df out removed c cells Hc H Hcells.
  destruct (clean_mapmf_data_stages _ _ _ H)
    as [T [ids [ds [HT [_ [_ [Hout _]]]]]]].
  subst out.
  destruct (get_col_take_rows_inv _ _ _ _ Hcells) as [cellsD [HD ->]].
  destruct (get_col_take_rows_inv _ _ _ _ HD) as [cellsT [HcT ->]].
  destruct (transform_stages _ _ HT)
    as [d1 [d2 [d3 [d4 [d5 [d6 [d7 [_ [_ [_ [_ [_ [_ [H7 ->]]]]]]]]]]]]]].
  rewrite get_col_reorder_columns in HcT.
  pose proof (encode_lists_cells _ _ _ _ Hc H7 HcT) as Hall.
  apply Forall_take; [reflexivity|]. apply Forall_take; [reflexivity|].
  exact Hall.
Qed.

Lemma encoded_columns_hold_no_list_witness :
  Forall (fun v => is_list v = false)
         [VStr ""; VStr "Man | Woman | Man"].
Proof.
  apply (encoded_columns_hold_no_list RefLib incident_table
           (fst (run incident_table)) (snd (run incident_table)) "gender").
  - unfold encoded_columns, list_columns. simpl. tauto.
  - vm_compute. reflexivity.
  - vm_compute. reflexivity.
Defined.

(** ** Columns computed from the decoded lists *)

Section DerivedFacts.
Context {L : Library}.

Ltac pres :=
  repeat first
    [ apply preserves_when_col
    | apply preserves_apply_col; discriminate
    | apply preserves_bind ].

Ltac est :=
  first
    [ apply establishes_apply_col
    | apply establishes_when_col; est
    | apply establishes_then; [ solve [est] | solve [pres] ]
    | apply establishes_after; [ solve [pres] | est ] ].

Lemma derive_primary_incident_type :
  establishes "type_of_incident" "primary_incident_type"
    (pure extract_primary_incident_type) derive_columns.
Proof. unfold derive_columns. est. Qed.

Lemma derive_incident_type_count :
  establishes "type_of_incident" "incident_type_count" py_len derive_columns.
Proof. unfold derive_columns. est. Qed.

Lemma derive_primary_source :
  establishes "source_of_incident" "primary_source"
    (pure extract_primary_incident_type) derive_columns.
Proof. unfold derive_columns. est. Qed.

Lemma derive_primary_victim_type :
  establishes "who_was_attacked" "primary_victim_type"
    (pure extract_primary_incident_type) derive_columns.
Proof. unfold derive_columns. est. Qed.

Lemma derive_subjects_count :
  establishes "subjects" "subjects_count" (pure subjects_count) derive_columns.
Proof. unfold derive_columns. est. Qed.

Lemma derive_journalist_types :
  establishes "subjects" "journalist_types" (pure journalist_types)
    derive_columns.
Proof. unfold derive_columns. est. Qed.

(** A column step 3 computes from a list column, in the table before
    duplicates are removed. *)
Lemma transform_derives_any :
  forall src dst f,
    In src list_columns ->
    establishes src dst f derive_columns ->
    ~ In dst late_columns ->
    forall df T raw,
      transform df = Ok T -> get_col src df = Ok raw ->
      exists decoded ws,
        mapM parse_list_column raw = Ok decoded
        /\ mapM f decoded = Ok ws
        /\ get_col dst T = Ok ws.
Proof.
  intros src dst f Hsrc Hest Hdst df T raw HT Hraw.
  assert (Htext : ~ In src text_columns).
  { intros H. unfold list_columns, text_columns in *. simpl in *.
    repeat (destruct Hsrc as [<-|Hsrc];
            [repeat (destruct H as [H|H]; [discriminate|]); exact H|]).
    exact Hsrc. }
  rewrite transform_unfold in HT. apply bind_Ok in HT.
  destruct HT as [df1 [H1 H2]].
  destruct (parse_lists_establishes src Hsrc _ _ _ H1 Hraw)
    as [decoded [Hdec Hcol]].
  assert (Hrest : establishes src dst f after_parse).
  { unfold after_parse. apply establishes_after.
    - now apply clean_texts_preserves.
    - apply establishes_then; [exact Hest|].
      now apply after_derive_preserves. }
  destruct (Hrest _ _ _ H2 Hcol) as [ws [Hws Hget]].
  now exists decoded, ws.
Qed.

Lemma mapM_nth_value :
  forall (f : value -> result value) l l' i x,
    mapM f l = Ok l' -> nth_error l i = Some x ->
    exists y, f x = Ok y /\ nth_error l' i = Some y.
Proof. intros f l l' i x. apply mapM_nth_error. Qed.

End DerivedFacts.

(** The pairs of a list column and the column that holds its first
    element. *)
Definition primary_columns : list (string * string) :=
  [("type_of_incident", "primary_incident_type");
   ("source_of_incident", "primary_source");
   ("gender", "primary_gender");
   ("who_was_attacked", "primary_victim_type")].

(** X5.  In the table before duplicates are removed each primary column
    ([primary_incident_type], [primary_source], [primary_gender],
    [primary_victim_type]) holds, row by row, the first element of the
    decoded list of its source column, and None where the list is empty or
    the decoded value is not a list. *)
Theorem primary_columns_hold_first_elements :
  forall (L : Library) (src dst : string) (df T : DataFrame) (raw : column),
    In (src, dst) primary_columns ->
    transform df = Ok T ->
    get_col src df = Ok raw ->
    (exists decoded,
        mapM parse_list_column raw = Ok decoded
        /\ get_col dst T = Ok (map extract_primary_incident_type decoded))
    /\ (forall x l, extract_primary_incident_type (VList (x :: l)) = x)
    /\ extract_primary_incident_type (VList []) = VNone
    /\ (forall v, is_list v = false -> extract_primary_incident_type v = VNone).
Proof.
  intros L src dst df T raw Hin HT Hraw. split; [|repeat split].
  - assert (Hest : In src list_columns
                   /\ establishes src dst (pure extract_primary_incident_type)
                        derive_columns
                   /\ existsb (String.eqb dst) late_columns = false).
    { unfold primary_columns in Hin. simpl in Hin.
      destruct Hin as [E|[E|[E|[E|[]]]]]; injection E as <- <-;
        (split; [unfold list_columns; simpl; tauto|split; [|reflexivity]]).
      - apply derive_primary_incident_type.
      - apply derive_primary_source.
      - apply derive_primary_gender.
      - apply derive_primary_victim_type. }
    destruct Hest as [Hsrc [Hest Hdst]].
    destruct (transform_derives_any src dst _ Hsrc Hest
                (not_in_by_eqb _ _ Hdst) df T raw HT Hraw)
      as [decoded [ws [Hdec [Hws Hget]]]].
    exists decoded. split; [exact Hdec|].
    rewrite mapM_pure in Hws. now injection Hws as <-.
  - intros v Hv. destruct v; try reflexivity; discriminate.
Qed.

Lemma primary_columns_hold_first_elements_witness :
  exists decoded,
    mapM (parse_list_column (L := RefLib))
      [VStr "['Man', 'Woman', 'Man']"; VNaN] = Ok decoded
    /\ get_col "primary_gender" incident_table_transformed
       = Ok (map extract_primary_incident_type decoded).
Proof.
  apply (primary_columns_hold_first_elements RefLib "gender" "primary_gender"
           incident_table incident_table_transformed).
  - unfold primary_columns. simpl. tauto.
  - vm_compute. reflexivity.
  - vm_compute. reflexivity.
Defined.

(** X6.  When the transformation returns, every decoded [type_of_incident]
    cell has a length and [incident_type_count] holds it: the number of
    elements where the cell decoded to a list. *)
Theorem incident_type_count_is_length :
  forall (L : Library) (df T : DataFrame) (raw : column),
    transform df = Ok T ->
    get_col "type_of_incident" df = Ok raw ->
    exists decoded counts,
      mapM parse_list_column raw = Ok decoded
      /\ mapM py_len decoded = Ok counts
      /\ get_col "incident_type_count" T = Ok counts
      /\ (forall i l,
             nth_error decoded i = Some (VList l) ->
             nth_error counts i = Some (VInt (Z.of_nat (List.length l))))
      /\ Forall (fun v => exists n, py_len v = Ok (VInt n) /\ 0 <= n) decoded.
Proof.
  intros L df T raw HT Hraw.
  destruct (transform_derives_any "type_of_incident" "incident_type_count"
              py_len) with (df := df) (T := T) (raw := raw)
    as [decoded [counts [Hdec [Hcounts Hget]]]]; try assumption.
  - unfold list_columns. simpl. tauto.
  - apply derive_incident_type_count.
  - apply not_in_by_eqb. reflexivity.
  - exists decoded, counts. repeat split; try assumption.
    + intros i l Hi.
      destruct (mapM_nth_value _ _ _ _ _ Hcounts Hi) as [y [Hy Hn]].
      cbn in Hy. now injection Hy as <-.
    + apply Forall_forall. intros v Hv.
      apply (In_nth_error decoded v) in Hv. destruct Hv as [i Hi].
      destruct (mapM_nth_value _ _ _ _ _ Hcounts Hi) as [y [Hy _]].
      destruct v; try discriminate; cbn in Hy |- *; eexists;
        (split; [reflexivity|lia]).
Qed.

Lemma incident_type_count_is_length_witness :
  exists decoded counts,
    mapM (parse_list_column (L := RefLib))
      [VStr "['Physical assault', 'Legal incident']"; VNaN] = Ok decoded
    /\ mapM py_len decoded = Ok counts
    /\ get_col "incident_type_count"
         (transformed
            (frame 2
               [("id", [VInt 1; VInt 2]);
                ("title", [VStr "a"; VStr "b"]);
                ("content", [VStr "x"; VStr "y"]);
                ("country", [VStr "FR"; VNaN]);
                ("type_of_incident",
                 [VStr "['Physical assault', 'Legal incident']"; VNaN])]))
       = Ok counts
    /\ (forall i l,
           nth_error decoded i = Some (VList l) ->
           nth_error counts i = Some (VInt (Z.of_nat (List.length l))))
    /\ Forall (fun v => exists n, py_len v = Ok (VInt n) /\ 0 <= n) decoded.
Proof.
  apply (incident_type_count_is_length RefLib
           (frame 2
              [("id", [VInt 1; VInt 2]);
               ("title", [VStr "a"; VStr "b"]);
               ("content", [VStr "x"; VStr "y"]);
               ("country", [VStr "FR"; VNaN]);
               ("type_of_incident",
                [VStr "['Physical assault', 'Legal incident']"; VNaN])])).
  - vm_compute. reflexivity.
  - vm_compute. reflexivity.
Defined.

(** ** Required columns, defaults and text *)

Section RequiredFacts.
Context {L : Library}.

Lemma text_columns_NoDup : NoDup text_columns.
Proof.
  unfold text_columns.
  repeat (constructor; [apply not_in_by_eqb; reflexivity|]). constructor.
Qed.

Lemma clean_texts_same_names : respects same_names clean_texts.
Proof.
  unfold clean_texts.
  apply (respects_foldM _ same_names_refl same_names_trans
           (fun col => when_col col (apply_col clean_text col col))).
  intros col. apply (respects_when_col _ same_names_refl), apply_col_in_place.
Qed.

Lemma fill_missing_requires :
  forall df df',
    fill_missing df = Ok df' ->
    (exists a, get_col "country" df = Ok a)
    /\ (exists b, get_col "title" df = Ok b)
    /\ (exists c, get_col "content" df = Ok c).
Proof.
  intros df df' H. unfold fill_missing in H.
  apply bind_Ok in H. destruct H as [d1 [H1 H]].
  apply bind_Ok in H. destruct H as [d2 [H2 H3]].
  assert (Hreq : forall f c d d', apply_col f c c d = Ok d' ->
                                  exists vs, get_col c d = Ok vs).
  { intros f c d d' E. unfold apply_col in E.
    destruct (get_col c d) as [vs|e]; [now exists vs|discriminate]. }
  destruct (Hreq _ _ _ _ H1) as [a Ha].
  destruct (Hreq _ _ _ _ H2) as [b Hb].
  destruct (Hreq _ _ _ _ H3) as [c Hc].
  assert (K1 : keeps "title" df d1)
    by (refine (preserves_apply_col "title" _ "country" "country" _ _ _ H1);
        discriminate).
  assert (K2 : keeps "content" df d1)
    by (refine (preserves_apply_col "content" _ "country" "country" _ _ _ H1);
        discriminate).
  assert (K3 : keeps "content" d1 d2)
    by (refine (preserves_apply_col "content" _ "title" "title" _ _ _ H2);
        discriminate).
  split; [now exists a|]. split.
  - exists b. exact (keeps_get_col_back _ _ _ _ K1 Hb).
  - exists c. apply (keeps_get_col_back _ _ _ _ K2).
    exact (keeps_get_col_back _ _ _ _ K3 Hc).
Qed.

(** A column step 6 reads was in the input. *)
Lemma transform_requires :
  forall c df T,
    In c ["country"; "title"; "content"] ->
    transform df = Ok T -> has_col c df = true.
Proof.
  intros c df T Hc HT.
  destruct (transform_stages _ _ HT)
    as [d1 [d2 [d3 [d4 [d5 [d6 [d7 [H1 [H2 [H3 [H4 [H5 [H6 _]]]]]]]]]]]]].
  assert (H5c : exists vs, get_col c d5 = Ok vs).
  { destruct (fill_missing_requires _ _ H6) as [A [B C]].
    simpl in Hc. destruct Hc as [<-|[<-|[<-|[]]]]; assumption. }
  destruct H5c as [vs Hvs].
  assert (Hc' : existsb (String.eqb c) ["country"; "title"; "content"] = true).
  { apply existsb_exists. exists c. split; [exact Hc|apply String.eqb_refl]. }
  assert (Hnot : forall l,
             forallb (fun x => negb (existsb (String.eqb x)
                                       ["country"; "title"; "content"])) l
             = true -> ~ In c l).
  { intros l Hl X. rewrite forallb_forall in Hl. specialize (Hl c X).
    now rewrite Hc' in Hl. }
  apply (keeps_get_col_back _ _ _ _
           (content_length_preserves c
              ltac:(intros ->; now apply (Hnot ["content_length"]);
                    [reflexivity|left]) _ _ H5)) in Hvs.
  apply (keeps_get_col_back _ _ _ _
           (parse_dates_preserves c
              (Hnot ["date"; "month"; "day_of_week"] eq_refl) _ _ H4)) in Hvs.
  apply (keeps_get_col_back _ _ _ _
           (derive_columns_preserves c (Hnot derived_columns eq_refl)
              _ _ H3)) in Hvs.
  destruct (same_names_get_col _ _ _ _ (clean_texts_same_names _ _ H2) Hvs)
    as [v1 Hv1].
  apply (keeps_get_col_back _ _ _ _
           (parse_lists_preserves c
              (Hnot ("subjects" :: list_columns) eq_refl) _ _ H1)) in Hv1.
  exact (get_col_has_col _ _ _ Hv1).
Qed.

End RequiredFacts.

(** X7.  A run returns a table only for an input that has the columns
    [id], [title], [date], [country] and [content]: steps 6, 9 and 10 read
    them without testing for their presence, as the guarded steps do. *)
Theorem run_requires_five_columns :
  forall (L : Library) (df out : DataFrame) (removed : nat),
    clean_mapmf_data df = Ok (out, removed) ->
    Forall (fun c => has_col c df = true)
           ["id"; "title"; "date"; "country"; "content"].
Proof.
  intros L df out removed H.
  destruct (clean_mapmf_data_ids _ _ _ H)
    as [T [ids [out_ids [HT [_ [Hids _]]]]]].
  destruct (clean_mapmf_data_stages _ _ _ H)
    as [T' [ids' [ds [HT' [_ [Hds _]]]]]].
  rewrite HT in HT'. injection HT' as <-.
  destruct (get_col_take_rows_inv _ _ _ _ Hds) as [dT [HdT _]].
  assert (Hdate : has_col "date" df = true).
  { destruct (has_col "date" df) eqn:E; [reflexivity|].
    pose proof (transform_without_date _ _ HT E) as X.
    now rewrite (get_col_has_col _ _ _ HdT) in X. }
  repeat constructor.
  - exact (get_col_has_col _ _ _ Hids).
  - apply (transform_requires "title" df T); [simpl; tauto|exact HT].
  - exact Hdate.
  - apply (transform_requires "country" df T); [simpl; tauto|exact HT].
  - apply (transform_requires "content" df T); [simpl; tauto|exact HT].
Qed.

Lemma run_requires_five_columns_witness :
  Forall (fun c => has_col c incident_table = true)
         ["id"; "title"; "date"; "country"; "content"].
Proof.
  apply (run_requires_five_columns RefLib incident_table
           (fst (run incident_table)) (snd (run incident_table))).
  vm_compute. reflexivity.
Defined.

Section DefaultFacts.
Context {L : Library}.

Lemma clean_text_result :
  forall text r,
    clean_text text = Ok r -> exists s, r = VStr s /\ tidy s = true.
Proof.
  intros text r H. unfold clean_text in H.
  destruct (isna_truth text) as [[|]|e]; cbn [bind] in H; try discriminate;
    injection H as <-; eexists; (split; [reflexivity|]);
    [reflexivity|apply tidy_strip_collapse].
Qed.

Lemma fillna_not_null :
  forall fill v, isna_scalar fill = false -> isna_scalar (fillna fill v) = false.
Proof.
  intros fill v Hf. unfold fillna. destruct (isna_scalar v) eqn:E; assumption.
Qed.

Lemma map_fillna_texts :
  forall fill cells,
    Forall (fun v => exists s, v = VStr s /\ tidy s = true) cells ->
    map (fillna fill) cells = cells.
Proof.
  intros fill cells H. induction H as [|v l [s [-> _]] _ IH]; [reflexivity|].
  cbn [map]. now rewrite IH.
Qed.

Lemma fill_missing_country :
  establishes "country" "country" (pure (fillna (VStr "Unknown"))) fill_missing.
Proof.
  unfold fill_missing. apply establishes_then.
  - apply establishes_apply_col.
  - apply preserves_bind; apply preserves_apply_col; discriminate.
Qed.

Lemma fill_missing_text :
  forall c,
    In c text_columns ->
    establishes c c (pure (fillna (VStr ""))) fill_missing.
Proof.
  intros c Hc. unfold fill_missing. unfold text_columns in Hc. simpl in Hc.
  destruct Hc as [<-|[<-|[]]].
  - apply establishes_after; [apply preserves_apply_col; discriminate|].
    apply establishes_then; [apply establishes_apply_col|].
    apply preserves_apply_col. discriminate.
  - apply establishes_after; [apply preserves_apply_col; discriminate|].
    apply establishes_after; [apply preserves_apply_col; discriminate|].
    apply establishes_apply_col.
Qed.

(** The country column of the table before duplicates are removed. *)
Lemma transform_country :
  forall df T raw,
    transform df = Ok T -> get_col "country" df = Ok raw ->
    get_col "country" T = Ok (map (fillna (VStr "Unknown")) raw).
Proof.
  intros df T raw HT Hraw.
  destruct (transform_stages _ _ HT)
    as [d1 [d2 [d3 [d4 [d5 [d6 [d7 [H1 [H2 [H3 [H4 [H5 [H6 [H7 ->]]]]]]]]]]]]]].
  apply (keeps_get_col _ _ _ _
           (parse_lists_preserves "country"
              (not_in_by_eqb "country" ("subjects" :: list_columns) eq_refl) _ _ H1))
    in Hraw.
  apply (keeps_get_col _ _ _ _
           (clean_texts_preserves "country"
              (not_in_by_eqb "country" text_columns eq_refl) _ _ H2)) in Hraw.
  apply (keeps_get_col _ _ _ _
           (derive_columns_preserves "country"
              (not_in_by_eqb "country" derived_columns eq_refl) _ _ H3)) in Hraw.
  apply (keeps_get_col _ _ _ _
           (parse_dates_preserves "country"
              (not_in_by_eqb "country" ["date"; "month"; "day_of_week"] eq_refl)
              _ _ H4)) in Hraw.
  apply (keeps_get_col _ _ _ _
           (content_length_preserves "country" ltac:(discriminate) _ _ H5))
    in Hraw.
  destruct (fill_missing_country _ _ _ H6 Hraw) as [ws [Hws Hget]].
  rewrite mapM_pure in Hws. injection Hws as <-.
  rewrite get_col_reorder_columns.
  exact (keeps_get_col _ _ _ _
           (encode_lists_preserves "country"
              (not_in_by_eqb "country" ("journalist_types" :: "subjects"
                                :: list_columns) eq_refl) _ _ H7) Hget).
Qed.

(** A text column of the table before duplicates are removed, and the
    length column computed from [content]. *)
Lemma transform_text :
  forall c df T raw,
    In c text_columns ->
    transform df = Ok T -> get_col c df = Ok raw ->
    exists cleaned,
      mapM clean_text raw = Ok cleaned
      /\ get_col c T = Ok cleaned
      /\ Forall (fun v => exists s, v = VStr s /\ tidy s = true) cleaned
      /\ (c = "content" ->
          get_col "content_length" T = Ok (map str_len cleaned)).
Proof.
  intros c df T raw Hc HT Hraw.
  assert (Hc' : existsb (String.eqb c) text_columns = true).
  { apply existsb_exists. exists c. split; [exact Hc|apply String.eqb_refl]. }
  assert (Hnot : forall l,
             forallb (fun x => negb (existsb (String.eqb x) text_columns)) l
             = true -> ~ In c l).
  { intros l Hl X. rewrite forallb_forall in Hl. specialize (Hl c X).
    now rewrite Hc' in Hl. }
  destruct (transform_stages _ _ HT)
    as [d1 [d2 [d3 [d4 [d5 [d6 [d7 [H1 [H2 [H3 [H4 [H5 [H6 [H7 ->]]]]]]]]]]]]]].
  apply (keeps_get_col _ _ _ _
           (parse_lists_preserves c
              (Hnot ("subjects" :: list_columns) eq_refl) _ _ H1)) in Hraw.
  destruct (fold_columns_establishes clean_text c text_columns
              text_columns_NoDup Hc _ _ _ H2 Hraw) as [cleaned [Hcl Hget]].
  assert (Htexts : Forall (fun v => exists s, v = VStr s /\ tidy s = true)
                          cleaned)
    by exact (mapM_Forall _ _ clean_text _ _ _ clean_text_result Hcl).
  exists cleaned. split; [exact Hcl|].
  apply (keeps_get_col _ _ _ _
           (derive_columns_preserves c (Hnot derived_columns eq_refl)
              _ _ H3)) in Hget.
  apply (keeps_get_col _ _ _ _
           (parse_dates_preserves c
              (Hnot ["date"; "month"; "day_of_week"] eq_refl) _ _ H4))
    in Hget.
  pose proof (keeps_get_col _ _ _ _
                (content_length_preserves c
                   ltac:(intros ->; now apply (Hnot ["content_length"]);
                         [reflexivity|left]) _ _ H5) Hget) as Hget5.
  destruct (fill_missing_text c Hc _ _ _ H6 Hget5) as [ws [Hws Hget6]].
  rewrite mapM_pure in Hws. injection Hws as <-.
  rewrite (map_fillna_texts _ _ Htexts) in Hget6.
  assert (Hget7 : get_col c d7 = Ok cleaned).
  { apply (keeps_get_col _ _ _ _
             (encode_lists_preserves c
                (Hnot ("journalist_types" :: "subjects" :: list_columns)
                   eq_refl) _ _ H7) Hget6). }
  split; [now rewrite get_col_reorder_columns|]. split; [exact Htexts|].
  intros ->. rewrite get_col_reorder_columns.
  assert (Hlen : establishes "content" "content_length" (pure str_len)
                   content_length).
  { unfold content_length.
    apply establishes_when_col, establishes_apply_col. }
  destruct (Hlen _ _ _ H5 Hget) as [ls [Hls Hgl]].
  rewrite mapM_pure in Hls. injection Hls as <-.
  apply (keeps_get_col _ _ _ _
           (fill_missing_preserves "content_length"
              (not_in_by_eqb "content_length" ["country"; "title"; "content"] eq_refl)
              _ _ H6)) in Hgl.
  exact (keeps_get_col _ _ _ _
           (encode_lists_preserves "content_length"
              (not_in_by_eqb "content_length" ("journalist_types" :: "subjects"
                                :: list_columns) eq_refl) _ _ H7) Hgl).
Qed.

Lemma Forall_take_in_range :
  forall (P : value -> Prop) (l : list value) (idx : list nat),
    Forall P l -> (forall i, In i idx -> (i < List.length l)%nat) ->
    Forall P (map (fun i => nth i l VNaN) idx).
Proof.
  intros P l idx Hl Hidx. apply Forall_forall. intros v Hv.
  apply in_map_iff in Hv. destruct Hv as [i [<- Hi]].
  rewrite Forall_forall in Hl. apply Hl, nth_In, Hidx, Hi.
Qed.

(** The table a run returns is a selection of rows of the table before
    duplicates are removed, each taken once at most. *)
Lemma run_selects_rows :
  forall df out removed,
    well_formed df ->
    clean_mapmf_data df = Ok (out, removed) ->
    exists T idx,
      transform df = Ok T
      /\ well_formed T
      /\ nrows T = nrows df
      /\ NoDup idx
      /\ (forall i, In i idx -> (i < nrows T)%nat)
      /\ forall c cells,
           get_col c T = Ok cells ->
           get_col c out = Ok (map (fun i => nth i cells VNaN) idx).
Proof.
  intros df out removed Hwf H.
  destruct (clean_mapmf_data_stages _ _ _ H)
    as [T [ids [ds [HT [Hids [Hds [Hout _]]]]]]].
  destruct (transform_shape _ _ HT) as [Hidx HwfT]. specialize (HwfT Hwf).
  set (idx1 := first_occurrences ids) in *.
  set (idx2 := sort_indexer ds) in *.
  destruct (get_col_take_rows_inv _ _ _ _ Hds) as [dT [_ Eds]].
  assert (Hlen : List.length ds = List.length idx1)
    by (rewrite Eds; apply length_map).
  pose proof (sort_indexer_perm ds) as Hperm. fold idx2 in Hperm.
  rewrite Hlen in Hperm.
  assert (Hin2 : forall i, In i idx2 -> (i < List.length idx1)%nat).
  { intros i Hi. apply (Permutation_in _ Hperm) in Hi.
    apply in_seq in Hi. lia. }
  assert (Hids_len : List.length ids = nrows T).
  { unfold get_col in Hids.
    destruct (lookup "id" (columns T)) as [vs|] eqn:E; [|discriminate].
    injection Hids as <-. exact (well_formed_lookup _ _ _ HwfT E). }
  exists T, (map (fun i => nth i idx1 O) idx2).
  split; [exact HT|]. split; [exact HwfT|].
  split; [unfold nrows; now rewrite Hidx|]. split; [|split].
  - apply (Permutation_NoDup
             (l := idx1)).
    + apply Permutation_sym. now apply Permutation_map_nth.
    + unfold idx1, first_occurrences. apply NoDup_filter, seq_NoDup.
  - intros i Hi. apply in_map_iff in Hi. destruct Hi as [j [<- Hj]].
    rewrite <- Hids_len. apply first_occurrences_bound.
    apply nth_In. now apply Hin2.
  - intros c cells Hc. subst out.
    rewrite (get_col_take_rows _ idx2 _ _ (get_col_take_rows _ idx1 _ _ Hc)).
    f_equal. rewrite map_map. apply map_ext_in. intros i Hi.
    apply (nth_map_in_range _ _ (fun j => nth j cells VNaN)).
    now apply Hin2.
Qed.

End DefaultFacts.

(** X8.  In the table a run on a well-formed table returns, [country] has
    no null cell: each cell is "Unknown" or a cell of the input column that
    is not null. *)
Theorem country_defaults_to_unknown :
  forall (L : Library) (df out : DataFrame) (removed : nat)
         (raw cells : column),
    well_formed df ->
    clean_mapmf_data df = Ok (out, removed) ->
    get_col "country" df = Ok raw ->
    get_col "country" out = Ok cells ->
    (exists T,
        transform df = Ok T
        /\ get_col "country" T = Ok (map (fillna (VStr "Unknown")) raw))
    /\ Forall (fun v => isna_scalar v = false /\
                        (v = VStr "Unknown" \/ In v raw)) cells.
Proof.
  intros L df out removed raw cells Hwf H Hraw Hcells.
  destruct (run_selects_rows _ _ _ Hwf H)
    as [T [idx [HT [HwfT [Hn [_ [Hidx Hsel]]]]]]].
  pose proof (transform_country _ _ _ HT Hraw) as HcT. split.
  { exists T. now split. }
  rewrite (Hsel _ _ HcT) in Hcells. injection Hcells as <-.
  apply Forall_take_in_range.
  - apply Forall_forall. intros v Hv. apply in_map_iff in Hv.
    destruct Hv as [x [<- Hx]]. split; [now apply fillna_not_null|].
    unfold fillna. destruct (isna_scalar x); [now left|now right].
  - intros i Hi. apply Hidx in Hi. rewrite length_map.
    unfold get_col in Hraw.
    destruct (lookup "country" (columns df)) as [vs|] eqn:E; [|discriminate].
    injection Hraw as <-. rewrite (well_formed_lookup _ _ _ Hwf E). lia.
Qed.

Lemma country_defaults_to_unknown_witness :
  (exists T,
      transform (L := RefLib) blank_date_table = Ok T
      /\ get_col "country" T
         = Ok (map (fillna (VStr "Unknown")) [VStr "FR"; VStr "DE"; VNaN]))
  /\ Forall (fun v => isna_scalar v = false /\
                      (v = VStr "Unknown" \/
                       In v [VStr "FR"; VStr "DE"; VNaN]))
            [VStr "FR"; VStr "Unknown"; VStr "DE"].
Proof.
  apply (country_defaults_to_unknown RefLib blank_date_table
           (fst blank_date_output) (snd blank_date_output)).
  - unfold well_formed. vm_compute. repeat constructor.
  - vm_compute. reflexivity.
  - vm_compute. reflexivity.
  - vm_compute. reflexivity.
Defined.

(** X9.  In the table a run on a well-formed table returns, every [title]
    and [content] cell is a tidy text, never null, and [content_length]
    holds the length of the [content] cell of its row. *)
Theorem text_columns_are_tidy_texts :
  forall (L : Library) (df out : DataFrame) (removed : nat),
    well_formed df ->
    clean_mapmf_data df = Ok (out, removed) ->
    exists titles contents,
      get_col "title" out = Ok titles
      /\ get_col "content" out = Ok contents
      /\ Forall (fun v => exists s, v = VStr s /\ tidy s = true) titles
      /\ Forall (fun v => exists s, v = VStr s /\ tidy s = true) contents
      /\ get_col "content_length" out = Ok (map str_len contents)
      /\ (forall s, str_len (VStr s) = VInt (Z.of_nat (String.length s))).
Proof.
  intros L df out removed Hwf H.
  destruct (run_selects_rows _ _ _ Hwf H)
    as [T [idx [HT [HwfT [Hn [_ [Hidx Hsel]]]]]]].
  assert (Hhas : forall c, In c text_columns ->
                           exists raw, get_col c df = Ok raw).
  { intros c Hc.
    assert (X : has_col c df = true).
    { apply (transform_requires c df T); [|exact HT].
      unfold text_columns in Hc. simpl in *. tauto. }
    unfold has_col, get_col in *.
    destruct (lookup c (columns df)) as [vs|]; [now exists vs|discriminate]. }
  destruct (Hhas "title" ltac:(unfold text_columns; simpl; tauto))
    as [rt Hrt].
  destruct (Hhas "content" ltac:(unfold text_columns; simpl; tauto))
    as [rc Hrc].
  destruct (transform_text "title" df T rt
              ltac:(unfold text_columns; simpl; tauto) HT Hrt)
    as [ts [_ [Hts [Htt _]]]].
  destruct (transform_text "content" df T rc
              ltac:(unfold text_columns; simpl; tauto) HT Hrc)
    as [cs [_ [Hcs [Hct Hlen]]]].
  specialize (Hlen eq_refl).
  assert (Hrange : forall c cells,
             get_col c T = Ok cells ->
             forall i, In i idx -> (i < List.length cells)%nat).
  { intros c cells Hc i Hi. apply Hidx in Hi. unfold get_col in Hc.
    destruct (lookup c (columns T)) as [vs|] eqn:E; [|discriminate].
    injection Hc as <-. now rewrite (well_formed_lookup _ _ _ HwfT E). }
  exists (map (fun i => nth i ts VNaN) idx), (map (fun i => nth i cs VNaN) idx).
  split; [now apply Hsel|]. split; [now apply Hsel|].
  split; [apply Forall_take_in_range; [exact Htt|exact (Hrange _ _ Hts)]|].
  split; [apply Forall_take_in_range; [exact Hct|exact (Hrange _ _ Hcs)]|].
  split; [|reflexivity].
  rewrite (Hsel _ _ Hlen). now rewrite take_map_commute.
Qed.

Lemma text_columns_are_tidy_texts_witness :
  exists titles contents,
    get_col "title" (fst blank_date_output) = Ok titles
    /\ get_col "content" (fst blank_date_output) = Ok contents
    /\ Forall (fun v => exists s, v = VStr s /\ tidy s = true) titles
    /\ Forall (fun v => exists s, v = VStr s /\ tidy s = true) contents
    /\ get_col "content_length" (fst blank_date_output)
       = Ok (map str_len contents)
    /\ (forall s, str_len (VStr s) = VInt (Z.of_nat (String.length s))).
Proof.
  apply (text_columns_are_tidy_texts RefLib blank_date_table
           (fst blank_date_output) (snd blank_date_output)).
  - unfold well_formed. vm_compute. repeat constructor.
  - vm_compute. reflexivity.
Defined.


Section OrderFacts.
Context {L : Library}.

Definition names (df : DataFrame) : list string := map fst (columns df).

Definition preferred (c : string) : bool :=
  existsb (String.eqb c) preferred_order.

(** The second table has the columns of the first in the same order,
    followed by new columns, all of them named in [preferred_order]. *)
Definition grows (df df' : DataFrame) : Prop :=
  exists added,
    names df' = (names df ++ added)%list
    /\ Forall (fun c => preferred c = true) added
    /\ (NoDup (names df) -> NoDup (names df')).

Lemma grows_refl : forall df, grows df df.
Proof.
  intros df. exists []. rewrite app_nil_r. repeat split; auto.
Qed.

Lemma grows_trans :
  forall a b c, grows a b -> grows b c -> grows a c.
Proof.
  intros a b c [x [Ex [Px Nx]]] [y [Ey [Py Ny]]]. exists (x ++ y)%list.
  split; [now rewrite Ey, Ex, app_assoc|].
  split; [apply Forall_app; now split|auto].
Qed.

Lemma lookup_None_names :
  forall c cols, lookup c cols = None <-> ~ In c (map fst cols).
Proof.
  intros c cols. induction cols as [|[c' vs] r IH]; cbn.
  - split; [auto|reflexivity].
  - destruct (String.eqb_spec c c') as [->|Hne].
    + split; [discriminate|intros H; exfalso; apply H; now left].
    + rewrite IH. split; [intros H [E|E]; [congruence|auto]|auto].
Qed.

Lemma has_col_names :
  forall c df, has_col c df = true <-> In c (names df).
Proof.
  intros c df. unfold has_col, names.
  destruct (lookup c (columns df)) as [vs|] eqn:E.
  - split; [intros _|reflexivity].
    apply lookup_In in E. apply in_map_iff. now exists (c, vs).
  - split; [discriminate|]. intros H.
    now apply (proj1 (lookup_None_names _ _)) in E.
Qed.

Lemma set_col_grows :
  forall c vs df, preferred c = true -> grows df (set_col c vs df).
Proof.
  intros c vs df Hc. unfold grows, names, set_col. cbn [columns].
  destruct (lookup c (columns df)) as [ws|] eqn:E.
  - exists []. rewrite app_nil_r, (assign_names_present _ _ _ _ E).
    repeat split; auto.
  - exists [c]. rewrite (assign_names_absent _ _ _ E).
    split; [reflexivity|]. split; [now constructor|].
    intros Hnd. apply NoDup_app; [exact Hnd|repeat constructor; auto|].
    intros x Hx [<-|[]]. now apply (proj1 (lookup_None_names _ _)) in E.
Qed.

Lemma apply_col_grows :
  forall f src dst,
    preferred dst = true -> respects grows (apply_col f src dst).
Proof.
  intros f src dst Hd df df' H. unfold apply_col in H.
  apply bind_Ok in H. destruct H as [vs [_ H]].
  apply bind_Ok in H. destruct H as [ws [_ H]].
  injection H as <-. now apply set_col_grows.
Qed.

Lemma fold_columns_grows :
  forall (f : string -> value -> result value) cols,
    forallb preferred cols = true ->
    respects grows
      (foldM (fun df col => when_col col (apply_col (f col) col col) df) cols).
Proof.
  intros f cols H.
  induction cols as [|col cols IH]; cbn [foldM].
  - intros df df' E. injection E as <-. apply grows_refl.
  - cbn [forallb] in H. apply andb_true_iff in H. destruct H as [Hc Hr].
    apply (respects_bind grows grows_trans).
    + apply (respects_when_col grows grows_refl), apply_col_grows, Hc.
    + apply IH, Hr.
Qed.

Ltac grows_step :=
  first
    [ apply (respects_when_col grows grows_refl)
    | apply (respects_bind grows grows_trans)
    | apply apply_col_grows; reflexivity ].

Lemma parse_lists_grows : respects grows parse_lists.
Proof.
  unfold parse_lists. apply (respects_bind grows grows_trans).
  - apply (fold_columns_grows (fun _ => parse_list_column)). reflexivity.
  - repeat grows_step.
Qed.

Lemma clean_texts_grows : respects grows clean_texts.
Proof.
  unfold clean_texts.
  apply (fold_columns_grows (fun _ => clean_text)). reflexivity.
Qed.

Lemma derive_columns_grows : respects grows derive_columns.
Proof. unfold derive_columns. repeat grows_step. Qed.

Lemma parse_dates_grows : respects grows parse_dates.
Proof.
  unfold parse_dates. apply (respects_when_col grows grows_refl).
  intros df df' H.
  apply bind_Ok in H. destruct H as [raw [_ H]].
  apply bind_Ok in H. destruct H as [dates [_ H]].
  apply bind_Ok in H. destruct H as [series [_ H]].
  injection H as <-.
  eapply grows_trans; [|apply set_col_grows; reflexivity].
  eapply grows_trans; [|apply set_col_grows; reflexivity].
  apply set_col_grows; reflexivity.
Qed.

Lemma content_length_grows : respects grows content_length.
Proof. unfold content_length. repeat grows_step. Qed.

Lemma fill_missing_grows : respects grows fill_missing.
Proof. unfold fill_missing. repeat grows_step. Qed.

Lemma encode_lists_grows : respects grows encode_lists.
Proof.
  unfold encode_lists. apply (respects_bind grows grows_trans).
  - apply (fold_columns_grows (fun _ => pure list_to_pipe_separated)).
    reflexivity.
  - repeat grows_step.
Qed.

Lemma names_select_columns :
  forall cols df,
    names (select_columns cols df) = filter (fun c => has_col c df) cols.
Proof.
  intros cols df. unfold names, select_columns, has_col. cbn [columns].
  induction cols as [|c cols IH]; cbn; [reflexivity|].
  rewrite map_app, IH. now destruct (lookup c (columns df)).
Qed.

Lemma filter_all :
  forall (A : Type) (p : A -> bool) (l : list A),
    (forall x, In x l -> p x = true) -> filter p l = l.
Proof.
  intros A p l H. induction l as [|x l IH]; cbn; [reflexivity|].
  rewrite (H x (or_introl eq_refl)). f_equal. apply IH.
  intros y Hy. apply H. now right.
Qed.

Lemma filter_none :
  forall (A : Type) (p : A -> bool) (l : list A),
    Forall (fun x => p x = false) l -> filter p l = [].
Proof.
  intros A p l H. induction H as [|x l Hx _ IH]; cbn; [reflexivity|].
  now rewrite Hx.
Qed.

Lemma preferred_order_NoDup : NoDup preferred_order.
Proof.
  unfold preferred_order.
  repeat (constructor; [apply not_in_by_eqb; reflexivity|]). constructor.
Qed.

(** Step 8 puts the columns named in [preferred_order] first, in that
    order, and the others after them in the order they had. *)
Lemma names_reorder_columns :
  forall df,
    names (reorder_columns df)
    = (filter (fun c => has_col c df) preferred_order
       ++ filter (fun c => negb (preferred c)) (names df))%list.
Proof.
  intros df. unfold reorder_columns. rewrite names_select_columns.
  fold (names df).
  set (final := filter (fun col => has_col col df) preferred_order).
  rewrite filter_app. f_equal.
  - apply filter_all. intros c Hc. unfold final in Hc.
    apply filter_In in Hc. tauto.
  - rewrite filter_all.
    + apply filter_ext_in. intros c Hc. f_equal.
      destruct (existsb (String.eqb c) final) eqn:E.
      * apply existsb_exists in E. destruct E as [y [Hy E]].
        apply String.eqb_eq in E. subst y. unfold final in Hy.
        apply filter_In in Hy. symmetry. apply existsb_exists.
        exists c. split; [tauto|apply String.eqb_refl].
      * destruct (preferred c) eqn:P; [|reflexivity].
        unfold preferred in P. apply existsb_exists in P.
        destruct P as [y [Hy P]]. apply String.eqb_eq in P. subst y.
        assert (X : existsb (String.eqb c) final = true); [|congruence].
        apply existsb_exists. exists c. split; [|apply String.eqb_refl].
        apply filter_In. split; [exact Hy|now apply has_col_names].
    + intros c Hc. apply filter_In in Hc. now apply has_col_names.
Qed.

Lemma names_take_rows :
  forall idx df, names (take_rows idx df) = names df.
Proof.
  intros idx df. unfold names, take_rows. cbn [columns].
  rewrite map_map. apply map_ext. now intros [c vs].
Qed.

Lemma transform_names :
  forall df T,
    transform df = Ok T ->
    names T
    = (filter (fun c => has_col c T) preferred_order
       ++ filter (fun c => negb (preferred c)) (names df))%list
    /\ incl (names df) (names T)
    /\ (NoDup (names df) -> NoDup (names T)).
Proof.
  intros df T H. unfold transform in H.
  apply bind_Ok in H. destruct H as [d1 [E1 H]].
  apply bind_Ok in H. destruct H as [d2 [E2 H]].
  apply bind_Ok in H. destruct H as [d3 [E3 H]].
  apply bind_Ok in H. destruct H as [d4 [E4 H]].
  apply bind_Ok in H. destruct H as [d5 [E5 H]].
  apply bind_Ok in H. destruct H as [d6 [E6 H]].
  apply bind_Ok in H. destruct H as [d7 [E7 H]].
  injection H as <-.
  assert (G : grows df d7).
  { apply (grows_trans _ _ _ (parse_lists_grows _ _ E1)).
    apply (grows_trans _ _ _ (clean_texts_grows _ _ E2)).
    apply (grows_trans _ _ _ (derive_columns_grows _ _ E3)).
    apply (grows_trans _ _ _ (parse_dates_grows _ _ E4)).
    apply (grows_trans _ _ _ (content_length_grows _ _ E5)).
    apply (grows_trans _ _ _ (fill_missing_grows _ _ E6)).
    exact (encode_lists_grows _ _ E7). }
  destruct G as [added [Ea [Pa Na]]].
  assert (Hhas : forall c, has_col c (reorder_columns d7) = has_col c d7).
  { intros c. unfold has_col. now rewrite lookup_reorder_columns. }
  assert (Hnames : names (reorder_columns d7)
                   = (filter (fun c => has_col c (reorder_columns d7))
                             preferred_order
                      ++ filter (fun c => negb (preferred c)) (names df))%list).
  { rewrite names_reorder_columns. f_equal.
    - apply filter_ext. intros c. now rewrite Hhas.
    - rewrite Ea, filter_app, (filter_none _ _ added), app_nil_r;
        [reflexivity|].
      eapply Forall_impl; [|exact Pa]. cbn. intros c ->. reflexivity. }
  split; [exact Hnames|]. split.
  - intros c Hc. apply has_col_names. rewrite Hhas. apply has_col_names.
    rewrite Ea. apply in_or_app. now left.
  - intros Hnd. rewrite names_reorder_columns. apply NoDup_app.
    + apply NoDup_filter, preferred_order_NoDup.
    + apply NoDup_filter, Na, Hnd.
    + intros c H1 H2. apply filter_In in H1, H2.
      destruct H1 as [H1 _], H2 as [_ H2].
      assert (X : preferred c = true); [|now rewrite X in H2].
      apply existsb_exists. exists c. split; [exact H1|apply String.eqb_refl].
Qed.

End OrderFacts.

(** X10.  A run on a table whose column names are distinct returns a table
    whose columns are: the names of [preferred_order] it has, in that order,
    then the input's columns that [preferred_order] does not name, in the
    order the input had them.  The names stay distinct and no column of
    the input is lost. *)
Theorem output_columns_in_preferred_order :
  forall (L : Library) (df out : DataFrame) (removed : nat),
    NoDup (names df) ->
    clean_mapmf_data df = Ok (out, removed) ->
    names out
    = (filter (fun c => has_col c out) preferred_order
       ++ filter (fun c => negb (preferred c)) (names df))%list
    /\ incl (names df) (names out)
    /\ NoDup (names out).
Proof.
  intros L df out removed Hnd H.
  destruct (clean_mapmf_data_stages _ _ _ H)
    as [T [ids [ds [HT [_ [_ [Hout _]]]]]]].
  destruct (transform_names _ _ HT) as [Hn [Hincl Hnd']].
  assert (Hhas : forall c, has_col c out = has_col c T).
  { intros c. apply Bool.eq_true_iff_eq.
    rewrite !has_col_names. subst out. now rewrite !names_take_rows. }
  assert (E : names out = names T)
    by (subst out; now rewrite !names_take_rows).
  rewrite E. split; [|split; [exact Hincl|exact (Hnd' Hnd)]].
  rewrite Hn. f_equal. apply filter_ext. intros c. now rewrite Hhas.
Qed.

Module OrderExamples.

(** Two incidents in a table that begins with two columns the preferred
    order does not name. *)
Definition linked_table : DataFrame :=
  frame 2
    [("url", [VStr "u1"; VStr "u2"]);
     ("content", [VStr "x"; VStr "y"]);
     ("lang", [VStr "en"; VStr "fr"]);
     ("country", [VStr "FR"; VNaN]);
     ("title", [VStr "a"; VStr "b"]);
     ("date", [VStr "2024-01-01"; VStr "2024-02-01"]);
     ("id", [VInt 1; VInt 2])].

Definition linked_output : DataFrame * nat :=
  Eval vm_compute in run linked_table.

End OrderExamples.
Import OrderExamples.

Lemma output_columns_in_preferred_order_witness :
  names (fst linked_output)
  = (filter (fun c => has_col c (fst linked_output)) preferred_order
     ++ filter (fun c => negb (preferred c)) (names linked_table))%list
  /\ incl (names linked_table) (names (fst linked_output))
  /\ NoDup (names (fst linked_output)).
Proof.
  apply (output_columns_in_preferred_order RefLib linked_table
           (fst linked_output) (snd linked_output)).
  - vm_compute.
    repeat (constructor; [apply not_in_by_eqb; reflexivity|]). constructor.
  - vm_compute. reflexivity.
Defined.

Example linked_output_names :
  names (fst linked_output)
  = ["id"; "title"; "date"; "month"; "day_of_week"; "country"; "content";
     "content_length"; "url"; "lang"].
Proof. reflexivity. Qed.

(** ** The columns computed from [subjects] *)

Section SubjectFacts.
Context {L : Library}.

Lemma subjects_not_list_column : ~ In "subjects" list_columns.
Proof. apply not_in_by_eqb. reflexivity. Qed.

Lemma parse_lists_subjects :
  establishes "subjects" "subjects" parse_subjects_column parse_lists.
Proof.
  unfold parse_lists. apply establishes_after.
  - apply fold_columns_preserves, subjects_not_list_column.
  - apply establishes_when_col, establishes_apply_col.
Qed.

Lemma encode_lists_journalist_types :
  establishes "journalist_types" "journalist_types"
    (pure list_to_pipe_separated) encode_lists.
Proof.
  unfold encode_lists. apply establishes_after.
  - apply fold_columns_preserves, not_in_by_eqb. reflexivity.
  - apply establishes_then.
    + apply establishes_when_col, establishes_apply_col.
    + apply preserves_when_col, preserves_apply_col. discriminate.
Qed.

Lemma flat_map_length_le :
  forall (A B : Type) (f : A -> list B) (l : list A),
    (forall x, (List.length (f x) <= 1)%nat) ->
    (List.length (flat_map f l) <= List.length l)%nat.
Proof.
  intros A B f l H. induction l as [|x l IH]; cbn; [lia|].
  rewrite length_app. specialize (H x). lia.
Qed.

Lemma transform_subjects :
  forall df T raw,
    transform df = Ok T -> get_col "subjects" df = Ok raw ->
    exists decoded,
      mapM parse_subjects_column raw = Ok decoded
      /\ get_col "subjects_count" T = Ok (map subjects_count decoded)
      /\ get_col "journalist_types" T
         = Ok (map (fun x => list_to_pipe_separated (journalist_types x))
                   decoded).
Proof.
  intros df T raw HT Hraw.
  destruct (transform_stages _ _ HT)
    as [d1 [d2 [d3 [d4 [d5 [d6 [d7 [H1 [H2 [H3 [H4 [H5 [H6 [H7 ->]]]]]]]]]]]]]].
  destruct (parse_lists_subjects _ _ _ H1 Hraw) as [decoded [Hdec Hs1]].
  exists decoded. split; [exact Hdec|].
  assert (Hs2 : get_col "subjects" d2 = Ok decoded).
  { refine (keeps_get_col _ _ _ _ (clean_texts_preserves "subjects" _ _ _ H2)
              Hs1).
    apply not_in_by_eqb. reflexivity. }
  destruct (derive_subjects_count _ _ _ H3 Hs2) as [counts [Hc Hc3]].
  destruct (derive_journalist_types _ _ _ H3 Hs2) as [types [Ht Ht3]].
  rewrite mapM_pure in Hc, Ht. injection Hc as <-. injection Ht as <-.
  rewrite !get_col_reorder_columns. split.
  - refine (keeps_get_col _ _ _ _
              (encode_lists_preserves "subjects_count" _ _ _ H7) _);
      [apply not_in_by_eqb; reflexivity|].
    refine (keeps_get_col _ _ _ _
              (fill_missing_preserves "subjects_count" _ _ _ H6) _);
      [apply not_in_by_eqb; reflexivity|].
    refine (keeps_get_col _ _ _ _
              (content_length_preserves "subjects_count" _ _ _ H5) _);
      [discriminate|].
    refine (keeps_get_col _ _ _ _
              (parse_dates_preserves "subjects_count" _ _ _ H4) Hc3).
    apply not_in_by_eqb. reflexivity.
  - assert (Ht6 : get_col "journalist_types" d6
                  = Ok (map journalist_types decoded)).
    { refine (keeps_get_col _ _ _ _
                (fill_missing_preserves "journalist_types" _ _ _ H6) _);
        [apply not_in_by_eqb; reflexivity|].
      refine (keeps_get_col _ _ _ _
                (content_length_preserves "journalist_types" _ _ _ H5) _);
        [discriminate|].
      refine (keeps_get_col _ _ _ _
                (parse_dates_preserves "journalist_types" _ _ _ H4) Ht3).
      apply not_in_by_eqb. reflexivity. }
    destruct (encode_lists_journalist_types _ _ _ H7 Ht6) as [ws [Hws Hget]].
    rewrite mapM_pure, map_map in Hws. injection Hws as <-. exact Hget.
Qed.

End SubjectFacts.

(** X11.  When the transformation returns on a table with a [subjects]
    column, every cell of that column parses, [subjects_count] holds the
    number of subjects of the parsed cell (0 when it is not a list), and
    [journalist_types] holds the pipe-joined types of the subjects whose
    kind is journalist.  The journalists of a cell, like the genders
    [extract_genders_from_subjects] collects, are never more than its
    subjects. *)
Theorem subject_columns_follow_parsed_subjects :
  forall (L : Library) (df T : DataFrame) (raw : column),
    transform df = Ok T ->
    get_col "subjects" df = Ok raw ->
    (exists decoded,
        mapM parse_subjects_column raw = Ok decoded
        /\ get_col "subjects_count" T = Ok (map subjects_count decoded)
        /\ get_col "journalist_types" T
           = Ok (map (fun x => list_to_pipe_separated (journalist_types x))
                     decoded))
    /\ (forall x, exists n js gs,
           subjects_count x = VInt (Z.of_nat n)
           /\ journalist_types x = VList js
           /\ extract_genders_from_subjects x = VList gs
           /\ (List.length js <= n)%nat
           /\ (List.length gs <= n)%nat
           /\ (forall l, x = VList l -> n = List.length l)).
Proof.
  intros L df T raw HT Hraw. split; [exact (transform_subjects df T raw HT Hraw)|].
  intros x. destruct x as [| | |b|z|s|t|l|d];
    try (exists O, [], []; repeat split; cbn; try lia; discriminate).
  exists (List.length l). cbn [subjects_count journalist_types
                                extract_genders_from_subjects].
  do 2 eexists. split; [reflexivity|]. split; [reflexivity|].
  split; [reflexivity|]. split; [|split].
  - apply flat_map_length_le. intros s.
    destruct s as [| | |b|z|s|t|l'|d]; cbn; try lia.
    destruct (dict_get "kind" d) as [[| | |b|z|k|t|l'|d']|]; cbn; try lia.
    destruct (String.eqb k "journalist"); cbn; lia.
  - apply flat_map_length_le. intros s.
    destruct s as [| | |b|z|s|t|l'|d]; cbn; try lia.
    destruct (dict_get "gender" d); cbn; lia.
  - intros l' E. now injection E as <-.
Qed.

Module SubjectExamples.

(** Two incidents: two subjects, one of them a journalist; no subjects. *)
Definition subjects_table : DataFrame :=
  frame 2
    [("id", [VInt 1; VInt 2]);
     ("title", [VStr "a"; VStr "b"]);
     ("content", [VStr "x"; VStr "y"]);
     ("date", [VStr "2024-01-01"; VStr "2024-01-02"]);
     ("country", [VStr "FR"; VStr "DE"]);
     ("subjects",
      [VStr "[{'kind': 'journalist', 'type': 'Reporter'}, {'kind': 'media'}]";
       VNaN])].

Definition subjects_table_transformed : DataFrame :=
  Eval vm_compute in transformed subjects_table.

End SubjectExamples.
Import SubjectExamples.

Example subjects_table_columns :
  get_col "subjects_count" subjects_table_transformed = Ok [VInt 2; VInt 0]
  /\ get_col "journalist_types" subjects_table_transformed
     = Ok [VStr "Reporter"; VStr ""].
Proof. split; reflexivity. Qed.

Lemma subject_columns_follow_parsed_subjects_witness :
  (exists decoded,
      mapM (parse_subjects_column (L := RefLib))
        [VStr "[{'kind': 'journalist', 'type': 'Reporter'}, {'kind': 'media'}]";
         VNaN] = Ok decoded
      /\ get_col "subjects_count" subjects_table_transformed
         = Ok (map subjects_count decoded)
      /\ get_col "journalist_types" subjects_table_transformed
         = Ok (map (fun x => list_to_pipe_separated (journalist_types x))
                   decoded))
  /\ (forall x, exists n js gs,
         subjects_count x = VInt (Z.of_nat n)
         /\ journalist_types x = VList js
         /\ extract_genders_from_subjects x = VList gs
         /\ (List.length js <= n)%nat
         /\ (List.length gs <= n)%nat
         /\ (forall l, x = VList l -> n = List.length l)).
Proof.
  apply (subject_columns_follow_parsed_subjects RefLib subjects_table
           subjects_table_transformed).
  - vm_compute. reflexivity.
  - vm_compute. reflexivity.
Defined.

(** ** Row labels *)

Section LabelFacts.
Context {L : Library}.

(** Picking rows of a selection is picking rows of the table. *)
Lemma take_rows_compose :
  forall idx1 idx2 df,
    (forall i, In i idx2 -> (i < List.length idx1)%nat) ->
    take_rows idx2 (take_rows idx1 df)
    = take_rows (map (fun i => nth i idx1 O) idx2) df.
Proof.
  intros idx1 idx2 df H. unfold take_rows. cbn [index columns]. f_equal.
  - rewrite map_map. apply map_ext_in. intros i Hi.
    apply (nth_map_in_range _ _ (fun j => nth j (index df) O)). now apply H.
  - rewrite map_map. apply map_ext. intros [c vs]. f_equal.
    rewrite map_map. apply map_ext_in. intros i Hi.
    apply (nth_map_in_range _ _ (fun j => nth j vs VNaN)). now apply H.
Qed.

Lemma NoDup_map_nth :
  forall (l idx : list nat),
    NoDup l -> NoDup idx ->
    (forall i, In i idx -> (i < List.length l)%nat) ->
    NoDup (map (fun i => nth i l O) idx).
Proof.
  intros l idx Hl Hidx. induction Hidx as [|i idx Hi Hnd IH]; intros Hr.
  - constructor.
  - cbn [map]. constructor.
    + intros Hin. apply in_map_iff in Hin. destruct Hin as [j [E Hj]].
      assert (j = i); [|subst; contradiction].
      apply (proj1 (NoDup_nth l O) Hl); [apply Hr; now right
                                         |apply Hr; now left|exact E].
    + apply IH. intros j Hj. apply Hr. now right.
Qed.

(** What a run returns is a selection of rows of the table steps 1 to 8
    make: the first occurrences of the identifiers, in date order. *)
Lemma run_is_selection :
  forall df out removed,
    well_formed df ->
    clean_mapmf_data df = Ok (out, removed) ->
    exists T idx,
      transform df = Ok T
      /\ index T = index df
      /\ out = take_rows idx T
      /\ NoDup idx
      /\ (forall i, In i idx -> (i < nrows df)%nat).
Proof.
  intros df out removed Hwf H.
  destruct (clean_mapmf_data_stages _ _ _ H)
    as [T [ids [ds [HT [Hids [Hds [Hout _]]]]]]].
  destruct (transform_shape _ _ HT) as [Hidx HwfT]. specialize (HwfT Hwf).
  set (idx1 := first_occurrences ids) in *.
  set (idx2 := sort_indexer ds) in *.
  destruct (get_col_take_rows_inv _ _ _ _ Hds) as [dT [_ Eds]].
  assert (Hlen : List.length ds = List.length idx1)
    by (rewrite Eds; apply length_map).
  pose proof (sort_indexer_perm ds) as Hperm. fold idx2 in Hperm.
  rewrite Hlen in Hperm.
  assert (Hin2 : forall i, In i idx2 -> (i < List.length idx1)%nat).
  { intros i Hi. apply (Permutation_in _ Hperm) in Hi.
    apply in_seq in Hi. lia. }
  assert (Hids_len : List.length ids = nrows df).
  { unfold get_col in Hids.
    destruct (lookup "id" (columns T)) as [vs|] eqn:E; [|discriminate].
    injection Hids as <-. rewrite (well_formed_lookup _ _ _ HwfT E).
    unfold nrows. now rewrite Hidx. }
  exists T, (map (fun i => nth i idx1 O) idx2).
  split; [exact HT|]. split; [exact Hidx|]. split; [|split].
  - subst out. now apply take_rows_compose.
  - apply (Permutation_NoDup (l := idx1)).
    + apply Permutation_sym. now apply Permutation_map_nth.
    + unfold idx1, first_occurrences. apply NoDup_filter, seq_NoDup.
  - intros i Hi. apply in_map_iff in Hi. destruct Hi as [j [<- Hj]].
    rewrite <- Hids_len. apply first_occurrences_bound.
    apply nth_In. now apply Hin2.
Qed.

End LabelFacts.

(** X12.  A run on a well-formed table returns a well-formed table and
    does not renumber the rows: every row label of the output is a label
    of the input, the output row carries the label its input row had, and
    distinct input labels stay distinct. *)
Theorem output_keeps_row_labels :
  forall (L : Library) (df out : DataFrame) (removed : nat),
    well_formed df ->
    clean_mapmf_data df = Ok (out, removed) ->
    well_formed out
    /\ (nrows out <= nrows df)%nat
    /\ incl (index out) (index df)
    /\ (NoDup (index df) -> NoDup (index out))
    /\ exists T idx,
         transform df = Ok T
         /\ NoDup idx
         /\ forall p,
              (p < nrows out)%nat ->
              (nth p idx O < nrows df)%nat
              /\ row out p = row T (nth p idx O)
              /\ nth p (index out) O = nth (nth p idx O) (index df) O.
Proof.
  intros L df out removed Hwf H.
  destruct (run_is_selection _ _ _ Hwf H)
    as [T [idx [HT [Hidx [-> [Hnd Hr]]]]]].
  split; [apply well_formed_take_rows|].
  rewrite nrows_take_rows. unfold take_rows at 1 2. cbn [index].
  rewrite Hidx. split; [|split; [|split]].
  - apply NoDup_incl_length with (l' := seq 0 (nrows df)) in Hnd.
    + now rewrite length_seq in Hnd.
    + intros i Hi. apply in_seq. specialize (Hr i Hi). lia.
  - intros x Hx. apply in_map_iff in Hx. destruct Hx as [i [<- Hi]].
    apply nth_In, Hr, Hi.
  - intros Hl. now apply NoDup_map_nth.
  - exists T, idx. split; [exact HT|]. split; [exact Hnd|].
    intros p Hp. split; [apply Hr, nth_In, Hp|].
    split; [now apply row_take_rows|].
    unfold take_rows. cbn [index]. rewrite Hidx.
    now apply (nth_map_in_range _ _ (fun j => nth j (index df) O)).
Qed.

Lemma output_keeps_row_labels_witness :
  well_formed (fst three_dates_output)
  /\ (nrows (fst three_dates_output) <= nrows three_dates_table)%nat
  /\ incl (index (fst three_dates_output)) (index three_dates_table)
  /\ (NoDup (index three_dates_table) ->
      NoDup (index (fst three_dates_output)))
  /\ exists T idx,
       transform (L := RefLib) three_dates_table = Ok T
       /\ NoDup idx
       /\ forall p,
            (p < nrows (fst three_dates_output))%nat ->
            (nth p idx O < nrows three_dates_table)%nat
            /\ row (fst three_dates_output) p = row T (nth p idx O)
            /\ nth p (index (fst three_dates_output)) O
               = nth (nth p idx O) (index three_dates_table) O.
Proof.
  apply (output_keeps_row_labels RefLib three_dates_table
           (fst three_dates_output) (snd three_dates_output)).
  - unfold well_formed. vm_compute. repeat constructor.
  - vm_compute. reflexivity.
Defined.

(** ** mapmf_scraper.py: what the loop collects *)

Module ScraperMain.
Import Scraper.

Section Main.
Variable server : Type.
Variable fetch_alerts : server -> Z -> Z -> option response * server.

(** [get_total_count()]: one request for a page of one record.  A body
    without the key counts as 0, whether or not it is empty. *)
Definition get_total_count (w : server) : Z * server :=
  let '(result, w') := fetch_alerts w 0 1 in
  (match result with
   | Some r => match estimatedTotalHits r with Some n => n | None => 0 end
   | None => 0
   end, w').

(** The script: the loop is run with the total just read as its target. *)
Definition main (fuel : nat) (w : server) : option (stop_reason * state server) :=
  let '(total, w') := get_total_count w in
  scrape_all_alerts fetch_alerts fuel total w'.

(** The service holds the records [data], serves the page asked for and
    reports their number as the estimated total. *)
Definition serves (data : list value) : Prop :=
  forall w off lim,
    0 <= off -> 0 <= lim ->
    exists w',
      fetch_alerts w off lim
      = (Some {| hits := Some (firstn (Z.to_nat lim)
                                      (skipn (Z.to_nat off) data));
                 estimatedTotalHits := Some (Z.of_nat (List.length data)) |},
         w').

(** No page is longer than the limit the loop asks for. *)
Definition respects_limit : Prop :=
  forall w off r w' hs,
    fetch_alerts w off batch_size = (Some r, w') ->
    hits r = Some hs ->
    Z.of_nat (List.length hs) <= batch_size.

End Main.

Arguments get_total_count {server} fetch_alerts w.
Arguments main {server} fetch_alerts fuel w.
Arguments serves {server} fetch_alerts data.
Arguments respects_limit {server} fetch_alerts.

(** A service over a fixed list of records, without a state. *)
Definition fixed_index (data : list value) (w : unit) (off lim : Z)
  : option response * unit :=
  (Some {| hits := Some (firstn (Z.to_nat lim) (skipn (Z.to_nat off) data));
           estimatedTotalHits := Some (Z.of_nat (List.length data)) |}, w).

End ScraperMain.
Import Scraper ScraperMain.

Section CollectionFacts.
Variable server : Type.
Variable fetch_alerts : server -> Z -> Z -> option response * server.

(** What one turn does to the records and the offset. *)
Lemma iteration_stop :
  forall target_count (st st' : state server) why,
    iteration fetch_alerts target_count st = Stop why st' ->
    offset st' = offset st
    /\ match why with
       | TargetReached =>
           all_alerts st' = all_alerts st
           /\ target_count <= Z.of_nat (List.length (all_alerts st))
       | FetchFailed | NoMoreAlerts =>
           all_alerts st' = all_alerts st
           /\ Z.of_nat (List.length (all_alerts st)) < target_count
       | ReachedEnd =>
           Z.of_nat (List.length (all_alerts st)) < target_count
           /\ exists r w' h hs,
                fetch_alerts (remote st) (offset st) batch_size = (Some r, w')
                /\ hits r = Some (h :: hs)
                /\ all_alerts st' = (all_alerts st ++ h :: hs)%list
       end.
Proof.
  intros target_count st st' why. unfold iteration.
  destruct (Z.ltb_spec (Z.of_nat (List.length (all_alerts st))) target_count)
    as [Hlt|Hge].
  2:{ intros H. injection H as <- <-. repeat split. exact Hge. }
  destruct (fetch_alerts _ _ _) as [[r|] w] eqn:E.
  2:{ intros H. injection H as <- <-. now repeat split. }
  destruct (hits r) as [[|h hs]|] eqn:Hh.
  - intros H. injection H as <- <-. now repeat split.
  - cbn [all_alerts offset remote].
    destruct (_ >=? _); [|discriminate].
    intros H. injection H as <- <-. cbn [all_alerts offset].
    split; [reflexivity|]. split; [exact Hlt|].
    now exists r, w, h, hs.
  - intros H. injection H as <- <-. now repeat split.
Qed.

Lemma iteration_continue :
  forall target_count (st st' : state server),
    iteration fetch_alerts target_count st = Continue st' ->
    offset st' = offset st + batch_size
    /\ Z.of_nat (List.length (all_alerts st)) < target_count
    /\ exists r w' h hs,
         fetch_alerts (remote st) (offset st) batch_size = (Some r, w')
         /\ hits r = Some (h :: hs)
         /\ all_alerts st' = (all_alerts st ++ h :: hs)%list.
Proof.
  intros target_count st st'. unfold iteration.
  destruct (Z.ltb_spec (Z.of_nat (List.length (all_alerts st))) target_count)
    as [Hlt|Hge]; [|discriminate].
  destruct (fetch_alerts _ _ _) as [[r|] w] eqn:E; [|discriminate].
  destruct (hits r) as [[|h hs]|] eqn:Hh; try discriminate.
  cbn [all_alerts offset remote].
  destruct (_ >=? _); [discriminate|].
  intros H. injection H as <-. cbn [all_alerts offset].
  split; [reflexivity|]. split; [exact Hlt|]. now exists r, w, h, hs.
Qed.

Lemma scrape_loop_outcome_from :
  forall fuel target_count (st st' : state server) why,
    scrape_loop fetch_alerts fuel target_count st = Some (why, st') ->
    exists (pages : nat) (new : list value),
      all_alerts st' = (all_alerts st ++ new)%list
      /\ offset st' = offset st + batch_size * Z.of_nat pages
      /\ (pages <= List.length new)%nat
      /\ match why with
         | TargetReached =>
             target_count <= Z.of_nat (List.length (all_alerts st'))
         | FetchFailed | NoMoreAlerts =>
             Z.of_nat (List.length (all_alerts st')) < target_count
         | ReachedEnd => (pages < List.length new)%nat
         end.
Proof.
  induction fuel as [|fuel IH]; intros target_count st st' why H;
    [discriminate|].
  cbn [scrape_loop] in H.
  destruct (iteration fetch_alerts target_count st) as [why0 st0|st0] eqn:E.
  - injection H as <- <-. apply iteration_stop in E. destruct E as [Ho E].
    destruct why0.
    + destruct E as [Ea Ht]. exists O, []. rewrite app_nil_r, Ea.
      repeat split; [lia|cbn; lia|exact Ht].
    + destruct E as [Ea Ht]. exists O, []. rewrite app_nil_r, Ea.
      repeat split; [lia|cbn; lia|exact Ht].
    + destruct E as [Ea Ht]. exists O, []. rewrite app_nil_r, Ea.
      repeat split; [lia|cbn; lia|exact Ht].
    + destruct E as [_ [r [w' [h [hs [_ [_ Ea]]]]]]]. exists O, (h :: hs).
      repeat split; [exact Ea|lia|cbn; lia|cbn; lia].
  - apply iteration_continue in E.
    destruct E as [Ho [_ [r [w' [h [hs [_ [_ Ea]]]]]]]].
    destruct (IH _ _ _ _ H) as [pages [new [Ha [Hoff [Hp Hw]]]]].
    exists (S pages), ((h :: hs) ++ new)%list.
    rewrite Hoff, Ho. rewrite Ha in Hw |- *. rewrite Ea in Hw |- *.
    rewrite <- app_assoc in Hw |- *.
    split; [reflexivity|]. split; [lia|].
    rewrite (length_app (h :: hs) new). cbn [List.length].
    split; [lia|]. destruct why; try exact Hw. lia.
Qed.

Lemma scrape_loop_within_limit :
  forall fuel target_count (st st' : state server) why,
    respects_limit fetch_alerts ->
    scrape_loop fetch_alerts fuel target_count st = Some (why, st') ->
    Z.of_nat (List.length (all_alerts st)) <= offset st ->
    Z.of_nat (List.length (all_alerts st)) < target_count + batch_size ->
    Z.of_nat (List.length (all_alerts st')) <= offset st' + batch_size
    /\ Z.of_nat (List.length (all_alerts st')) < target_count + batch_size.
Proof.
  intros fuel target_count st st' why Hlim.
  revert st. induction fuel as [|fuel IH]; intros st H Hoff Htar;
    [discriminate|].
  cbn [scrape_loop] in H.
  destruct (iteration fetch_alerts target_count st) as [why0 st0|st0] eqn:E.
  - injection H as <- <-. apply iteration_stop in E. destruct E as [Ho E].
    rewrite Ho. unfold batch_size in *.
    destruct why0;
      try (destruct E as [-> _]; lia).
    destruct E as [Ht [r [w' [h [hs [Ef [Hh ->]]]]]]].
    pose proof (Hlim _ _ _ _ _ Ef Hh) as Hl. unfold batch_size in Hl.
    rewrite length_app. lia.
  - apply iteration_continue in E.
    destruct E as [Ho [Ht [r [w' [h [hs [Ef [Hh Ea]]]]]]]].
    pose proof (Hlim _ _ _ _ _ Ef Hh) as Hl.
    apply (IH st0 H); rewrite Ea, length_app; unfold batch_size in *; lia.
Qed.

End CollectionFacts.



(** X14.  Against a service that never returns more than the 1000 records
    asked for, the loop ends with at most [offset + 1000] records, and,
    for a target that is not negative, with fewer than the target plus
    1000. *)
Theorem page_limit_bounds_collection :
  forall (server : Type)
         (fetch_alerts : server -> Z -> Z -> option response * server)
         (fuel : nat) (target_count : Z) (w : server)
         (why : stop_reason) (st' : state server),
    respects_limit fetch_alerts ->
    0 <= target_count ->
    scrape_all_alerts fetch_alerts fuel target_count w = Some (why, st') ->
    Z.of_nat (List.length (all_alerts st')) <= offset st' + 1000
    /\ Z.of_nat (List.length (all_alerts st')) < target_count + 1000.
Proof.
  intros server fetch_alerts fuel target_count w why st' Hlim Ht H.
  unfold scrape_all_alerts in H.
  apply (scrape_loop_within_limit _ _ _ _ _ _ _ Hlim H);
    cbn [all_alerts offset List.length]; unfold batch_size; lia.
Qed.

Lemma page_limit_bounds_collection_witness :
  6 <= 2000 + 1000 /\ 6 < 5 + 1000.
Proof.
  apply (page_limit_bounds_collection nat ScraperFacts.two_per_page 10 5 O
           ReachedEnd
           {| all_alerts := [VInt 0; VInt 1; VInt 1000; VInt 1001;
                             VInt 2000; VInt 2001];
              offset := 2000; remote := 3%nat |}).
  - intros w off r w' hs E Hh. injection E as <- _.
    injection Hh as <-. vm_compute. discriminate.
  - lia.
  - reflexivity.
Defined.

Section ServedFacts.
Variable server : Type.
Variable fetch_alerts : server -> Z -> Z -> option response * server.

Lemma firstn_then_page :
  forall (A : Type) (a b : nat) (l : list A),
    (firstn a l ++ firstn b (skipn a l))%list = firstn (a + b) l.
Proof.
  intros A a b. induction a as [|a IH]; intros l; [reflexivity|].
  destruct l as [|x l]; cbn [firstn skipn Nat.add app].
  - now rewrite firstn_nil.
  - now rewrite IH.
Qed.

(** While the service serves [data] and the loop runs with their number as
    its target, the loop holds the first [offset] records and ends with
    all of them. *)
Lemma scrape_loop_served :
  forall (data : list value) fuel (st st' : state server) why,
    serves fetch_alerts data ->
    all_alerts st = firstn (Z.to_nat (offset st)) data ->
    0 <= offset st ->
    offset st < Z.of_nat (List.length data) \/ offset st = 0 ->
    scrape_loop fetch_alerts fuel (Z.of_nat (List.length data)) st
    = Some (why, st') ->
    all_alerts st' = data
    /\ (data <> [] -> why = ReachedEnd)
    /\ (data = [] -> why = TargetReached).
Proof.
  intros data fuel st st' why Hs. revert st.
  induction fuel as [|fuel IH]; intros st Ha Ho Hn H; [discriminate|].
  cbn [scrape_loop] in H. unfold iteration in H.
  assert (Hlen : List.length (all_alerts st)
                 = Nat.min (Z.to_nat (offset st)) (List.length data))
    by (rewrite Ha; apply length_firstn).
  destruct (Z.ltb_spec (Z.of_nat (List.length (all_alerts st)))
                       (Z.of_nat (List.length data))) as [Hlt|Hge].
  - assert (Hoff : offset st < Z.of_nat (List.length data)) by lia.
    destruct (Hs (remote st) (offset st) batch_size Ho ltac:(discriminate))
      as [w' Ef].
    rewrite Ef in H. cbn [hits estimatedTotalHits all_alerts offset remote] in H.
    assert (Hb : Z.to_nat batch_size = 1000%nat) by reflexivity.
    destruct (firstn (Z.to_nat batch_size)
                     (skipn (Z.to_nat (offset st)) data))
      as [|h hs] eqn:Hp.
    { apply (f_equal (@List.length value)) in Hp.
      rewrite length_firstn, length_skipn, Hb in Hp.
      cbn [List.length] in Hp. lia. }
    assert (Hall : (all_alerts st ++ h :: hs)%list
                   = firstn (Z.to_nat (offset st + batch_size)) data).
    { rewrite <- Hp, Ha, firstn_then_page. f_equal.
      rewrite Z2Nat.inj_add; [reflexivity|exact Ho|discriminate]. }
    destruct (Z.geb_spec (offset st + batch_size)
                         (Z.of_nat (List.length data))) as [Hend|Hmore].
    + injection H as <- <-. cbn [all_alerts]. rewrite Hall.
      split; [apply firstn_all2; lia|].
      split; [reflexivity|].
      intros ->. cbn [List.length] in Hoff. lia.
    + apply (IH _) in H; cbn [all_alerts offset];
        [exact H|exact Hall|unfold batch_size; lia|left; lia].
  - injection H as <- <-.
    assert (Hd : data = []).
    { destruct data as [|x data]; [reflexivity|].
      cbn [List.length] in *. lia. }
    rewrite Ha, Hd, firstn_nil.
    split; [reflexivity|]. split; [intros X; now elim X|reflexivity].
Qed.

End ServedFacts.

(** X15.  Against a service that holds a list of records, serves the page
    asked for and reports their number as the estimated total, the script
    collects exactly those records, in their order and each once.  It
    ends at the end of the data, or on the target test when there is no
    record, and the number of records plus one is fuel enough. *)
Theorem main_collects_every_alert :
  forall (server : Type)
         (fetch_alerts : server -> Z -> Z -> option response * server)
         (data : list value) (w : server),
    serves fetch_alerts data ->
    exists why st',
      (forall extra,
          main fetch_alerts (S (List.length data) + extra) w = Some (why, st'))
      /\ all_alerts st' = data
      /\ (data <> [] -> why = ReachedEnd)
      /\ (data = [] -> why = TargetReached).
Proof.
  intros server fetch_alerts data w Hs.
  destruct (Hs w 0 1 ltac:(lia) ltac:(lia)) as [w1 E1].
  set (st0 := {| all_alerts := []; offset := 0; remote := w1 |}).
  destruct (ScraperFacts.scrape_loop_enough_fuel server fetch_alerts
              (S (List.length data)) (Z.of_nat (List.length data)) st0)
    as [why [st' H]].
  { unfold remaining, st0. cbn [all_alerts List.length]. lia. }
  exists why, st'. split.
  - intros extra. unfold main, get_total_count. rewrite E1.
    cbn [estimatedTotalHits]. unfold scrape_all_alerts. fold st0.
    now apply ScraperFacts.scrape_loop_more_fuel.
  - apply (scrape_loop_served server fetch_alerts data
             (S (List.length data)) st0 st' why Hs);
      [reflexivity|cbn; lia|now right|exact H].
Qed.

Lemma main_collects_every_alert_witness :
  exists why st',
    (forall extra,
        main (fixed_index [VInt 7; VInt 8; VInt 9]) (4 + extra) tt
        = Some (why, st'))
    /\ all_alerts st' = [VInt 7; VInt 8; VInt 9]
    /\ ([VInt 7; VInt 8; VInt 9] <> [] -> why = ReachedEnd)
    /\ ([VInt 7; VInt 8; VInt 9] = [] -> why = TargetReached).
Proof.
  apply (main_collects_every_alert unit
           (fixed_index [VInt 7; VInt 8; VInt 9])
           [VInt 7; VInt 8; VInt 9] tt).
  intros w off lim _ _. exists w. reflexivity.
Defined.

(** X16.  When the count request fails, or the total it reports is absent
    or not positive, the script collects nothing: the loop ends on its
    first test and no page is requested. *)
Theorem main_without_total_collects_nothing :
  forall (server : Type)
         (fetch_alerts : server -> Z -> Z -> option response * server)
         (w : server) (fuel : nat),
    fst (get_total_count fetch_alerts w) <= 0 ->
    main fetch_alerts (S fuel) w
    = Some (TargetReached,
            {| all_alerts := []; offset := 0;
               remote := snd (fetch_alerts w 0 1) |})
    /\ (forall r,
           fst (fetch_alerts w 0 1) = Some r ->
           estimatedTotalHits r = None ->
           fst (get_total_count fetch_alerts w) = 0)
    /\ (fst (fetch_alerts w 0 1) = None ->
        fst (get_total_count fetch_alerts w) = 0).
Proof.
  intros server fetch_alerts w fuel. unfold main, get_total_count.
  destruct (fetch_alerts w 0 1) as [result w1]. cbn [fst snd].
  intros Ht. split; [|split].
  - unfold scrape_all_alerts. cbn [scrape_loop]. unfold iteration.
    cbn [all_alerts List.length].
    destruct (Z.ltb_spec (Z.of_nat 0)
                match result with
                | Some r => match estimatedTotalHits r with
                            | Some n => n
                            | None => 0
                            end
                | None => 0
                end) as [Hlt|Hge]; [cbn in Hlt; lia|reflexivity].
  - intros r -> ->. reflexivity.
  - intros ->. reflexivity.
Qed.

Lemma main_without_total_collects_nothing_witness :
  main (fun (w : nat) (_ _ : Z) => (@None response, S w)) 1 O
  = Some (TargetReached,
          {| all_alerts := []; offset := 0; remote := 1%nat |})
  /\ (forall r,
         @None response = Some r ->
         estimatedTotalHits r = None ->
         fst (get_total_count
                (fun (w : nat) (_ _ : Z) => (@None response, S w)) O) = 0)
  /\ (@None response = None ->
      fst (get_total_count
             (fun (w : nat) (_ _ : Z) => (@None response, S w)) O) = 0).
Proof.
  apply (main_without_total_collects_nothing nat
           (fun (w : nat) (_ _ : Z) => (@None response, S w)) O O).
  vm_compute. discriminate.
Defined.

(** ** When a run returns *)

Section ProgressFacts.
Context {L : Library}.

Definition succeeds {A : Type} (r : result A) : Prop := exists x, r = Ok x.

(** [k] returns on every table. *)
Definition total (k : DataFrame -> result DataFrame) : Prop :=
  forall df, succeeds (k df).

(** [k] returns on every table that has column [c], which the result has
    too. *)
Definition needs (c : string) (k : DataFrame -> result DataFrame) : Prop :=
  forall df,
    has_col c df = true ->
    exists df', k df = Ok df' /\ has_col c df' = true.

Lemma has_col_set_col :
  forall c d vs df, has_col c df = true -> has_col c (set_col d vs df) = true.
Proof.
  intros c d vs df H. unfold has_col, set_col in *. cbn [columns].
  destruct (String.eqb_spec c d) as [->|Hne].
  - now rewrite lookup_assign_same.
  - now rewrite lookup_assign_other.
Qed.

Lemma has_col_get_col :
  forall c df, has_col c df = true -> exists vs, get_col c df = Ok vs.
Proof.
  intros c df H. unfold has_col, get_col in *.
  destruct (lookup c (columns df)) as [vs|]; [now exists vs|discriminate].
Qed.

Lemma apply_col_progress :
  forall f src dst df vs ws,
    get_col src df = Ok vs -> mapM f vs = Ok ws ->
    apply_col f src dst df = Ok (set_col dst ws df).
Proof.
  intros f src dst df vs ws Hv Hw. unfold apply_col.
  rewrite Hv. cbn [bind]. now rewrite Hw.
Qed.

Lemma needs_apply_pure :
  forall f c dst, needs c (apply_col (pure f) c dst).
Proof.
  intros f c dst df H. destruct (has_col_get_col _ _ H) as [vs Hv].
  exists (set_col dst (map f vs) df). split.
  - apply (apply_col_progress _ _ _ _ vs); [exact Hv|apply mapM_pure].
  - now apply has_col_set_col.
Qed.

Lemma needs_bind :
  forall c k1 k2,
    needs c k1 -> needs c k2 -> needs c (fun df => bind (k1 df) k2).
Proof.
  intros c k1 k2 H1 H2 df H. destruct (H1 df H) as [d1 [E1 P1]].
  destruct (H2 d1 P1) as [d2 [E2 P2]]. exists d2. rewrite E1. now split.
Qed.

Lemma total_when_col :
  forall c k, needs c k -> total (when_col c k).
Proof.
  intros c k H df. unfold when_col. destruct (has_col c df) eqn:E.
  - destruct (H df E) as [df' [E' _]]. now exists df'.
  - now exists df.
Qed.

Lemma total_bind :
  forall k1 k2, total k1 -> total k2 -> total (fun df => bind (k1 df) k2).
Proof.
  intros k1 k2 H1 H2 df. destruct (H1 df) as [d1 E1]. rewrite E1. apply H2.
Qed.

Lemma total_foldM :
  forall (k : string -> DataFrame -> result DataFrame) cols,
    (forall col, total (k col)) ->
    total (foldM (fun df col => k col df) cols).
Proof.
  intros k cols H. induction cols as [|col cols IH]; intros df; cbn [foldM].
  - now exists df.
  - destruct (H col df) as [d1 E1]. rewrite E1. apply IH.
Qed.

(** A loop that rewrites columns in place returns when [f] returns on every
    cell of the columns it finds. *)
Lemma fold_columns_progress :
  forall f cols df,
    NoDup cols ->
    (forall c vs, In c cols -> get_col c df = Ok vs -> succeeds (mapM f vs)) ->
    succeeds (foldM (fun df col => when_col col (apply_col f col col) df)
                    cols df).
Proof.
  intros f cols df Hnd. revert df.
  induction Hnd as [|col cols Hnotin Hnd IH]; intros df H; cbn [foldM].
  - now exists df.
  - unfold when_col at 1. destruct (has_col col df) eqn:E.
    + destruct (has_col_get_col _ _ E) as [vs Hv].
      destruct (H col vs (or_introl eq_refl) Hv) as [ws Hw].
      rewrite (apply_col_progress _ _ _ _ _ _ Hv Hw). cbn [bind].
      apply IH. intros c vs' Hc Hv'. apply (H c vs'); [now right|].
      unfold get_col, set_col in Hv' |- *. cbn [columns] in Hv'.
      rewrite lookup_assign_other in Hv'; [exact Hv'|].
      intros ->. contradiction.
    + cbn [bind]. apply IH. intros c vs Hc Hv. apply (H c vs); [now right|].
      exact Hv.
Qed.

Lemma parse_lists_same_names : respects same_names parse_lists.
Proof.
  unfold parse_lists. apply (respects_bind _ same_names_trans).
  - apply (respects_foldM _ same_names_refl same_names_trans
             (fun col => when_col col (apply_col parse_list_column col col))).
    intros col. apply (respects_when_col _ same_names_refl), apply_col_in_place.
  - apply (respects_when_col _ same_names_refl), apply_col_in_place.
Qed.

Lemma grows_has_col :
  forall c df df', grows df df' -> has_col c df = true -> has_col c df' = true.
Proof.
  intros c df df' [added [E _]] H. apply has_col_names. rewrite E.
  apply in_or_app. left. now apply has_col_names.
Qed.

Lemma parse_lists_progress :
  forall df,
    (forall c raw, In c list_columns -> get_col c df = Ok raw ->
                   succeeds (mapM parse_list_column raw)) ->
    (forall raw, get_col "subjects" df = Ok raw ->
                 succeeds (mapM parse_subjects_column raw)) ->
    succeeds (parse_lists df).
Proof.
  intros df Hl Hs. unfold parse_lists.
  destruct (fold_columns_progress parse_list_column list_columns df
              list_columns_NoDup Hl) as [d E].
  rewrite E. cbn [bind]. unfold when_col.
  destruct (has_col "subjects" d) eqn:Eh; [|now exists d].
  destruct (has_col_get_col _ _ Eh) as [vs Hv].
  pose proof (fold_columns_preserves parse_list_column "subjects" list_columns
                subjects_not_list_column _ _ E) as K.
  destruct (Hs vs (keeps_get_col_back _ _ _ _ K Hv)) as [ws Hw].
  rewrite (apply_col_progress _ _ _ _ _ _ Hv Hw). now eexists.
Qed.

Lemma clean_texts_progress :
  forall df,
    (forall c raw, In c text_columns -> get_col c df = Ok raw ->
                   succeeds (mapM clean_text raw)) ->
    succeeds (clean_texts df).
Proof.
  intros df H. unfold clean_texts.
  apply fold_columns_progress; [apply text_columns_NoDup|exact H].
Qed.

Lemma derive_columns_progress :
  forall df,
    (forall vs, get_col "type_of_incident" df = Ok vs ->
                succeeds (mapM py_len vs)) ->
    succeeds (derive_columns df).
Proof.
  intros df H. unfold derive_columns.
  assert (Hrest : forall k, total k ->
            forall d, succeeds d ->
            succeeds (bind d k)).
  { intros k Hk d [x ->]. apply Hk. }
  apply (Hrest (fun df =>
     df <- when_col "source_of_incident"
             (apply_col (pure extract_primary_incident_type)
                "source_of_incident" "primary_source") df ;;
     df <- when_col "region_names" (fun df =>
             df <- apply_col (pure (region_level 1))
                     "region_names" "region_level_1" df ;;
             apply_col (pure (region_level 2))
               "region_names" "region_level_2" df) df ;;
     df <- when_col "gender" (fun df =>
             df <- apply_col (pure extract_primary_incident_type)
                     "gender" "primary_gender" df ;;
             df <- apply_col (pure (fun x => count_gender x "man"))
                     "gender" "gender_male_count" df ;;
             df <- apply_col (pure (fun x => count_gender x "woman"))
                     "gender" "gender_female_count" df ;;
             apply_col (pure gender_other_count)
               "gender" "gender_other_count" df) df ;;
     df <- when_col "subjects" (fun df =>
             df <- apply_col (pure subjects_count)
                     "subjects" "subjects_count" df ;;
             apply_col (pure journalist_types)
               "subjects" "journalist_types" df) df ;;
     when_col "who_was_attacked"
       (apply_col (pure extract_primary_incident_type)
          "who_was_attacked" "primary_victim_type") df)).
  - repeat first
      [ apply total_bind
      | apply total_when_col
      | apply needs_bind
      | apply needs_apply_pure ].
  - unfold when_col. destruct (has_col "type_of_incident" df) eqn:E;
      [|now exists df].
    destruct (has_col_get_col _ _ E) as [vs Hv].
    rewrite (apply_col_progress _ _ _ _ _ _ Hv (mapM_pure _ vs)).
    cbn [bind]. destruct (H vs Hv) as [ws Hw].
    erewrite apply_col_progress; [now eexists| |exact Hw].
    unfold get_col, set_col in Hv |- *. cbn [columns].
    now rewrite lookup_assign_other.
Qed.

Lemma content_length_total : total content_length.
Proof.
  unfold content_length. apply total_when_col, needs_apply_pure.
Qed.

Lemma fill_missing_progress :
  forall df,
    has_col "country" df = true -> has_col "title" df = true ->
    has_col "content" df = true ->
    succeeds (fill_missing df).
Proof.
  intros df Hc Ht Hn. unfold fill_missing.
  destruct (needs_apply_pure (fillna (VStr "Unknown")) "country" "country"
              df Hc) as [d1 [E1 _]].
  rewrite E1. cbn [bind].
  pose proof (apply_col_grows _ "country" "country" eq_refl _ _ E1) as G1.
  destruct (needs_apply_pure (fillna (VStr "")) "title" "title"
              d1 (grows_has_col _ _ _ G1 Ht)) as [d2 [E2 _]].
  rewrite E2. cbn [bind].
  pose proof (apply_col_grows _ "title" "title" eq_refl _ _ E2) as G2.
  destruct (needs_apply_pure (fillna (VStr "")) "content" "content"
              d2 (grows_has_col _ _ _ G2 (grows_has_col _ _ _ G1 Hn)))
    as [d3 [E3 _]].
  now exists d3.
Qed.

Lemma encode_lists_progress :
  forall df,
    (forall vs, get_col "subjects" df = Ok vs ->
                succeeds (mapM subjects_to_json vs)) ->
    succeeds (encode_lists df).
Proof.
  intros df H. unfold encode_lists.
  destruct (total_foldM
              (fun col => when_col col
                            (apply_col (pure list_to_pipe_separated) col col))
              list_columns
              (fun col => total_when_col _ _ (needs_apply_pure _ _ _)) df)
    as [d1 E1].
  rewrite E1. cbn [bind].
  destruct (total_when_col _ _
              (needs_apply_pure list_to_pipe_separated
                 "journalist_types" "journalist_types") d1) as [d2 E2].
  rewrite E2. cbn [bind].
  unfold when_col. destruct (has_col "subjects" d2) eqn:Eh; [|now exists d2].
  destruct (has_col_get_col _ _ Eh) as [vs Hv].
  assert (K : keeps "subjects" df d2).
  { apply (keeps_trans _ _ d1).
    - apply (fold_columns_preserves (pure list_to_pipe_separated) "subjects"
               list_columns subjects_not_list_column _ _ E1).
    - refine (preserves_when_col _ _ _ _ _ _ E2).
      apply preserves_apply_col. discriminate. }
  destruct (H vs (keeps_get_col_back _ _ _ _ K Hv)) as [ws Hw].
  rewrite (apply_col_progress _ _ _ _ _ _ Hv Hw). now eexists.
Qed.

End ProgressFacts.

Section RunFacts.
Context {L : Library}.

(** A cell as [pd.read_csv] makes it: blank, a truth value, a number or a
    text. *)
Definition from_csv (v : value) : bool :=
  match v with
  | VNaN | VBool _ | VInt _ | VStr _ => true
  | _ => false
  end.

(** A table as [pd.read_csv] returns it. *)
Definition csv_table (df : DataFrame) : Prop :=
  well_formed df
  /\ NoDup (names df)
  /\ Forall (fun cv => Forall (fun v => from_csv v = true) (snd cv))
            (columns df).

(** What a run asks of its input: the five columns it reads without a
    test; list columns whose cells all parse, to values with a length in
    [type_of_incident]; [subjects] cells that parse to values [json.dumps]
    takes; a [date] column [pd.to_datetime] takes. *)
Definition cleanable (df : DataFrame) : Prop :=
  Forall (fun c => has_col c df = true)
         ["id"; "title"; "date"; "country"; "content"]
  /\ (forall c raw,
         In c list_columns -> get_col c df = Ok raw ->
         exists decoded,
           mapM parse_list_column raw = Ok decoded
           /\ (c = "type_of_incident" -> succeeds (mapM py_len decoded)))
  /\ (forall raw,
         get_col "subjects" df = Ok raw ->
         exists decoded,
           mapM parse_subjects_column raw = Ok decoded
           /\ succeeds (mapM subjects_to_json decoded))
  /\ (forall raw,
         get_col "date" df = Ok raw -> succeeds (to_datetime_coerce raw)).

Lemma clean_text_from_csv :
  forall cells,
    Forall (fun v => from_csv v = true) cells ->
    succeeds (mapM clean_text cells).
Proof.
  intros cells H. induction H as [|v cells Hv _ IH]; cbn [mapM].
  - now eexists.
  - assert (Hc : succeeds (clean_text v)).
    { unfold clean_text.
      assert (Hna : isna_truth v = Ok (isna_scalar v))
        by (destruct v; try reflexivity; discriminate).
      rewrite Hna. cbn [bind]. destruct (isna_scalar v); now eexists. }
    destruct Hc as [y ->]. destruct IH as [ys ->]. now eexists.
Qed.

Lemma encode_lists_subjects :
  establishes "subjects" "subjects" subjects_to_json encode_lists.
Proof.
  unfold encode_lists. apply establishes_after.
  - apply fold_columns_preserves, subjects_not_list_column.
  - apply establishes_after.
    + apply preserves_when_col, preserves_apply_col. discriminate.
    + apply establishes_when_col, establishes_apply_col.
Qed.

(** From step 1 to step 7 nothing writes [subjects]. *)
Lemma subjects_kept_until_encoding :
  forall d1 d2 d3 d4 d5 d6,
    clean_texts d1 = Ok d2 -> derive_columns d2 = Ok d3 ->
    parse_dates d3 = Ok d4 -> content_length d4 = Ok d5 ->
    fill_missing d5 = Ok d6 ->
    keeps "subjects" d1 d6.
Proof.
  intros d1 d2 d3 d4 d5 d6 H2 H3 H4 H5 H6.
  apply (keeps_trans _ _ d2);
    [apply (clean_texts_preserves "subjects"
              (not_in_by_eqb "subjects" text_columns eq_refl) _ _ H2)|].
  apply (keeps_trans _ _ d3);
    [apply (derive_columns_preserves "subjects"
              (not_in_by_eqb "subjects" derived_columns eq_refl) _ _ H3)|].
  apply (keeps_trans _ _ d4);
    [apply (parse_dates_preserves "subjects"
              (not_in_by_eqb "subjects" ["date"; "month"; "day_of_week"]
                 eq_refl) _ _ H4)|].
  apply (keeps_trans _ _ d5);
    [apply (content_length_preserves "subjects" ltac:(discriminate) _ _ H5)|].
  apply (fill_missing_preserves "subjects"
           (not_in_by_eqb "subjects" ["country"; "title"; "content"] eq_refl)
           _ _ H6).
Qed.

Lemma run_needs_cleanable :
  forall df out removed,
    clean_mapmf_data df = Ok (out, removed) ->
    cleanable df
    /\ forall c raw,
         In c text_columns -> get_col c df = Ok raw ->
         succeeds (mapM clean_text raw).
Proof.
  intros df out removed H.
  destruct (clean_mapmf_data_ids _ _ _ H)
    as [T [ids [out_ids [HT [_ [Hids _]]]]]].
  destruct (clean_mapmf_data_stages _ _ _ H)
    as [T' [ids' [ds [HT' [_ [Hds _]]]]]].
  rewrite HT in HT'. injection HT' as <-.
  destruct (get_col_take_rows_inv _ _ _ _ Hds) as [dT [HdT _]].
  destruct (transform_stages _ _ HT)
    as [d1 [d2 [d3 [d4 [d5 [d6 [d7 [H1 [H2 [H3 [H4 [H5 [H6 [H7 ET]]]]]]]]]]]]]].
  split; [split; [|split; [|split]]|].
  - assert (Hdate : has_col "date" df = true).
    { destruct (has_col "date" df) eqn:E; [reflexivity|].
      pose proof (transform_without_date _ _ HT E) as X.
      now rewrite (get_col_has_col _ _ _ HdT) in X. }
    repeat constructor.
    + exact (get_col_has_col _ _ _ Hids).
    + apply (transform_requires "title" df T); [simpl; tauto|exact HT].
    + exact Hdate.
    + apply (transform_requires "country" df T); [simpl; tauto|exact HT].
    + apply (transform_requires "content" df T); [simpl; tauto|exact HT].
  - intros c raw Hc Hraw.
    destruct (parse_lists_establishes c Hc _ _ _ H1 Hraw) as [decoded [Hd _]].
    exists decoded. split; [exact Hd|]. intros ->.
    destruct (transform_derives_any "type_of_incident" "incident_type_count"
                py_len Hc derive_incident_type_count
                (not_in_by_eqb "incident_type_count" late_columns eq_refl)
                df T raw HT Hraw) as [decoded' [counts [Hd' [Hcounts _]]]].
    rewrite Hd in Hd'. injection Hd' as <-. now exists counts.
  - intros raw Hraw.
    destruct (parse_lists_subjects _ _ _ H1 Hraw) as [decoded [Hd Hs1]].
    exists decoded. split; [exact Hd|].
    pose proof (keeps_get_col _ _ _ _
                  (subjects_kept_until_encoding _ _ _ _ _ _ H2 H3 H4 H5 H6)
                  Hs1) as Hs6.
    destruct (encode_lists_subjects _ _ _ H7 Hs6) as [ws [Hws _]].
    now exists ws.
  - intros raw Hraw.
    destruct (transform_dates _ _ _ HT Hraw) as [dates [Hdates _]].
    now exists dates.
  - intros c raw Hc Hraw.
    assert (Hnot : ~ In c ("subjects" :: list_columns)).
    { unfold text_columns in Hc. simpl in Hc.
      destruct Hc as [<-|[<-|[]]]; apply not_in_by_eqb; reflexivity. }
    pose proof (keeps_get_col _ _ _ _
                  (parse_lists_preserves c Hnot _ _ H1) Hraw) as Hraw1.
    destruct (fold_columns_establishes clean_text c text_columns
                text_columns_NoDup Hc _ _ _ H2 Hraw1) as [ws [Hws _]].
    now exists ws.
Qed.

Lemma cleanable_transforms :
  forall df,
    cleanable df ->
    (forall c raw, In c text_columns -> get_col c df = Ok raw ->
                   succeeds (mapM clean_text raw)) ->
    exists T,
      transform df = Ok T
      /\ has_col "id" T = true /\ has_col "date" T = true.
Proof.
  intros df [Hfive [Hlists [Hsubj Hdate]]] Htext.
  assert (Hhas : forall c, In c ["id"; "title"; "date"; "country"; "content"]
                           -> has_col c df = true).
  { intros c Hc. rewrite Forall_forall in Hfive. now apply Hfive. }
  (* step 1 *)
  destruct (parse_lists_progress df) as [d1 H1].
  { intros c raw Hc Hraw. destruct (Hlists c raw Hc Hraw) as [d [Hd _]].
    now exists d. }
  { intros raw Hraw. destruct (Hsubj raw Hraw) as [d [Hd _]]. now exists d. }
  pose proof (parse_lists_same_names _ _ H1) as N1.
  (* step 2 *)
  destruct (clean_texts_progress d1) as [d2 H2].
  { intros c raw Hc Hraw. apply (Htext c raw Hc).
    assert (Hnot : ~ In c ("subjects" :: list_columns)).
    { unfold text_columns in Hc. simpl in Hc.
      destruct Hc as [<-|[<-|[]]]; apply not_in_by_eqb; reflexivity. }
    exact (keeps_get_col_back _ _ _ _
             (parse_lists_preserves c Hnot _ _ H1) Hraw). }
  (* step 3 *)
  destruct (derive_columns_progress d2) as [d3 H3].
  { intros vs Hvs.
    pose proof (keeps_get_col_back _ _ _ _
                  (clean_texts_preserves "type_of_incident"
                     (not_in_by_eqb "type_of_incident" text_columns eq_refl)
                     _ _ H2) Hvs) as Hvs1.
    destruct (same_names_get_col _ _ _ _ N1 Hvs1) as [raw Hraw].
    assert (Hc : In "type_of_incident" list_columns)
      by (unfold list_columns; simpl; tauto).
    destruct (parse_lists_establishes _ Hc _ _ _ H1 Hraw) as [d [Hd Hg]].
    rewrite Hvs1 in Hg. injection Hg as <-.
    destruct (Hlists _ raw Hc Hraw) as [d' [Hd' Hlen]].
    rewrite Hd in Hd'. injection Hd' as <-. now apply Hlen. }
  (* step 4 *)
  assert (H123 : (df1 <- parse_lists df ;; df2 <- clean_texts df1 ;;
                  derive_columns df2) = Ok d3).
  { rewrite H1. cbn [bind]. rewrite H2. cbn [bind]. exact H3. }
  destruct (has_col_get_col _ _ (Hhas "date" ltac:(simpl; tauto)))
    as [raw Hraw].
  pose proof (before_dates_keeps "date" df d3
                (not_in_by_eqb "date"
                   ("subjects" :: list_columns ++ text_columns
                    ++ derived_columns)%list eq_refl) H123) as Kd.
  destruct (Hdate raw Hraw) as [dates Hdates].
  destruct (parse_dates_total d3 raw dates (keeps_get_col _ _ _ _ Kd Hraw)
              Hdates) as [d4 H4].
  (* step 5 *)
  destruct (content_length_total d4) as [d5 H5].
  (* step 6 *)
  assert (G5 : grows df d5).
  { apply (grows_trans _ _ _ (parse_lists_grows _ _ H1)).
    apply (grows_trans _ _ _ (clean_texts_grows _ _ H2)).
    apply (grows_trans _ _ _ (derive_columns_grows _ _ H3)).
    apply (grows_trans _ _ _ (parse_dates_grows _ _ H4)).
    exact (content_length_grows _ _ H5). }
  destruct (fill_missing_progress d5) as [d6 H6];
    try (apply (grows_has_col _ _ _ G5), Hhas; simpl; tauto).
  (* step 7 *)
  destruct (encode_lists_progress d6) as [d7 H7].
  { intros vs Hvs.
    pose proof (keeps_get_col_back _ _ _ _
                  (subjects_kept_until_encoding _ _ _ _ _ _ H2 H3 H4 H5 H6)
                  Hvs) as Hvs1.
    destruct (same_names_get_col _ _ _ _ N1 Hvs1) as [raw' Hraw'].
    destruct (parse_lists_subjects _ _ _ H1 Hraw') as [d [Hd Hg]].
    rewrite Hvs1 in Hg. injection Hg as <-.
    destruct (Hsubj raw' Hraw') as [d' [Hd' Hjson]].
    rewrite Hd in Hd'. now injection Hd' as <-. }
  assert (G7 : grows df d7).
  { apply (grows_trans _ _ _ G5).
    apply (grows_trans _ _ _ (fill_missing_grows _ _ H6)).
    exact (encode_lists_grows _ _ H7). }
  exists (reorder_columns d7). split; [|split].
  - unfold transform. rewrite H1. cbn [bind]. rewrite H2. cbn [bind].
    rewrite H3. cbn [bind]. rewrite H4. cbn [bind]. rewrite H5. cbn [bind].
    rewrite H6. cbn [bind]. rewrite H7. reflexivity.
  - unfold has_col. rewrite lookup_reorder_columns.
    apply (grows_has_col "id" _ _ G7), Hhas. simpl. tauto.
  - unfold has_col. rewrite lookup_reorder_columns.
    apply (grows_has_col "date" _ _ G7), Hhas. simpl. tauto.
Qed.

Lemma cleanable_runs :
  forall df,
    cleanable df ->
    (forall c raw, In c text_columns -> get_col c df = Ok raw ->
                   succeeds (mapM clean_text raw)) ->
    succeeds (clean_mapmf_data df).
Proof.
  intros df Hc Ht.
  destruct (cleanable_transforms df Hc Ht) as [T [HT [Hid Hdate]]].
  unfold clean_mapmf_data. rewrite HT. cbn [bind]. unfold drop_duplicates.
  destruct (has_col_get_col _ _ Hid) as [ids Hids]. rewrite Hids. cbn [bind].
  unfold sort_values_desc.
  destruct (has_col_get_col _ _ Hdate) as [ds Hds].
  rewrite (get_col_take_rows _ (first_occurrences ids) _ _ Hds). cbn [bind].
  now eexists.
Qed.

End RunFacts.

(** X17.  A run returns only on an input that has the five columns it
    reads without a test, whose list-column cells all parse (to values
    with a length in [type_of_incident]), whose [subjects] cells parse to
    values [json.dumps] takes, whose [date] column [pd.to_datetime] takes,
    and on whose [title] and [content] cells [clean_text] returns. *)
Theorem run_returns_only_on_cleanable_input :
  forall (L : Library) (df out : DataFrame) (removed : nat),
    clean_mapmf_data df = Ok (out, removed) ->
    cleanable df
    /\ forall c raw,
         In c text_columns -> get_col c df = Ok raw ->
         exists cleaned, mapM clean_text raw = Ok cleaned.
Proof.
  intros L df out removed H.
  destruct (run_needs_cleanable df out removed H) as [Hc Ht].
  split; [exact Hc|]. intros c raw Hin Hraw.
  destruct (Ht c raw Hin Hraw) as [cleaned E]. now exists cleaned.
Qed.

Lemma run_returns_only_on_cleanable_input_witness :
  cleanable (L := RefLib) subjects_table
  /\ forall c raw,
       In c text_columns -> get_col c subjects_table = Ok raw ->
       exists cleaned, mapM (clean_text (L := RefLib)) raw = Ok cleaned.
Proof.
  apply (run_returns_only_on_cleanable_input RefLib subjects_table
           (fst (run subjects_table)) (snd (run subjects_table))).
  vm_compute. reflexivity.
Defined.

(** X18.  On a table as [pd.read_csv] returns it, those conditions are
    enough for steps 1 to 10 (lines 82 to 217): the table is built, freed of
    duplicates and sorted without an exception whenever the five columns
    are there, the cells of the list columns and of [subjects] parse, the
    parsed [type_of_incident] cells have a length, [json.dumps] takes the
    parsed [subjects] cells and [pd.to_datetime] takes the [date] column.
    An exception of the function on such a table can then only come from
    the write-out and the summary that follow, which are not modelled. *)
Theorem cleaning_steps_complete_on_cleanable_csv_table :
  forall (L : Library) (df : DataFrame),
    csv_table df ->
    cleanable df ->
    exists out removed, clean_mapmf_data df = Ok (out, removed).
Proof.
  intros L df [_ [_ Hcells]] Hc.
  destruct (cleanable_runs df Hc) as [[out removed] H].
  - intros c raw _ Hraw. apply clean_text_from_csv.
    unfold get_col in Hraw.
    destruct (lookup c (columns df)) as [vs|] eqn:E; [|discriminate].
    injection Hraw as <-. apply lookup_In in E.
    rewrite Forall_forall in Hcells. exact (Hcells _ E).
  - now exists out, removed.
Qed.

Module RunExamples.

(** Two incidents with a list column and subjects, as read from a CSV
    file. *)
Definition reported_table : DataFrame :=
  frame 2
    [("id", [VInt 1; VInt 2]);
     ("title", [VStr "Reporter &amp; editor  held"; VNaN]);
     ("content", [VStr "x"; VStr "y"]);
     ("date", [VStr "2024-01-01"; VNaN]);
     ("country", [VStr "FR"; VNaN]);
     ("type_of_incident", [VStr "['Arrest', 'Assault']"; VNaN]);
     ("subjects", [VStr "[{'kind': 'journalist', 'type': 'Reporter'}]"; VNaN])].

End RunExamples.
Import RunExamples.

Lemma cleaning_steps_complete_on_cleanable_csv_table_witness :
  exists out removed,
    clean_mapmf_data (L := RefLib) reported_table = Ok (out, removed).
Proof.
  apply (cleaning_steps_complete_on_cleanable_csv_table RefLib reported_table).
  - split; [|split].
    + unfold well_formed. vm_compute. repeat constructor.
    + vm_compute.
      repeat (constructor; [apply not_in_by_eqb; reflexivity|]). constructor.
    + vm_compute. repeat constructor.
  - split; [|split; [|split]].
    + vm_compute. repeat constructor.
    + intros c raw Hc Hraw. unfold list_columns in Hc. simpl in Hc.
      repeat (destruct Hc as [<-|Hc];
              [vm_compute in Hraw;
               first [ discriminate
                     | injection Hraw as <-; eexists;
                       split; [vm_compute; reflexivity|];
                       intros _; eexists; vm_compute; reflexivity ]|]).
      contradiction.
    + intros raw Hraw. vm_compute in Hraw. injection Hraw as <-.
      eexists. split; [vm_compute; reflexivity|].
      eexists. vm_compute. reflexivity.
    + intros raw Hraw. vm_compute in Hraw. injection Hraw as <-.
      eexists. vm_compute. reflexivity.
Defined.

Example reported_table_run :
  get_col "title" (fst (run reported_table))
  = Ok [VStr "Reporter & editor held"; VStr ""]
  /\ get_col "incident_type_count" (fst (run reported_table))
     = Ok [VInt 2; VInt 0]
  /\ get_col "country" (fst (run reported_table))
     = Ok [VStr "FR"; VStr "Unknown"].
Proof. vm_compute. repeat split. Qed.
